(** * Cross-sectional leader/lagger trading engine: a shallow embedding

    The development follows the Python sources module by module:
    - [backtest/rule_scoring.py]   rule identifiers and per-rule aggregates,
    - [signals/lag_detector.py]    sliding-window signal detection,
    - [backtest/trade_generator.py] expansion of signals into trade rows,
    - [reporting/sector_filters.py] sector daily returns and the strict gate,
    - [backtest/portfolio.py]      the capacity-constrained portfolio replay.

    Conventions of the embedding.
    - A [float64] is an exact rational ([Q]); a missing value ([None], [NaN],
      [NaT]) is [None] of an [option].  Comparisons against a missing value
      are false and pandas reductions skip it, as in the sources.
    - A timestamp is a day number ([Z]) counted from a Monday, so that the
      weekday of [d] is [d mod 7] and business days are the weekdays 0..4.
    - A pandas table is the list of its rows; a row that is iterated with its
      index label is a pair of the label and the row.
    - A Python [str] is a [string] whose characters stand for the code points
      below 256.
    - An exception raised by the source is a missing result ([None]) of the
      function that raises it.
    - Where pandas leaves an order open (rows with equal sort keys, the walk
      through a Python set), the table order is kept; no statement below
      depends on that choice. *)

From Stdlib Require Import String Ascii.
From Stdlib Require Import ZArith QArith Qabs Qminmax Bool Lia Lqa List.
From Stdlib Require Import Permutation Sorted OrdersEx.
Import ListNotations.

Set Implicit Arguments.

(** ** Missing values and pandas reductions *)

Module Pandas.

(** [Series.sum()] over floats: missing entries are skipped. *)
Definition sum (xs : list (option Q)) : Q :=
  fold_right (fun x acc => match x with Some v => v + acc | None => acc end) 0 xs.

(** [Series.dropna()]. *)
Fixpoint dropna {A : Type} (xs : list (option A)) : list A :=
  match xs with
  | [] => []
  | Some v :: r => v :: dropna r
  | None :: r => dropna r
  end.

(** Sum of a list of present values. *)
Definition total (xs : list Q) : Q := fold_right Qplus 0 xs.

(** [Series.mean()]: mean of the present entries, missing when there are none. *)
Definition mean (xs : list (option Q)) : option Q :=
  match dropna xs with
  | [] => None
  | v :: r => Some (total (v :: r) / inject_Z (Z.of_nat (length (v :: r))))
  end.

(** [Series.min()]: least present entry, missing when there are none. *)
Definition min (xs : list (option Q)) : option Q :=
  match dropna xs with
  | [] => None
  | v :: r => Some (fold_left Qmin r v)
  end.

(** [x > 0.0] elementwise: false on a missing entry. *)
Definition gt_zero (x : option Q) : bool :=
  match x with
  | Some v => negb (Qle_bool v 0)
  | None => false
  end.

(** [a < b] on timestamps, false when the left one is [NaT]. *)
Definition date_lt (a : option Z) (b : Z) : bool :=
  match a with
  | Some x => (x <? b)%Z
  | None => false
  end.

Definition notna {A : Type} (x : option A) : bool :=
  match x with Some _ => true | None => false end.

(** Stable insertion sort; [leb a b] says that [a] may stand before [b]. *)
Section Sorting.
Variable A : Type.
Variable leb : A -> A -> bool.

Fixpoint insert (x : A) (l : list A) : list A :=
  match l with
  | [] => [x]
  | y :: r => if leb x y then x :: y :: r else y :: insert x r
  end.

Definition sort (l : list A) : list A := fold_right insert [] l.
End Sorting.

(** Descending order on a float column, missing values last
    ([sort_values(..., ascending=False)]). *)
Definition desc_leb (a b : option Q) : bool :=
  match a, b with
  | Some x, Some y => Qle_bool y x
  | Some _, None => true
  | None, Some _ => false
  | None, None => true
  end.

(** [Series.cumprod()]. *)
Fixpoint cumprod_from (acc : Q) (xs : list Q) : list Q :=
  match xs with
  | [] => []
  | x :: r => (acc * x) :: cumprod_from (acc * x) r
  end.

Definition cumprod (xs : list Q) : list Q :=
  match xs with
  | [] => []
  | x :: r => x :: cumprod_from x r
  end.

(** Product of a list of values. *)
Definition product (xs : list Q) : Q := fold_right Qmult 1 xs.

(** Least and greatest element of a non-empty column. *)
Definition zmin (d : Z) (ds : list Z) : Z := fold_left Z.min ds d.
Definition zmax (d : Z) (ds : list Z) : Z := fold_left Z.max ds d.

(** Day of the week, 0 = Monday .. 6 = Sunday. *)
Definition weekday (d : Z) : Z := (d mod 7)%Z.
Definition is_business_day (d : Z) : bool := (weekday d <? 5)%Z.

(** [pd.date_range(start, stop, freq="B")]: the business days of
    [start .. stop], both ends included. *)
Definition date_range_B (start stop : Z) : list Z :=
  filter is_business_day
    (map (fun k => (start + Z.of_nat k)%Z) (seq 0 (Z.to_nat (stop - start + 1)))).

End Pandas.

(** ** Rows of the trade table ([trade_generator.py], lines 86-104) *)

Module Trade.
Record t : Type := mk {
  group : string;
  ticker : string;
  direction : Z;
  signal_date : Z;
  entry_date : Z;
  exit_date : option Z;
  entry_lag : nat;
  hold_days : nat;
  lookback : nat;
  group_thresh : Q;
  participation : Q;
  lagger_max_move : Q;
  ret : option Q;
  leaders : string;
  is_open : bool;
  rule_id : option string;
  rule_quality_score : option Q;
  avg_ret : option Q
}.

(** [exit_date.notna()] *)
Definition closed (tr : t) : bool := Pandas.notna (exit_date tr).

(** [(entry_date <= day) & (exit_date >= day)] *)
Definition open_on (day : Z) (tr : t) : bool :=
  match exit_date tr with
  | Some e => ((entry_date tr <=? day) && (day <=? e))%Z
  | None => false
  end.

(** [exit_date == day] *)
Definition exits_on (day : Z) (tr : t) : bool :=
  match exit_date tr with
  | Some e => (e =? day)%Z
  | None => false
  end.
End Trade.

(** ** backtest/rule_scoring.py *)

(** [hashlib.sha1]: the SHA-1 digest of a byte string (FIPS 180-4),
    on 32-bit words held in [N]. *)
Module Sha1.
Local Open Scope N_scope.

Definition mask32 : N := 4294967295.
Definition add32 (a b : N) : N := (a + b) mod 4294967296.
Definition rotl32 (n x : N) : N :=
  N.land (N.lor (N.shiftl x n) (N.shiftr x (32 - n))) mask32.
Definition not32 (x : N) : N := N.lxor x mask32.

(** Big-endian bytes of a number, [k] bytes wide. *)
Fixpoint be_bytes (k : nat) (x : N) : list N :=
  match k with
  | O => []
  | S k' => N.land (N.shiftr x (8 * N.of_nat k')) 255 :: be_bytes k' x
  end.

(** Message padding: a one bit, zeros up to 56 mod 64, the bit length. *)
Definition pad (msg : list N) : list N :=
  let len := N.of_nat (List.length msg) in
  let zeros := N.to_nat ((119 - len mod 64) mod 64) in
  msg ++ [128] ++ repeat 0 zeros ++ be_bytes 8 (8 * len).

Definition be_word (bs : list N) : N :=
  fold_left (fun acc b => N.lor (N.shiftl acc 8) b) bs 0.

(** Split into groups of [k] elements, [n] groups. *)
Fixpoint chunks {A : Type} (k n : nat) (l : list A) : list (list A) :=
  match n with
  | O => []
  | S n' => firstn k l :: chunks k n' (skipn k l)
  end.

Definition block_words (block : list N) : list N :=
  map be_word (chunks 4 16 block).

(** Message schedule: 64 further words from the 16 of the block. *)
Fixpoint extend (fuel : nat) (w : list N) : list N :=
  match fuel with
  | O => w
  | S f =>
      let i := List.length w in
      let x := N.lxor (N.lxor (nth (i - 3) w 0) (nth (i - 8) w 0))
                      (N.lxor (nth (i - 14) w 0) (nth (i - 16) w 0)) in
      extend f (w ++ [rotl32 1 x])
  end.

Definition State : Type := (N * N * N * N * N)%type.

Definition round (st : State) (iw : nat * N) : State :=
  let '(a, b, c, d, e) := st in
  let '(i, w) := iw in
  let '(f, k) :=
    if (i <? 20)%nat then (N.lor (N.land b c) (N.land (not32 b) d), 1518500249)
    else if (i <? 40)%nat then (N.lxor (N.lxor b c) d, 1859775393)
    else if (i <? 60)%nat
         then (N.lor (N.lor (N.land b c) (N.land b d)) (N.land c d), 2400959708)
    else (N.lxor (N.lxor b c) d, 3395469782) in
  let temp := add32 (add32 (add32 (add32 (rotl32 5 a) f) e) k) w in
  (temp, a, rotl32 30 b, c, d).

Definition compress (h : State) (block : list N) : State :=
  let w := extend 64 (block_words block) in
  let '(a, b, c, d, e) := fold_left round (combine (seq 0 80) w) h in
  let '(h0, h1, h2, h3, h4) := h in
  (add32 h0 a, add32 h1 b, add32 h2 c, add32 h3 d, add32 h4 e).

Definition init : State := (1732584193, 4023233417, 2562383102, 271733878, 3285377520).

Definition digest (msg : list N) : State :=
  let padded := pad msg in
  fold_left compress (chunks 64 (List.length padded / 64) padded) init.

Definition hex_digit (n : N) : ascii :=
  if n <? 10 then ascii_of_N (48 + n) else ascii_of_N (87 + n).

(** [k] lowercase hexadecimal digits of [x], most significant first. *)
Fixpoint hex (k : nat) (x : N) : string :=
  match k with
  | O => EmptyString
  | S k' => String (hex_digit (N.land (N.shiftr x (4 * N.of_nat k')) 15)) (hex k' x)
  end.

Definition bytes_of_string (s : string) : list N := map N_of_ascii (list_ascii_of_string s).

(** [hashlib.sha1(data).hexdigest()] *)
Definition hexdigest (data : string) : string :=
  let '(h0, h1, h2, h3, h4) := digest (bytes_of_string data) in
  (hex 8 h0 ++ hex 8 h1 ++ hex 8 h2 ++ hex 8 h3 ++ hex 8 h4)%string.
End Sha1.

(** [json.dumps(obj, sort_keys=True)] for the dictionaries of this program:
    string keys, and integers, floats and strings as values. *)
Module Json.

Inductive value : Type :=
| JInt (n : Z)
| JFloat (x : Q)
| JStr (s : string).

(** A Python [dict]: items in insertion order, keys pairwise distinct. *)
Definition dict : Type := list (string * value).

Definition dquote : string := String (ascii_of_nat 34) EmptyString.
Definition bslash : string := String (ascii_of_nat 92) EmptyString.

(** One character under [ensure_ascii=True]. *)
Definition escape_char (c : ascii) : string :=
  let n := nat_of_ascii c in
  if (n =? 34)%nat then bslash ++ dquote
  else if (n =? 92)%nat then bslash ++ bslash
  else if (n =? 10)%nat then bslash ++ "n"
  else if (n =? 13)%nat then bslash ++ "r"
  else if (n =? 9)%nat then bslash ++ "t"
  else if (n =? 8)%nat then bslash ++ "b"
  else if (n =? 12)%nat then bslash ++ "f"
  else if ((32 <=? n) && (n <=? 126))%nat then String c EmptyString
  else bslash ++ "u" ++ Sha1.hex 4 (N.of_nat n).

Fixpoint escape (s : string) : string :=
  match s with
  | EmptyString => EmptyString
  | String c r => escape_char c ++ escape r
  end.

Definition quote (s : string) : string := dquote ++ escape s ++ dquote.

Fixpoint digits (fuel : nat) (n : N) (acc : string) : string :=
  match fuel with
  | O => acc
  | S f =>
      let acc' := String (ascii_of_N (48 + n mod 10)%N) acc in
      if (n / 10 =? 0)%N then acc' else digits f (n / 10)%N acc'
  end.

(** [int.__repr__] *)
Definition int_repr (z : Z) : string :=
  let n := Z.to_N (Z.abs z) in
  let s := digits (S (N.to_nat (N.log2 n))) n EmptyString in
  if (z <? 0)%Z then "-" ++ s else s.

Fixpoint join (sep : string) (l : list string) : string :=
  match l with
  | [] => EmptyString
  | [x] => x
  | x :: r => x ++ sep ++ join sep r
  end.

(** Order of two items by their keys, code point by code point. *)
Definition key_leb (a b : string * value) : bool := String.leb (fst a) (fst b).

Section Dumps.
(** [float.__repr__], the shortest decimal that reads back as the same
    double; it belongs to the Python runtime and is taken as given. *)
Variable float_repr : Q -> string.

Definition encode (v : value) : string :=
  match v with
  | JInt n => int_repr n
  | JFloat x => float_repr x
  | JStr s => quote s
  end.

Definition item (kv : string * value) : string :=
  quote (fst kv) ++ ": " ++ encode (snd kv).

(** Items ordered by key: [sorted(dct.items())].  The keys of a dictionary
    are distinct, so the values never take part in the comparison. *)
Definition sort_items (d : dict) : dict := Pandas.sort key_leb d.

Definition dumps_sorted (d : dict) : string :=
  "{" ++ join ", " (map item (sort_items d)) ++ "}".
End Dumps.

(** Items in strictly increasing order of their keys. *)
Definition key_lt (a b : string * value) : Prop :=
  String.compare (fst a) (fst b) = Lt.

End Json.

Module RuleKey.
(** The fields of [RULE_KEY_COLS]. *)
Record t : Type := mk {
  lookback : nat;
  group_thresh : Q;
  participation : Q;
  lagger_max_move : Q;
  entry_lag : nat;
  hold_days : nat;
  group : string
}.

Definition of_trade (tr : Trade.t) : t :=
  {| lookback := Trade.lookback tr;
     group_thresh := Trade.group_thresh tr;
     participation := Trade.participation tr;
     lagger_max_move := Trade.lagger_max_move tr;
     entry_lag := Trade.entry_lag tr;
     hold_days := Trade.hold_days tr;
     group := Trade.group tr |}.

(** Equality of the key columns, floats compared by value. *)
Definition eqb (a b : t) : bool :=
  (lookback a =? lookback b)%nat
  && Qeq_bool (group_thresh a) (group_thresh b)
  && Qeq_bool (participation a) (participation b)
  && Qeq_bool (lagger_max_move a) (lagger_max_move b)
  && (entry_lag a =? entry_lag b)%nat
  && (hold_days a =? hold_days b)%nat
  && String.eqb (group a) (group b).

Definition cmp_then (c : comparison) (k : comparison) : comparison :=
  match c with Eq => k | _ => c end.

(** Lexicographic order of the key columns, in the order of [RULE_KEY_COLS]. *)
Definition compare (a b : t) : comparison :=
  cmp_then (Nat.compare (lookback a) (lookback b))
  (cmp_then (Qcompare (group_thresh a) (group_thresh b))
  (cmp_then (Qcompare (participation a) (participation b))
  (cmp_then (Qcompare (lagger_max_move a) (lagger_max_move b))
  (cmp_then (Nat.compare (entry_lag a) (entry_lag b))
  (cmp_then (Nat.compare (hold_days a) (hold_days b))
            (String.compare (group a) (group b))))))).

Definition leb (a b : t) : bool :=
  match compare a b with Gt => false | _ => true end.
End RuleKey.

Module RuleScoring.

Definition RULE_KEY_COLS : list string :=
  ["lookback"; "group_thresh"; "participation"; "lagger_max_move";
   "entry_lag"; "hold_days"; "group"]%string.

(** [str.upper()] on one character. *)
Definition upper_char (c : ascii) : ascii :=
  let n := nat_of_ascii c in
  if ((97 <=? n) && (n <=? 122))%nat then ascii_of_nat (n - 32) else c.

Fixpoint upper (s : string) : string :=
  match s with
  | EmptyString => EmptyString
  | String c r => String (upper_char c) (upper r)
  end.

(** Line 70: [{k: row[k] for k in RULE_KEY_COLS}]. *)
Definition rule_params (k : RuleKey.t) : Json.dict :=
  [ ("lookback", Json.JInt (Z.of_nat (RuleKey.lookback k)));
    ("group_thresh", Json.JFloat (RuleKey.group_thresh k));
    ("participation", Json.JFloat (RuleKey.participation k));
    ("lagger_max_move", Json.JFloat (RuleKey.lagger_max_move k));
    ("entry_lag", Json.JInt (Z.of_nat (RuleKey.entry_lag k)));
    ("hold_days", Json.JInt (Z.of_nat (RuleKey.hold_days k)));
    ("group", Json.JStr (RuleKey.group k)) ]%string.

(** Python [max(1e-6, abs(max_dd))]: the second argument wins only when it
    is greater, which a missing value never is. *)
Definition dd_term (max_dd : option Q) : Q :=
  match max_dd with
  | Some m => if Qle_bool (Qabs m) (1 # 1000000) then 1 # 1000000 else Qabs m
  | None => 1 # 1000000
  end.

Definition penalty (n_trades : nat) : Q :=
  if (n_trades <? 50)%nat then 1 # 2
  else if (n_trades <? 200)%nat then 8 # 10
  else 1.

Definition _compute_rule_quality
           (avg_ret : option Q) (win_rate : Q) (max_dd : option Q) (n_trades : nat)
  : option Q :=
  option_map (fun a => (a * win_rate * penalty n_trades) / dd_term max_dd) avg_ret.

(** One row of the table returned by [score_rules]. *)
Record ScoredRule : Type := mkScored {
  key : RuleKey.t;
  rule_id : string;
  n_trades : nat;
  avg_ret_full : option Q;
  win_rate : Q;
  max_dd : option Q;
  rule_quality_score : option Q
}.

(** First occurrences, in order. *)
Fixpoint unique {A : Type} (eqb : A -> A -> bool) (l : list A) : list A :=
  match l with
  | [] => []
  | x :: r => x :: filter (fun y => negb (eqb x y)) (unique eqb r)
  end.

(** [groupby(RULE_KEY_COLS)]: one group per key, keys in sorted order. *)
Definition groupby (trades : list Trade.t) : list (RuleKey.t * list Trade.t) :=
  let keys := Pandas.sort RuleKey.leb (unique RuleKey.eqb (map RuleKey.of_trade trades)) in
  map (fun k => (k, filter (fun tr => RuleKey.eqb (RuleKey.of_trade tr) k) trades)) keys.

(** [np.mean(x > 0.0)] over the whole column of the group. *)
Definition frac_positive (xs : list (option Q)) : Q :=
  inject_Z (Z.of_nat (List.length (filter Pandas.gt_zero xs)))
  / inject_Z (Z.of_nat (List.length xs)).

Section WithRepr.
Variable float_repr : Q -> string.

Definition generate_rule_id (rule_params : Json.dict) : string :=
  let canonical := Json.dumps_sorted float_repr rule_params in
  let h := Sha1.hexdigest canonical in
  let short := upper (substring 0 8 h) in
  ("R_" ++ short)%string.

Definition score_group (g : RuleKey.t * list Trade.t) : ScoredRule :=
  let rets := map Trade.ret (snd g) in
  let n := List.length rets in
  let avg := Pandas.mean rets in
  let win := frac_positive rets in
  let dd := Pandas.min rets in
  {| key := fst g;
     rule_id := generate_rule_id (rule_params (fst g));
     n_trades := n;
     avg_ret_full := avg;
     win_rate := win;
     max_dd := dd;
     rule_quality_score := _compute_rule_quality avg win dd n |}.

Definition score_rules (trades_df : list Trade.t) : list ScoredRule :=
  map score_group (groupby trades_df).
End WithRepr.

End RuleScoring.

(** ** Price tables *)

Module Frame.
(** A table of floats: column labels, the date index, and one row of
    values per date, as wide as the list of columns. *)
Record t : Type := mk {
  columns : list string;
  index : list Z;
  rows : list (list Q)
}.

(** Position of a label in a list of labels. *)
Fixpoint position {A : Type} (eqb : A -> A -> bool) (x : A) (l : list A) : option nat :=
  match l with
  | [] => None
  | y :: r => if eqb x y then Some O else option_map S (position eqb x r)
  end.

(** [series[ticker]]: the values of one column, top to bottom. *)
Definition column (f : t) (ticker : string) : option (list Q) :=
  option_map (fun j => map (fun row => nth j row 0) (rows f))
             (position String.eqb ticker (columns f)).

(** [index.get_loc(date)] on an index without repeated dates;
    missing stands for [KeyError]. *)
Definition get_loc (f : t) (date : Z) : option nat :=
  position Z.eqb date (index f).
End Frame.

(** ** signals/lag_detector.py *)

Module Signal.
Record t : Type := mk {
  group : string;
  ticker : string;
  direction : Z;
  lookback : nat;
  group_thresh : Q;
  participation : Q;
  lagger_max_move : Q;
  signal_date : Z;
  start_date : Z;
  leaders : list string;
  lagger_ret : Q;
  window_rets : list (string * Q)
}.
End Signal.

Module LagDetector.

Definition MIN_LEADERS_PER_SIGNAL : nat := 2.
Definition MIN_LAGGERS_PER_SIGNAL : nat := 1.
Definition MIN_WINDOW_STD : Q := 1 # 100.

Definition Qltb (a b : Q) : bool := negb (Qle_bool b a).

(** Sample variance ([ddof=1]); missing for fewer than two values, where
    [Series.std()] is [NaN]. *)
Definition sample_var (xs : list Q) : option Q :=
  match xs with
  | [] | [_] => None
  | _ =>
      let n := inject_Z (Z.of_nat (List.length xs)) in
      let m := Pandas.total xs / n in
      Some (Pandas.total (map (fun x => (x - m) * (x - m)) xs) / (n - 1))
  end.

(** Line 87, [window_rets.std() < MIN_WINDOW_STD]: the standard deviation
    is the non-negative root of the variance, so the test is the same test
    on squares; it is false on [NaN]. *)
Definition below_noise_floor (rets : list Q) : bool :=
  match sample_var rets with
  | Some v => Qltb v (MIN_WINDOW_STD * MIN_WINDOW_STD)
  | None => false
  end.

(** [len(movers) / len(tickers)]; missing stands for [ZeroDivisionError]. *)
Definition fraction (movers tickers : nat) : option Q :=
  match tickers with
  | O => None
  | S _ => Some (inject_Z (Z.of_nat movers) / inject_Z (Z.of_nat tickers))
  end.

Definition movers_up (group_thresh : Q) (window_rets : list (string * Q)) :=
  filter (fun p => Qle_bool group_thresh (snd p)) window_rets.

Definition movers_down (group_thresh : Q) (window_rets : list (string * Q)) :=
  filter (fun p => Qle_bool (snd p) (- group_thresh)) window_rets.

(** Lines 103-110: sign of the sector move and which movers lead it. *)
Definition decide_direction (frac_up frac_down participation : Q) : option Z :=
  if Qle_bool participation frac_up && Qle_bool frac_down frac_up then Some 1%Z
  else if Qle_bool participation frac_down && Qltb frac_up frac_down then Some (-1)%Z
  else None.

(** Lines 117-120. *)
Definition find_laggers (lagger_max_move : Q) (leaders : list string)
           (window_rets : list (string * Q)) : list (string * Q) :=
  filter (fun p => negb (existsb (String.eqb (fst p)) leaders))
         (filter (fun p => Qle_bool (Qabs (snd p)) lagger_max_move) window_rets).

Section Window.
Variables (group_name : string) (lookback : nat).
Variables (group_thresh participation lagger_max_move : Q).
Variable direction : string.

Definition wants (side : string) : bool :=
  String.eqb direction side || String.eqb direction "both".

(** Lines 126-142: one signal per lagger. *)
Definition emit (start_date end_date : Z) (dir_sign : Z) (leaders : list string)
           (window_rets : list (string * Q)) (lagger : string * Q) : Signal.t :=
  {| Signal.group := group_name;
     Signal.ticker := fst lagger;
     Signal.direction := dir_sign;
     Signal.lookback := lookback;
     Signal.group_thresh := group_thresh;
     Signal.participation := participation;
     Signal.lagger_max_move := lagger_max_move;
     Signal.signal_date := end_date;
     Signal.start_date := start_date;
     Signal.leaders := leaders;
     Signal.lagger_ret := snd lagger;
     Signal.window_rets := window_rets |}.

(** Body of the loop of line 78 once the window returns are known;
    missing stands for the [ZeroDivisionError] of lines 96 and 100. *)
Definition window_signals (n_tickers : nat) (start_date end_date : Z)
           (window_rets : list (string * Q)) : option (list Signal.t) :=
  if below_noise_floor (map snd window_rets) then Some []
  else
    let ups := if wants "up" then movers_up group_thresh window_rets else [] in
    let downs := if wants "down" then movers_down group_thresh window_rets else [] in
    match (if wants "up" then fraction (List.length ups) n_tickers else Some 0),
          (if wants "down" then fraction (List.length downs) n_tickers else Some 0) with
    | Some frac_up, Some frac_down =>
        match decide_direction frac_up frac_down participation with
        | None => Some []
        | Some dir_sign =>
            let leaders := map fst (if (dir_sign =? 1)%Z then ups else downs) in
            if (List.length leaders <? MIN_LEADERS_PER_SIGNAL)%nat then Some []
            else
              let laggers := find_laggers lagger_max_move leaders window_rets in
              if (List.length laggers <? MIN_LAGGERS_PER_SIGNAL)%nat then Some []
              else Some (map (emit start_date end_date dir_sign leaders window_rets)
                             laggers)
        end
    | _, _ => None
    end.

(** Line 84: [window_prices.iloc[-1] / window_prices.iloc[0] - 1.0].
    Normalised prices are positive; a quotient by zero, which numpy turns
    into an infinity or a [NaN], is outside the model. *)
Definition window_returns (tickers : list string) (first last : list Q)
  : list (string * Q) :=
  combine tickers (map (fun fl => snd fl / fst fl - 1) (combine first last)).

Fixpoint collect (l : list (option (list Signal.t))) : option (list Signal.t) :=
  match l with
  | [] => Some []
  | None :: _ => None
  | Some x :: r => option_map (app x) (collect r)
  end.

Definition _detect_lag_signals_for_group (series_group : Frame.t)
  : option (list Signal.t) :=
  let tickers := Frame.columns series_group in
  let n := List.length (Frame.rows series_group) in
  collect
    (map (fun end_idx =>
            let start_idx := (end_idx - lookback)%nat in
            window_signals (List.length tickers)
              (nth start_idx (Frame.index series_group) 0%Z)
              (nth end_idx (Frame.index series_group) 0%Z)
              (window_returns tickers
                 (nth start_idx (Frame.rows series_group) [])
                 (nth end_idx (Frame.rows series_group) [])))
         (seq lookback (n - lookback))).
End Window.

End LagDetector.

(** ** backtest/trade_generator.py *)

Module TradeGenerator.

Definition entry_lags : list nat := [0; 1; 2; 3]%nat.
Definition holds : list nat := [3; 5; 7; 10]%nat.

(** The four fields a signal shares with its trade parameters. *)
Definition ParamSet : Type := (nat * Q * Q * Q)%type.

Definition params_of (sig : Signal.t) : ParamSet :=
  (Signal.lookback sig, Signal.group_thresh sig,
   Signal.participation sig, Signal.lagger_max_move sig).

Definition params_eqb (a b : ParamSet) : bool :=
  let '(lb1, gt1, p1, lg1) := a in
  let '(lb2, gt2, p2, lg2) := b in
  (lb1 =? lb2)%nat && Qeq_bool gt1 gt2 && Qeq_bool p1 p2 && Qeq_bool lg1 lg2.

(** Lines 14-22: the set of parameter tuples, each once.  The order in
    which a Python set is walked is not fixed; a signal only ever meets
    the entries equal to its own tuple, so the order does not show. *)
Definition unique_param_sets (signals : list Signal.t) : list ParamSet :=
  RuleScoring.unique params_eqb (map params_of signals).

(** Lines 27-40. *)
Definition adaptive_rule_grid (signals : list Signal.t) : list (ParamSet * nat * nat) :=
  flat_map (fun ps =>
              flat_map (fun elag => map (fun hold => (ps, elag, hold)) holds) entry_lags)
           (unique_param_sets signals).

Fixpoint join (sep : string) (l : list string) : string :=
  match l with
  | [] => EmptyString
  | [x] => x
  | x :: r => (x ++ sep ++ join sep r)%string
  end.

(** Lines 67-104 for one signal and one matching grid entry. *)
Definition make_trade (dates : list Z) (ticker_series : list Q) (sig : Signal.t)
           (signal_loc entry_lag hold_days : nat) : option Trade.t :=
  let entry_idx := (signal_loc + entry_lag)%nat in
  if (List.length ticker_series <=? entry_idx)%nat then None
  else
    let entry_date := nth entry_idx dates 0%Z in
    let exit_idx := (entry_idx + hold_days)%nat in
    let '(exit_date, ret) :=
      if (exit_idx <? List.length ticker_series)%nat
      then (Some (nth exit_idx dates 0%Z),
            Some ((nth exit_idx ticker_series 0 / nth entry_idx ticker_series 0 - 1)
                  * inject_Z (Signal.direction sig)))
      else (None, None) in
    Some {| Trade.group := Signal.group sig;
            Trade.ticker := Signal.ticker sig;
            Trade.direction := Signal.direction sig;
            Trade.signal_date := Signal.signal_date sig;
            Trade.entry_date := entry_date;
            Trade.exit_date := exit_date;
            Trade.entry_lag := entry_lag;
            Trade.hold_days := hold_days;
            Trade.lookback := Signal.lookback sig;
            Trade.group_thresh := Signal.group_thresh sig;
            Trade.participation := Signal.participation sig;
            Trade.lagger_max_move := Signal.lagger_max_move sig;
            Trade.ret := ret;
            Trade.leaders := join "," (Signal.leaders sig);
            Trade.is_open := negb (Pandas.notna exit_date);
            Trade.rule_id := None;
            Trade.rule_quality_score := None;
            Trade.avg_ret := None |}.

(** Lines 42-104 for one signal: the rows it contributes. *)
Definition trades_of_signal (series : Frame.t) (grid : list (ParamSet * nat * nat))
           (sig : Signal.t) : list Trade.t :=
  match Frame.column series (Signal.ticker sig) with
  | None => []
  | Some ticker_series =>
      match Frame.get_loc series (Signal.signal_date sig) with
      | None => []
      | Some signal_loc =>
          flat_map
            (fun g =>
               let '(ps, entry_lag, hold_days) := g in
               if params_eqb ps (params_of sig)
               then match make_trade (Frame.index series) ticker_series sig
                                     signal_loc entry_lag hold_days with
                    | Some tr => [tr]
                    | None => []
                    end
               else [])
            grid
      end
  end.

(** Lines 111-117: the left join on [RULE_KEY_COLS]. *)
Definition attach (scored : list RuleScoring.ScoredRule) (tr : Trade.t) : list Trade.t :=
  let with_rule := fun r : RuleScoring.ScoredRule =>
    {| Trade.group := Trade.group tr;
       Trade.ticker := Trade.ticker tr;
       Trade.direction := Trade.direction tr;
       Trade.signal_date := Trade.signal_date tr;
       Trade.entry_date := Trade.entry_date tr;
       Trade.exit_date := Trade.exit_date tr;
       Trade.entry_lag := Trade.entry_lag tr;
       Trade.hold_days := Trade.hold_days tr;
       Trade.lookback := Trade.lookback tr;
       Trade.group_thresh := Trade.group_thresh tr;
       Trade.participation := Trade.participation tr;
       Trade.lagger_max_move := Trade.lagger_max_move tr;
       Trade.ret := Trade.ret tr;
       Trade.leaders := Trade.leaders tr;
       Trade.is_open := Trade.is_open tr;
       Trade.rule_id := Some (RuleScoring.rule_id r);
       Trade.rule_quality_score := RuleScoring.rule_quality_score r;
       Trade.avg_ret := Trade.avg_ret tr |} in
  match filter (fun r => RuleKey.eqb (RuleKey.of_trade tr) (RuleScoring.key r)) scored with
  | [] => [tr]
  | m :: ms => map with_rule (m :: ms)
  end.

Definition backtest_signals (series : Frame.t) (signals : list Signal.t)
           (scored_rules : option (list RuleScoring.ScoredRule)) : list Trade.t :=
  let grid := adaptive_rule_grid signals in
  let df := flat_map (trades_of_signal series grid) signals in
  match scored_rules with
  | Some (r :: rs) => flat_map (attach (r :: rs)) df
  | _ => df
  end.

(** The rows one signal yields over the grid of entry lags and holds: every
combination whose entry index lies inside the series. *)
Definition rows_for (dates : list Z) (ticker_series : list Q) (sig : Signal.t)
           (signal_loc : nat) : list Trade.t :=
  flat_map (fun entry_lag =>
              flat_map (fun hold_days =>
                          match make_trade dates ticker_series sig signal_loc
                                           entry_lag hold_days with
                          | Some tr => [tr]
                          | None => []
                          end) holds) entry_lags.

(** The fields of a row that the join with the scored rules leaves alone. *)
Definition same_trade (a b : Trade.t) : Prop :=
  Trade.group a = Trade.group b /\ Trade.ticker a = Trade.ticker b
  /\ Trade.direction a = Trade.direction b /\ Trade.signal_date a = Trade.signal_date b
  /\ Trade.entry_date a = Trade.entry_date b /\ Trade.exit_date a = Trade.exit_date b
  /\ Trade.entry_lag a = Trade.entry_lag b /\ Trade.hold_days a = Trade.hold_days b
  /\ Trade.ret a = Trade.ret b /\ Trade.is_open a = Trade.is_open b.

End TradeGenerator.

(** ** reporting/sector_filters.py *)

Module SectorFilters.

(** Lines 31-44 for one day and one sector. *)
Definition sector_day_value (closed : list Trade.t) (day : Z) (sector : string) : Q :=
  let day_trades := filter (Trade.open_on day) closed in
  let sec_trades := filter (fun tr => String.eqb (Trade.group tr) sector) day_trades in
  match sec_trades with
  | [] => 0
  | _ :: _ =>
      let weight := 1 / inject_Z (Z.of_nat (List.length sec_trades)) in
      let exits := filter (Trade.exits_on day) sec_trades in
      match exits with
      | [] => 0
      | _ :: _ => Pandas.sum (map (fun tr => option_map (fun v => v * weight) (Trade.ret tr)) exits)
      end
  end.

(** The table has one row per business day and one cell per sector. *)
Definition _compute_sector_daily_returns (trades : list Trade.t)
  : list (Z * list (string * Q)) :=
  let closed := filter Trade.closed trades in
  match map Trade.entry_date closed, Pandas.dropna (map Trade.exit_date closed) with
  | d :: ds, e :: es =>
      let all_days := Pandas.date_range_B (Pandas.zmin d ds) (Pandas.zmax e es) in
      let sectors := RuleScoring.unique String.eqb (map Trade.group closed) in
      map (fun day => (day, map (fun sector => (sector, sector_day_value closed day sector))
                                sectors))
          all_days
  | _, _ => []
  end.

(** [SECTOR_STRICT_PARAMS], the six floors read from the configuration. *)
Record StrictParams : Type := mkParams {
  min_mean : Q;
  min_win_rate : Q;
  min_sharpe : Q;
  min_sortino : Q;
  min_stability : Q;
  min_max_dd : Q
}.

(** One row of the sector metrics table, with its stability score. *)
Record SectorMetrics : Type := mkMetrics {
  group : string;
  mean : Q;
  win_rate : Q;
  volatility : Q;
  sharpe : Q;
  sortino : Q;
  max_dd : Q;
  stability : Q
}.

(** A rejection line; each carries the value that is formatted into it. *)
Inductive Reason : Type :=
| MeanNotPositive (v : Q)
| WinRateBelow (v : Q)
| SharpeTooWeak (v : Q)
| SortinoTooWeak (v : Q)
| StabilityTooWeak (v : Q)
| DrawdownTooDeep (v : Q).

Definition Qltb := LagDetector.Qltb.

(** One [if] of lines 117-139. *)
Definition check (value floor : Q) (r : Reason) (acc : bool * list Reason)
  : bool * list Reason :=
  if Qltb value floor then (false, snd acc ++ [r]) else acc.

Definition _evaluate_sector_weighted_strict (p : StrictParams) (row : SectorMetrics)
  : bool * list Reason :=
  let acc := (true, []) in
  let acc := check (mean row) (min_mean p) (MeanNotPositive (mean row)) acc in
  let acc := check (win_rate row) (min_win_rate p) (WinRateBelow (win_rate row)) acc in
  let acc := check (sharpe row) (min_sharpe p) (SharpeTooWeak (sharpe row)) acc in
  let acc := check (sortino row) (min_sortino p) (SortinoTooWeak (sortino row)) acc in
  let acc := check (stability row) (min_stability p) (StabilityTooWeak (stability row)) acc in
  check (max_dd row) (min_max_dd p) (DrawdownTooDeep (max_dd row)) acc.

(** Lines 153-162 of [compute_investable_sectors]: the metrics table with
    its [is_investable] and [investable_reasons] columns. *)
Definition flag_sectors (p : StrictParams) (metrics : list SectorMetrics)
  : list (SectorMetrics * bool * list Reason) :=
  map (fun row => let '(ok, reasons) := _evaluate_sector_weighted_strict p row in
                  (row, ok, reasons)) metrics.

(** The sectors whose [is_investable] flag is set. *)
Definition investable_sectors (p : StrictParams) (metrics : list SectorMetrics)
  : list string :=
  map (fun r => group (fst (fst r))) (filter (fun r => snd (fst r)) (flag_sectors p metrics)).

(** The six criteria of the gate, the floor each one reads from the
configuration and the metric it tests. *)
Inductive Threshold : Type :=
| MinMean | MinWinRate | MinSharpe | MinSortino | MinStability | MinMaxDd.

Definition all_thresholds : list Threshold :=
  [MinMean; MinWinRate; MinSharpe; MinSortino; MinStability; MinMaxDd].

Definition floor_of (c : Threshold) (p : StrictParams) : Q :=
  match c with
  | MinMean => min_mean p
  | MinWinRate => min_win_rate p
  | MinSharpe => min_sharpe p
  | MinSortino => min_sortino p
  | MinStability => min_stability p
  | MinMaxDd => min_max_dd p
  end.

Definition metric_of (c : Threshold) (row : SectorMetrics) : Q :=
  match c with
  | MinMean => mean row
  | MinWinRate => win_rate row
  | MinSharpe => sharpe row
  | MinSortino => sortino row
  | MinStability => stability row
  | MinMaxDd => max_dd row
  end.

(** The configuration with one floor replaced and the other five kept. *)
Definition with_floor (c : Threshold) (v : Q) (p : StrictParams) : StrictParams :=
  {| min_mean := match c with MinMean => v | _ => min_mean p end;
     min_win_rate := match c with MinWinRate => v | _ => min_win_rate p end;
     min_sharpe := match c with MinSharpe => v | _ => min_sharpe p end;
     min_sortino := match c with MinSortino => v | _ => min_sortino p end;
     min_stability := match c with MinStability => v | _ => min_stability p end;
     min_max_dd := match c with MinMaxDd => v | _ => min_max_dd p end |}.

(** A criterion fails when the metric lies below its floor. *)
Definition fails (p : StrictParams) (row : SectorMetrics) (c : Threshold) : bool :=
  Qltb (metric_of c row) (floor_of c p).

End SectorFilters.

(** ** backtest/portfolio.py *)

Module Portfolio.

Definition MAX_CONCURRENT_TRADES : nat := 3.

(** A row together with its index label. *)
Definition Row : Type := (nat * Trade.t)%type.

(** [_daily_returns_from_trades]: value booked on one day of the range. *)
Definition daily_value (closed : list Row) (day : Z) : Q :=
  let open_trades := filter (fun r => Trade.open_on day (snd r)) closed in
  match open_trades with
  | [] => 0
  | _ :: _ =>
      let weight := 1 / inject_Z (Z.of_nat (length open_trades)) in
      let exiting := filter (fun r => Trade.exits_on day (snd r)) closed in
      match exiting with
      | [] => 0
      | _ :: _ =>
          Pandas.sum
            (map (fun r => option_map (fun v => v * weight) (Trade.ret (snd r))) exiting)
      end
  end.

Definition _daily_returns_from_trades (trades : list Row) : list (Z * Q) :=
  let closed := filter (fun r => Trade.closed (snd r)) trades in
  match map (fun r => Trade.entry_date (snd r)) closed,
        Pandas.dropna (map (fun r => Trade.exit_date (snd r)) closed) with
  | d :: ds, e :: es =>
      let start := Pandas.zmin d ds in
      let stop := Pandas.zmax e es in
      map (fun day => (day, daily_value closed day)) (Pandas.date_range_B start stop)
  | _, _ => []
  end.

(** State of the day loop of [_run_static_portfolio]. *)
Record SimState : Type := mkState {
  open_trades : list Row;
  used_trades : list Row
}.

(** Lines 118-124: trades whose exit lies before [day] leave the open set. *)
Definition release (day : Z) (st : SimState) : SimState :=
  let exited := fun tr : Row => Pandas.date_lt (Trade.exit_date (snd tr)) day in
  {| open_trades := filter (fun tr => negb (exited tr)) (open_trades st);
     used_trades := used_trades st ++ filter exited (open_trades st) |}.

(** Lines 127-131: priority order of the trades entering today.  A column
    that is absent from the table is a column of missing values here: both
    fail the test of line 128, and sorting by a column of missing values
    keeps the order.  pandas leaves the order of rows with equal scores
    open; here they keep the table order.  Nothing proved below depends on
    how ties fall. *)
Definition prioritise (todays : list Row) : list Row :=
  if existsb (fun tr => Pandas.notna (Trade.rule_quality_score (snd tr))) todays
  then Pandas.sort
         (fun a b => Pandas.desc_leb (Trade.rule_quality_score (snd a))
                                     (Trade.rule_quality_score (snd b))) todays
  else Pandas.sort
         (fun a b => Pandas.desc_leb (Trade.avg_ret (snd a)) (Trade.avg_ret (snd b))) todays.

(** Lines 134-135. *)
Definition take (opened : list Row) (tr : Row) : list Row :=
  if (length opened <? MAX_CONCURRENT_TRADES)%nat then opened ++ [tr] else opened.

(** One iteration of the loop of line 117. *)
Definition day_step (trades : list Row) (st : SimState) (day : Z) : SimState :=
  let st1 := release day st in
  let todays := filter (fun tr => (Trade.entry_date (snd tr) =? day)%Z) trades in
  {| open_trades := fold_left take (prioritise todays) (open_trades st1);
     used_trades := used_trades st1 |}.

Definition init_state : SimState := {| open_trades := []; used_trades := [] |}.

(** Line 107: [sort_values("entry_date").reset_index(drop=True)]; rows
    with the same entry date keep the table order. *)
Definition sorted_rows (trades : list Trade.t) : list Row :=
  let sorted := Pandas.sort (fun a b => (Trade.entry_date a <=? Trade.entry_date b)%Z) trades in
  combine (seq 0 (length sorted)) sorted.

(** Line 112, with [start] and [end] of lines 114-115; missing when the
    table has no row (the source raises [IndexError] there). *)
Definition date_bounds (trades : list Row) : option (Z * Z) :=
  match map (fun r => Trade.entry_date (snd r)) trades
        ++ Pandas.dropna (map (fun r => Trade.exit_date (snd r)) trades) with
  | [] => None
  | d :: ds => Some (Pandas.zmin d ds, Pandas.zmax d ds)
  end.

(** The business days the loop visits. *)
Definition sim_days (trades : list Row) : list Z :=
  match date_bounds trades with
  | Some (start, stop) => Pandas.date_range_B start stop
  | None => []
  end.

(** State after the first [n] days of the loop. *)
Definition state_after (trades : list Row) (n : nat) : SimState :=
  fold_left (day_step trades) (firstn n (sim_days trades)) init_state.

(** Lines 137-138: the terminal flush. *)
Definition flush (st : SimState) : list Row := used_trades st ++ open_trades st.

Record PortfolioResult : Type := mkResult {
  equity_curve : list (Z * Q);
  result_used_trades : list Row
}.

(** [_run_static_portfolio], without the scalar metrics dictionary. *)
Definition _run_static_portfolio (trades : list Trade.t) : option PortfolioResult :=
  let trades := sorted_rows trades in
  match date_bounds trades with
  | None => None
  | Some (start, stop) =>
      let st := fold_left (day_step trades) (Pandas.date_range_B start stop) init_state in
      match flush st with
      | [] => Some {| equity_curve := []; result_used_trades := [] |}
      | used =>
          let daily_ret := _daily_returns_from_trades used in
          Some {| equity_curve :=
                    combine (map fst daily_ret)
                            (Pandas.cumprod (map (fun p => 1 + snd p) daily_ret));
                  result_used_trades := used |}
      end
  end.

(** Invariants of the day loop.  Everything in the two ledgers is a row of
    the table and entered on one of the days already visited; and only
    trades with an exit date are released inside the loop. *)
Definition entered_on (trades : list Row) (days : list Z) (st : SimState) : Prop :=
  forall x, In x (open_trades st) \/ In x (used_trades st) ->
            In x trades /\ In (Trade.entry_date (snd x)) days.


End Portfolio.

(** ** Sample tables *)

Module Samples.

(** A trade row of sector [g] entering on [entry], with the given exit,
    return and rule quality score. *)
Definition trade (g : string) (entry : Z) (exit_ : option Z) (r score : option Q)
  : Trade.t :=
  {| Trade.group := g;
     Trade.ticker := "KMI";
     Trade.direction := 1;
     Trade.signal_date := entry;
     Trade.entry_date := entry;
     Trade.exit_date := exit_;
     Trade.entry_lag := 0;
     Trade.hold_days := 3;
     Trade.lookback := 10;
     Trade.group_thresh := 3 # 100;
     Trade.participation := 6 # 10;
     Trade.lagger_max_move := 1 # 100;
     Trade.ret := r;
     Trade.leaders := "LNG,WMB";
     Trade.is_open := negb (Pandas.notna exit_);
     Trade.rule_id := None;
     Trade.rule_quality_score := score;
     Trade.avg_ret := None |}.

(** Strict-mode floors and one sector row that passes all of them. *)
Definition strict : SectorFilters.StrictParams :=
  {| SectorFilters.min_mean := 0;
     SectorFilters.min_win_rate := 5 # 10;
     SectorFilters.min_sharpe := 1 # 10;
     SectorFilters.min_sortino := 1 # 10;
     SectorFilters.min_stability := 0;
     SectorFilters.min_max_dd := - (2 # 10) |}.

Definition telecom : SectorFilters.SectorMetrics :=
  {| SectorFilters.group := "TELECOM";
     SectorFilters.mean := 1 # 1000;
     SectorFilters.win_rate := 55 # 100;
     SectorFilters.volatility := 1 # 100;
     SectorFilters.sharpe := 1 # 10;
     SectorFilters.sortino := 2 # 10;
     SectorFilters.max_dd := - (1 # 10);
     SectorFilters.stability := 1 # 1000 |}.

(** Two rows of prices of three instruments: over a lookback of one day
    the window returns are 0.06, 0.05 and -0.004. *)
Definition midstream : Frame.t :=
  {| Frame.columns := ["LNG"; "WMB"; "KMI"]%string;
     Frame.index := [0; 1]%Z;
     Frame.rows := [ [100; 100; 100]; [106; 105; 996 # 10] ] |}.

(** A signal on the last date of [midstream] for its third instrument. *)
Definition late_signal : Signal.t :=
  {| Signal.group := "MIDSTREAM_1";
     Signal.ticker := "KMI";
     Signal.direction := 1;
     Signal.lookback := 1;
     Signal.group_thresh := 3 # 100;
     Signal.participation := 6 # 10;
     Signal.lagger_max_move := 1 # 100;
     Signal.signal_date := 1;
     Signal.start_date := 0;
     Signal.leaders := ["LNG"; "WMB"]%string;
     Signal.lagger_ret := - (4 # 1000);
     Signal.window_rets := [("LNG", 6 # 100); ("WMB", 5 # 100); ("KMI", - (4 # 1000))]%string |}.

(** The rendering of the floats of the sample rules, as Python prints them. *)
Definition float_repr (x : Q) : string :=
  if Qeq_bool x (3 # 100) then "0.03"
  else if Qeq_bool x (6 # 10) then "0.6"
  else if Qeq_bool x (1 # 100) then "0.01"
  else "0.0".

Definition sample_key : RuleKey.t :=
  {| RuleKey.lookback := 10;
     RuleKey.group_thresh := 3 # 100;
     RuleKey.participation := 6 # 10;
     RuleKey.lagger_max_move := 1 # 100;
     RuleKey.entry_lag := 0;
     RuleKey.hold_days := 3;
     RuleKey.group := "BANKING_1" |}.

(** Two trades of one rule: one closed with a gain of 10%, one still open. *)
Definition one_closed_one_open : list Trade.t :=
  [ trade "TELECOM" 0 (Some 3%Z) (Some (1 # 10)) None;
    trade "TELECOM" 1 None None None ].

(** One trade still open at the end of the price history. *)
Definition still_open : Trade.t := trade "MIDSTREAM_1" 0 None None (Some (12 # 100)).

(** Four trades entering on the same Monday, three of them without exit. *)
Definition crowded : list Trade.t :=
  [ trade "MIDSTREAM_1" 0 (Some 3%Z) (Some (2 # 100)) (Some (1 # 10));
    trade "MIDSTREAM_1" 0 None None (Some (4 # 10));
    trade "TELECOM" 0 None None (Some (3 # 10));
    trade "TELECOM" 0 None None (Some (2 # 10)) ].

(** Two trades of one sector overlapping on day 2, where the first exits. *)
Definition overlapping : list Trade.t :=
  [ trade "TELECOM" 0 (Some 2%Z) (Some (4 # 100)) (Some (1 # 10));
    trade "TELECOM" 1 (Some 3%Z) (Some (1 # 100)) (Some (1 # 10)) ].

End Samples.

(** ** Shapes the statements below refer to *)

(** The characters [0-9A-F]. *)
Definition is_upper_hex (c : ascii) : bool :=
  let n := nat_of_ascii c in
  ((48 <=? n) && (n <=? 57) || (65 <=? n) && (n <=? 70))%nat.

Fixpoint all_chars (p : ascii -> bool) (s : string) : bool :=
  match s with
  | EmptyString => true
  | String c r => p c && all_chars p r
  end.

(** A trade row without the two columns that the join with the scored rules
    fills in. *)
Definition strip_rule (tr : Trade.t) : Trade.t :=
  {| Trade.group := Trade.group tr;
     Trade.ticker := Trade.ticker tr;
     Trade.direction := Trade.direction tr;
     Trade.signal_date := Trade.signal_date tr;
     Trade.entry_date := Trade.entry_date tr;
     Trade.exit_date := Trade.exit_date tr;
     Trade.entry_lag := Trade.entry_lag tr;
     Trade.hold_days := Trade.hold_days tr;
     Trade.lookback := Trade.lookback tr;
     Trade.group_thresh := Trade.group_thresh tr;
     Trade.participation := Trade.participation tr;
     Trade.lagger_max_move := Trade.lagger_max_move tr;
     Trade.ret := Trade.ret tr;
     Trade.leaders := Trade.leaders tr;
     Trade.is_open := Trade.is_open tr;
     Trade.rule_id := None;
     Trade.rule_quality_score := None;
     Trade.avg_ret := Trade.avg_ret tr |}.

(** A signal whose instrument is a column of the price table and whose date
    is in its index. *)
Definition known_signal (series : Frame.t) (sig : Signal.t) : bool :=
  Pandas.notna (Frame.column series (Signal.ticker sig))
  && Pandas.notna (Frame.get_loc series (Signal.signal_date sig)).

(** The criterion a rejection line speaks of, and the value printed in it. *)
Definition criterion_of (r : SectorFilters.Reason) : SectorFilters.Threshold :=
  match r with
  | SectorFilters.MeanNotPositive _ => SectorFilters.MinMean
  | SectorFilters.WinRateBelow _ => SectorFilters.MinWinRate
  | SectorFilters.SharpeTooWeak _ => SectorFilters.MinSharpe
  | SectorFilters.SortinoTooWeak _ => SectorFilters.MinSortino
  | SectorFilters.StabilityTooWeak _ => SectorFilters.MinStability
  | SectorFilters.DrawdownTooDeep _ => SectorFilters.MinMaxDd
  end.

Definition reason_value (r : SectorFilters.Reason) : Q :=
  match r with
  | SectorFilters.MeanNotPositive v | SectorFilters.WinRateBelow v
  | SectorFilters.SharpeTooWeak v | SectorFilters.SortinoTooWeak v
  | SectorFilters.StabilityTooWeak v | SectorFilters.DrawdownTooDeep v => v
  end.

(** The column by which line 128-131 of [_run_static_portfolio] orders the
    trades entering on one day: [rule_quality_score] when at least one of
    them has a score, [avg_ret] otherwise. *)
Definition priority_of (todays : list Portfolio.Row) (tr : Portfolio.Row) : option Q :=
  if existsb (fun x => Pandas.notna (Trade.rule_quality_score (snd x))) todays
  then Trade.rule_quality_score (snd tr)
  else Trade.avg_ret (snd tr).

(** Lines 168-174 of [_run_static_portfolio]: for every day of the equity
    curve the number of ledger rows with [entry_date <= d <= exit_date],
    and their mean, the metric [avg_concurrent_trades]. *)
Definition open_counts (res : Portfolio.PortfolioResult) : list nat :=
  map (fun d => length (filter (fun r => Trade.open_on d (snd r))
                               (Portfolio.result_used_trades res)))
      (map fst (Portfolio.equity_curve res)).

Definition avg_concurrent (res : Portfolio.PortfolioResult) : Q :=
  match open_counts res with
  | [] => 0
  | c :: cs =>
      Pandas.total (map (fun k => inject_Z (Z.of_nat k)) (c :: cs))
      / inject_Z (Z.of_nat (length (c :: cs)))
  end.

(** ** backtest/adaptive_grid.py *)

Module AdaptiveGrid.

Record Params : Type := mkParams {
  lookback : nat;
  group_thresh : Q;
  participation : Q;
  lagger_max_move : Q;
  entry_lag : nat;
  hold : nat
}.

(** [x > c] on a statistic that may be [NaN]: false on [NaN]. *)
Definition exceeds (x : option Q) (c : Q) : bool :=
  match x with
  | Some v => negb (Qle_bool v c)
  | None => false
  end.

(** Lines 48-56. *)
Definition lookbacks (vol : option Q) : list nat :=
  if exceeds vol (3 # 100) then [2; 3]%nat
  else if exceeds vol (2 # 100) then [3; 5]%nat
  else [5; 10]%nat.

Definition holds (vol : option Q) : list nat :=
  if exceeds vol (3 # 100) then [3; 5]%nat
  else if exceeds vol (2 # 100) then [3; 5; 7]%nat
  else [5; 7; 10]%nat.

(** Lines 59-64. *)
Definition group_thresh_vals (cs_disp : option Q) : list Q :=
  if exceeds cs_disp (25 # 1000) then [3 # 100; 5 # 100]
  else if exceeds cs_disp (15 # 1000) then [2 # 100; 3 # 100]
  else [15 # 1000; 2 # 100].

(** Lines 67-70. *)
Definition participation_vals (cs_disp : option Q) : list Q :=
  if exceeds cs_disp (2 # 100) then [6 # 10; 7 # 10] else [5 # 10; 6 # 10].

(** Python's [min(a, b)]: [b] when [b < a], else [a]. *)
Definition py_min (a b : Q) : Q := if negb (Qle_bool a b) then b else a.

(** Line 74. *)
Definition lagger_max_vals (cs_disp : option Q) : list Q :=
  map (fun gt => py_min (gt * (75 # 100)) (4 # 100)) (group_thresh_vals cs_disp).

Definition entry_lags : list nat := [0; 1]%nat.

(** Lines 78-94: the six nested loops. *)
Definition params_list (vol cs_disp : option Q) : list Params :=
  flat_map (fun lb =>
    flat_map (fun gt =>
      flat_map (fun part =>
        flat_map (fun lag =>
          flat_map (fun elag =>
            map (fun hold_ => mkParams lb gt part lag elag hold_) (holds vol))
            entry_lags)
          (lagger_max_vals cs_disp))
        (participation_vals cs_disp))
      (group_thresh_vals cs_disp))
    (lookbacks vol).

(** [series[tickers]] for labels of the table (both callers filter the
    labels first, line 34 here and line 160 of the detector); column labels
    are taken to be distinct. *)
Definition select (series : Frame.t) (tickers : list string) : Frame.t :=
  {| Frame.columns := tickers;
     Frame.index := Frame.index series;
     Frame.rows :=
       map (fun row =>
              map (fun t => match Frame.position String.eqb t (Frame.columns series) with
                            | Some j => nth j row 0
                            | None => 0
                            end) tickers)
           (Frame.rows series) |}.

(** [[t for t in tickers if t in series.columns]] *)
Definition known_tickers (series : Frame.t) (tickers : list string) : list string :=
  filter (fun t => existsb (String.eqb t) (Frame.columns series)) tickers.

(** A Python dict with string keys, in insertion order: [d[k] = v] and
    [d.get(k, [])]. *)
Fixpoint dict_set {V : Type} (k : string) (v : V) (d : list (string * V)) : list (string * V) :=
  match d with
  | [] => [(k, v)]
  | (k', v') :: r => if String.eqb k k' then (k, v) :: r else (k', v') :: dict_set k v r
  end.

Fixpoint dict_get {V : Type} (d : list (string * list V)) (k : string) : list V :=
  match d with
  | [] => []
  | (k', v) :: r => if String.eqb k k' then v else dict_get r k
  end.

Section Grid.
(** Lines 38-45: the sector fingerprint [(vol, cs_disp)] of a table of
    prices, means of standard deviations of its daily changes; missing
    when the table of changes is empty, and each statistic may be [NaN]. *)
Variable fingerprint : Frame.t -> option (option Q * option Q).

(** One turn of the loop of line 33. *)
Definition add_sector (series : Frame.t) (grid : list (string * list Params))
           (entry : string * list string) : list (string * list Params) :=
  match known_tickers series (snd entry) with
  | [] => grid
  | t :: ts =>
      match fingerprint (select series (t :: ts)) with
      | None => grid
      | Some (vol, cs_disp) => dict_set (fst entry) (params_list vol cs_disp) grid
      end
  end.

Definition build_sector_param_grid (series : Frame.t) (universe : list (string * list string))
  : list (string * list Params) :=
  fold_left (add_sector series) universe [].
End Grid.

End AdaptiveGrid.

(** ** signals/lag_detector.py, the scan over all sectors *)

Module LagScan.

Section Scan.
Variable fingerprint : Frame.t -> option (option Q * option Q).

(** Lines 159-185 for one sector: one scan per entry of the sector's
    parameter list. *)
Definition sector_scans (series : Frame.t) (grid : list (string * list AdaptiveGrid.Params))
           (entry : string * list string) : list (option (list Signal.t)) :=
  match AdaptiveGrid.known_tickers series (snd entry) with
  | [] => []
  | t :: ts =>
      let group_series := AdaptiveGrid.select series (t :: ts) in
      map (fun params =>
             LagDetector._detect_lag_signals_for_group (fst entry)
               (AdaptiveGrid.lookback params) (AdaptiveGrid.group_thresh params)
               (AdaptiveGrid.participation params) (AdaptiveGrid.lagger_max_move params)
               "both" group_series)
          (AdaptiveGrid.dict_get grid (fst entry))
  end.

(** [detect_lag_signals]; missing when a scan raises. *)
Definition detect_lag_signals (series : Frame.t) (universe : list (string * list string))
  : option (list Signal.t) :=
  let sector_param_grid := AdaptiveGrid.build_sector_param_grid fingerprint series universe in
  LagDetector.collect (flat_map (sector_scans series sector_param_grid) universe).
End Scan.

End LagScan.

(** Three days of prices of three instruments: over a lookback of two
    days the window returns are 0.06, 0.05 and -0.004. *)
Module SampleScan.
Definition prices : Frame.t :=
  {| Frame.columns := ["LNG"; "WMB"; "KMI"]%string;
     Frame.index := [0; 1; 2]%Z;
     Frame.rows := [ [100; 100; 100]; [103; 102; 100]; [106; 105; 996 # 10] ] |}.

Definition universe : list (string * list string) :=
  [ ("MIDSTREAM_1", ["LNG"; "WMB"; "KMI"; "OKE"]); ("TELECOM", ["T"; "VZ"]) ]%string.

(** A volatile sector with wide dispersion. *)
Definition fingerprint (f : Frame.t) : option (option Q * option Q) :=
  Some (Some (4 # 100), Some (3 # 100)).
End SampleScan.

(** What a sector's list in the grid can be: absent, or the list of some
    fingerprint. *)
Definition grid_list (l : list AdaptiveGrid.Params) : Prop :=
  l = [] \/ exists vol cs_disp, l = AdaptiveGrid.params_list vol cs_disp.


(** ** backtest/portfolio.py, the drawdown *)

(** [Series.cummax()]. *)
Fixpoint cummax_from (peak : Q) (xs : list Q) : list Q :=
  match xs with
  | [] => []
  | x :: r => Qmax peak x :: cummax_from (Qmax peak x) r
  end.

Definition cummax (xs : list Q) : list Q :=
  match xs with
  | [] => []
  | x :: r => x :: cummax_from x r
  end.

(** [compute_max_drawdown]; the same three lines close
    [_compute_sector_metrics] (sector_filters.py, lines 69-72).  Missing
    ([NaN]) on an empty curve. *)
Definition compute_max_drawdown (equity : list Q) : option Q :=
  let peak := cummax equity in
  let dd := map (fun ep => (fst ep - snd ep) / snd ep) (combine equity peak) in
  Pandas.min (map Some dd).

(** ** reporting/sector_filters.py, the stability score *)

Module Stability.

(** [daily[sector]]: the column of a sector, one value per date.  The
    cells of the table hold numbers, so [dropna] removes nothing. *)
Definition sector_series (daily : list (Z * list (string * Q))) (sector : string)
  : list (Z * Q) :=
  map (fun row =>
         (fst row,
          match find (fun c => String.eqb (fst c) sector) (snd row) with
          | Some c => snd c
          | None => 0
          end))
      daily.

(** [series.index.max()], on a series with at least one date. *)
Definition last_date (series : list (Z * Q)) : Z :=
  match map fst series with
  | [] => 0%Z
  | d :: ds => Pandas.zmax d ds
  end.

(** Lines 101-103: mean of the values dated in [(start, stop]], zero when
    there is none. *)
Definition avg_between (series : list (Z * Q)) (start stop : Z) : Q :=
  match filter (fun p => (start <? fst p)%Z && (fst p <=? stop)%Z) series with
  | [] => 0
  | v :: r =>
      Pandas.total (map snd (v :: r)) / inject_Z (Z.of_nat (length (v :: r)))
  end.

(** [_compute_stability_score]; the columns of the table are the labels of
    its rows, which are the same in every row. *)
Definition _compute_stability_score (daily : list (Z * list (string * Q))) (sector : string)
  : Q :=
  match daily with
  | [] => 0
  | row :: _ =>
      if negb (existsb (fun c => String.eqb (fst c) sector) (snd row)) then 0
      else
        let series := sector_series daily sector in
        let last := last_date series in
        let last_30 := (last - 30)%Z in
        let prev_30 := (last - 60)%Z in
        let prev_90 := (last - 150)%Z in
        let s_last_30 := avg_between series last_30 last in
        let s_prev_30 := avg_between series prev_30 last_30 in
        let s_prev_90 := avg_between series prev_90 prev_30 in
        (5 # 10) * s_last_30 + (3 # 10) * s_prev_30 + (2 # 10) * s_prev_90
  end.

End Stability.

Module SampleDaily.
(** Seven months of Mondays for one sector: a loss long ago, small gains
    since. *)
Definition daily : list (Z * list (string * Q)) :=
  [ (0%Z, [("TELECOM"%string, - (5 # 100))]);
    (70%Z, [("TELECOM"%string, 1 # 100)]);
    (140%Z, [("TELECOM"%string, 2 # 100)]);
    (175%Z, [("TELECOM"%string, 0)]);
    (210%Z, [("TELECOM"%string, 1 # 100)]) ].
End SampleDaily.

(** ** reporting/rule_stability.py *)

Module RuleStability.

Record Row : Type := mkRow {
  key : RuleKey.t;
  n_trades : nat;
  avg_ret_full : option Q;
  win_rate : Q;
  max_dd : option Q;
  avg_ret_prev_90d : option Q;
  avg_ret_prev_30d : option Q;
  rule_id : option string;
  rule_quality_score : option Q;
  is_investable : bool
}.

(** [exit_date >= bound], false on [NaT]. *)
Definition exit_ge (bound : Z) (tr : Trade.t) : bool :=
  match Trade.exit_date tr with
  | Some e => (bound <=? e)%Z
  | None => false
  end.

(** Lines 30-32: the closed trades that left in the last [days] days
    before the last exit. *)
Definition recent (days : Z) (df : list Trade.t) : list Trade.t :=
  match Pandas.dropna (map Trade.exit_date df) with
  | [] => []
  | e :: es => filter (exit_ge (Pandas.zmax e es - days)) df
  end.

(** Lines 34-47: the mean return of a rule in a window, as the left join
    leaves it: missing when the rule has no trade in the window. *)
Definition window_mean (window : list Trade.t) (k : RuleKey.t) : option Q :=
  match filter (fun tr => RuleKey.eqb (RuleKey.of_trade tr) k) window with
  | [] => None
  | t :: ts => Pandas.mean (map Trade.ret (t :: ts))
  end.

(** Lines 17-27 and 46-60 for one rule of the closed trades. *)
Definition stability_rows (df : list Trade.t) (scores_df : list RuleScoring.ScoredRule)
           (g : RuleKey.t * list Trade.t) : list Row :=
  let rets := map Trade.ret (snd g) in
  let row := fun (rid : option string) (score : option Q) =>
    {| key := fst g;
       n_trades := length (Pandas.dropna rets);
       avg_ret_full := Pandas.mean rets;
       win_rate := RuleScoring.frac_positive rets;
       max_dd := Pandas.min rets;
       avg_ret_prev_90d := window_mean (recent 90 df) (fst g);
       avg_ret_prev_30d := window_mean (recent 30 df) (fst g);
       rule_id := rid;
       rule_quality_score := score;
       is_investable := Pandas.gt_zero score |} in
  match filter (fun r => RuleKey.eqb (fst g) (RuleScoring.key r)) scores_df with
  | [] => [row None None]
  | m :: ms =>
      map (fun r => row (Some (RuleScoring.rule_id r)) (RuleScoring.rule_quality_score r))
          (m :: ms)
  end.

Definition compute_rule_stability (trades_df : list Trade.t)
           (scores_df : list RuleScoring.ScoredRule) : list Row :=
  match trades_df, scores_df with
  | [], _ | _, [] => []
  | _, _ =>
      let df := filter Trade.closed trades_df in
      flat_map (stability_rows df scores_df) (RuleScoring.groupby df)
  end.

End RuleStability.

(** ** backtest/portfolio.py, the entry point *)




(** ** reporting/portfolio_trade_table.py *)

Module TradeTable.

(** [equity_curve.loc[d]]; missing stands for [KeyError]. *)
Fixpoint loc (equity : list (Z * Q)) (d : Z) : option Q :=
  match equity with
  | [] => None
  | (d', v) :: r => if (d' =? d)%Z then Some v else loc r d
  end.

(** Lines 30-37 for one row: nothing for an open trade, the change of the
    equity since its first value, in percent, for a closed one. *)
Definition cell (equity : list (Z * Q)) (first_equity : Q) (r : Portfolio.Row)
  : option (option Q) :=
  match Trade.exit_date (snd r) with
  | None => Some None
  | Some e => option_map (fun v => Some ((v - first_equity) / first_equity * 100))
                         (loc equity e)
  end.

Fixpoint all_present {A : Type} (l : list (option A)) : option (list A) :=
  match l with
  | [] => Some []
  | None :: _ => None
  | Some x :: r => option_map (cons x) (all_present r)
  end.

(** Lines 16-37 of [print_portfolio_trade_table]: the column
    [portfolio_change_pct]; missing when line 29 raises [IndexError] on an
    empty curve or line 35 raises [KeyError] on an exit date that the
    curve does not have. *)
Definition portfolio_change_pct (used_trades : list Portfolio.Row)
           (equity_curve : list (Z * Q)) : option (list (option Q)) :=
  match used_trades with
  | [] => Some []
  | _ :: _ =>
      match equity_curve with
      | [] => None
      | (_, first_equity) :: _ =>
          all_present (map (cell equity_curve first_equity) used_trades)
      end
  end.

End TradeTable.

(** A price table of two instruments only. *)
Module SamplePair.
Definition prices : Frame.t :=
  {| Frame.columns := ["BX"; "KKR"]%string;
     Frame.index := [0; 1; 2]%Z;
     Frame.rows := [ [100; 100]; [104; 105]; [110; 100] ] |}.
End SamplePair.

(** ** signals/lag_detector.py, the normalised series *)

Module Normalise.

(** The price table of the loader: the same instruments under every
    field, one row of values per date and field. *)
Record OHLCV : Type := mkOHLCV {
  tickers : list string;
  index : list Z;
  open_ : list (list Q);
  high : list (list Q);
  low : list (list Q);
  close : list (list Q);
  volume : list (list Q)
}.

(** Cell by cell operations on two tables of the same shape. *)
Definition zip_rows (f : Q -> Q -> Q) (a b : list (list Q)) : list (list Q) :=
  map (fun rr => map (fun xy => f (fst xy) (snd xy)) (combine (fst rr) (snd rr)))
      (combine a b).

(** Lines 31-52: the series of a mode; missing stands for [ValueError]. *)
Definition raw_series (ohlcv : OHLCV) (mode : string) : option (list (list Q)) :=
  if String.eqb mode "High" then Some (high ohlcv)
  else if String.eqb mode "Low" then Some (low ohlcv)
  else if String.eqb mode "Close" then Some (close ohlcv)
  else if String.eqb mode "HL2" then
    Some (map (map (fun x => x / 2)) (zip_rows Qplus (high ohlcv) (low ohlcv)))
  else if String.eqb mode "HLC3" then
    Some (map (map (fun x => x / 3))
              (zip_rows Qplus (zip_rows Qplus (high ohlcv) (low ohlcv)) (close ohlcv)))
  else None.

(** Line 55: [series / series.iloc[0] * 100.0]; missing stands for the
    [IndexError] of [iloc[0]] on a table without rows.  Prices are numbers
    and a first price of zero, where numpy yields an infinity or a [NaN],
    is outside the model. *)
Definition normalise (rows : list (list Q)) : option (list (list Q)) :=
  match rows with
  | [] => None
  | first :: _ =>
      Some (map (fun row => map (fun vf => fst vf / snd vf * 100) (combine row first)) rows)
  end.

Definition prepare_normalized_series (ohlcv : OHLCV) (mode : string) : option Frame.t :=
  match raw_series ohlcv mode with
  | None => None
  | Some rows =>
      option_map (fun normalised =>
                    {| Frame.columns := tickers ohlcv;
                       Frame.index := index ohlcv;
                       Frame.rows := normalised |})
                 (normalise rows)
  end.

(** The cell of row [i] and column [j]. *)
Definition cell (rows : list (list Q)) (i j : nat) : option Q :=
  match nth_error rows i with
  | Some row => nth_error row j
  | None => None
  end.

End Normalise.

(** ** backtest/best_rules_selector.py *)

Module BestRules.

Definition group (r : RuleStability.Row) : string := RuleKey.group (RuleStability.key r).

(** Descending order of a float column with [NaN] last, as a comparison. *)
Definition desc_cmp (a b : option Q) : comparison :=
  match a, b with
  | Some x, Some y => Qcompare y x
  | Some _, None => Lt
  | None, Some _ => Gt
  | None, None => Eq
  end.

(** Lines 45-48: [sort_values(by=["group", "rule_quality_score",
    "avg_ret_prev_90d"], ascending=[True, False, False])]. *)
Definition compare (a b : RuleStability.Row) : comparison :=
  RuleKey.cmp_then (String.compare (group a) (group b))
  (RuleKey.cmp_then
     (desc_cmp (RuleStability.rule_quality_score a) (RuleStability.rule_quality_score b))
     (desc_cmp (RuleStability.avg_ret_prev_90d a) (RuleStability.avg_ret_prev_90d b))).

Definition leb (a b : RuleStability.Row) : bool :=
  match compare a b with Gt => false | _ => true end.

(** Lines 51-55: [groupby("group").head(n)], the first [n] rows of every
    group in the order of the table; [seen] lists the groups of the rows
    already passed. *)
Fixpoint take_heads (n : nat) (seen : list string) (rows : list RuleStability.Row)
  : list RuleStability.Row :=
  match rows with
  | [] => []
  | r :: rest =>
      if (count_occ string_dec seen (group r) <? n)%nat
      then r :: take_heads n (group r :: seen) rest
      else take_heads n (group r :: seen) rest
  end.

(** [select_best_rules_per_sector]; an empty table stands for the empty
    frames of lines 23, 34 and 40. *)
Definition select_best_rules_per_sector (rule_stability_df : list RuleStability.Row)
           (sector_investability_df : list SectorFilters.SectorMetrics)
           (top_rules_per_sector : nat) : list RuleStability.Row :=
  match rule_stability_df, sector_investability_df with
  | [], _ | _, [] => []
  | _, _ =>
      let investable_sectors := map SectorFilters.group sector_investability_df in
      let df := filter (fun r => existsb (String.eqb (group r)) investable_sectors)
                       rule_stability_df in
      let df := filter (fun r => Pandas.notna (RuleStability.rule_quality_score r)) df in
      take_heads top_rules_per_sector [] (Pandas.sort leb df)
  end.

End BestRules.

(** A comparison that orders its domain: antisymmetric, and transitive
    through [Lt] and [Eq]. *)
Definition order_like {A : Type} (c : A -> A -> comparison) : Prop :=
  (forall a b, c b a = CompOpp (c a b))
  /\ (forall a b d, c a b = Lt -> c b d = Lt -> c a d = Lt)
  /\ (forall a b d, c a b = Eq -> c b d = Eq -> c a d = Eq)
  /\ (forall a b d, c a b = Lt -> c b d = Eq -> c a d = Lt)
  /\ (forall a b d, c a b = Eq -> c b d = Lt -> c a d = Lt).

Module SampleRules.
Definition rule (g : string) (hold : nat) (score : option Q) : RuleStability.Row :=
  {| RuleStability.key :=
       {| RuleKey.lookback := 10; RuleKey.group_thresh := 3 # 100;
          RuleKey.participation := 6 # 10; RuleKey.lagger_max_move := 1 # 100;
          RuleKey.entry_lag := 0; RuleKey.hold_days := hold; RuleKey.group := g |};
     RuleStability.n_trades := 10;
     RuleStability.avg_ret_full := Some (1 # 100);
     RuleStability.win_rate := 6 # 10;
     RuleStability.max_dd := Some (- (2 # 100));
     RuleStability.avg_ret_prev_90d := None;
     RuleStability.avg_ret_prev_30d := None;
     RuleStability.rule_id := None;
     RuleStability.rule_quality_score := score;
     RuleStability.is_investable := Pandas.gt_zero score |}.

Definition rules : list RuleStability.Row :=
  [ rule "TELECOM" 3 (Some (2 # 10)); rule "TELECOM" 5 (Some (5 # 10));
    rule "TELECOM" 7 (Some (3 # 10)); rule "BANKING_1" 3 (Some (1 # 10));
    rule "TELECOM" 10 None ].
End SampleRules.

(** ** main.py, from the stability table to the portfolio *)

Module Engine.

(** A frame is either the column-less [pd.DataFrame()], here missing, or a
    table with its columns and any number of rows. *)







Section Tail.
(** [_compute_sector_metrics] with the stability column, on a daily table
    that has rows (sector_filters.py, lines 53-84 and 151): its volatility
    columns are roots of variances and are not computed here. *)
Variable sector_metrics : list (Z * list (string * Q)) -> list SectorFilters.SectorMetrics.


End Tail.

End Engine.

(** * Verification *)

Unset Implicit Arguments.

(** Test vectors of the digest. *)
Example sha1_abc : Sha1.hexdigest "abc" = "a9993e364706816aba3e25717850c26c9cd0d89d"%string.
Proof. vm_compute. reflexivity. Qed.
Example sha1_empty : Sha1.hexdigest "" = "da39a3ee5e6b4b0d3255bfef95601890afd80709"%string.
Proof. vm_compute. reflexivity. Qed.

(** ** Sorting and date ranges *)

Section SortFacts.
Variable A : Type.
Variable leb : A -> A -> bool.

Lemma insert_perm (x : A) (l : list A) : Permutation (Pandas.insert leb x l) (x :: l).
Proof.
  induction l as [|y r IH]; simpl; [reflexivity|].
  destruct (leb x y); [reflexivity|].
  rewrite IH. apply perm_swap.
Qed.

Lemma sort_perm (l : list A) : Permutation (Pandas.sort leb l) l.
Proof.
  induction l as [|x r IH]; simpl; [reflexivity|].
  unfold Pandas.sort in *. simpl. rewrite insert_perm. now constructor.
Qed.

Lemma sort_In (l : list A) (x : A) : In x (Pandas.sort leb l) <-> In x l.
Proof.
  split; apply Permutation_in; [apply sort_perm | symmetry; apply sort_perm].
Qed.
End SortFacts.

Lemma offsets_sorted (start : Z) (n k : nat) :
  StronglySorted Z.lt (map (fun i => (start + Z.of_nat i)%Z) (seq k n)).
Proof.
  revert k. induction n as [|n IH]; intros k; simpl; constructor; [apply IH|].
  apply Forall_forall. intros d Hd. apply in_map_iff in Hd as (i & <- & Hi).
  apply in_seq in Hi. lia.
Qed.

Lemma filter_sorted (f : Z -> bool) (l : list Z) :
  StronglySorted Z.lt l -> StronglySorted Z.lt (filter f l).
Proof.
  induction 1 as [|x l Hs IH Hall]; simpl; [constructor|].
  destruct (f x); [|exact IH]. constructor; [exact IH|].
  apply Forall_forall. intros y Hy. apply filter_In in Hy as [Hy _].
  rewrite Forall_forall in Hall. now apply Hall.
Qed.

Lemma date_range_B_sorted (start stop : Z) :
  StronglySorted Z.lt (Pandas.date_range_B start stop).
Proof. apply filter_sorted, offsets_sorted. Qed.

Lemma sorted_NoDup (l : list Z) : StronglySorted Z.lt l -> NoDup l.
Proof.
  induction 1 as [|x l Hs IH Hall]; constructor; [|exact IH].
  intros Hin. rewrite Forall_forall in Hall. specialize (Hall x Hin). lia.
Qed.

Lemma date_range_B_In (start stop d : Z) :
  In d (Pandas.date_range_B start stop) <->
  (start <= d <= stop)%Z /\ Pandas.is_business_day d = true.
Proof.
  unfold Pandas.date_range_B. rewrite filter_In, in_map_iff. split.
  - intros [(k & <- & Hk) Hb]. apply in_seq in Hk. split; [lia|exact Hb].
  - intros [Hr Hb]. split; [|exact Hb].
    exists (Z.to_nat (d - start)). split; [lia|]. apply in_seq. lia.
Qed.

(** ** The day loop of the portfolio replay *)

Section DayLoop.
Import Portfolio.
Variable trades : list Row.

Lemma take_length (opened : list Row) (tr : Row) :
  (length opened <= MAX_CONCURRENT_TRADES)%nat ->
  (length (take opened tr) <= MAX_CONCURRENT_TRADES)%nat.
Proof.
  intros H. unfold take. destruct (Nat.ltb_spec (length opened) MAX_CONCURRENT_TRADES).
  - rewrite length_app. simpl. lia.
  - exact H.
Qed.

Lemma take_all_length (todays opened : list Row) :
  (length opened <= MAX_CONCURRENT_TRADES)%nat ->
  (length (fold_left take todays opened) <= MAX_CONCURRENT_TRADES)%nat.
Proof.
  revert opened. induction todays as [|t r IH]; intros opened H; simpl; [exact H|].
  apply IH, take_length, H.
Qed.

Lemma take_all_In (todays opened : list Row) (x : Row) :
  In x (fold_left take todays opened) -> In x opened \/ In x todays.
Proof.
  revert opened. induction todays as [|t r IH]; intros opened H; simpl in *; [now left|].
  apply IH in H as [H|H]; [|now right; right].
  unfold take in H. destruct (length opened <? MAX_CONCURRENT_TRADES)%nat; [|now left].
  apply in_app_or in H as [H|[H|[]]]; [now left|now right; left].
Qed.

Lemma take_all_keeps (todays opened : list Row) (x : Row) :
  In x opened -> In x (fold_left take todays opened).
Proof.
  revert opened. induction todays as [|t r IH]; intros opened H; simpl; [exact H|].
  apply IH. unfold take. destruct (length opened <? MAX_CONCURRENT_TRADES)%nat; [|exact H].
  apply in_or_app. now left.
Qed.

Lemma prioritise_In (todays : list Row) (x : Row) :
  In x (prioritise todays) <-> In x todays.
Proof. unfold prioritise. destruct (existsb _ _); apply sort_In. Qed.

Lemma run_length (days : list Z) (st : SimState) :
  (length (open_trades st) <= MAX_CONCURRENT_TRADES)%nat ->
  (length (open_trades (fold_left (day_step trades) days st)) <= MAX_CONCURRENT_TRADES)%nat.
Proof.
  revert st. induction days as [|d r IH]; intros st H; simpl; [exact H|].
  apply IH. unfold day_step. cbn [open_trades]. apply take_all_length.
  unfold release. cbn [open_trades]. etransitivity; [apply filter_length_le|exact H].
Qed.

Lemma day_step_entered (days : list Z) (st : SimState) (d : Z) :
  entered_on trades days st -> entered_on trades (days ++ [d]) (day_step trades st d).
Proof.
  intros H x Hx. unfold day_step, release in Hx. cbn [open_trades used_trades] in Hx.
  assert (Hold : In x (open_trades st) \/ In x (used_trades st) ->
                 In x trades /\ In (Trade.entry_date (snd x)) (days ++ [d])).
  { intros Hin. destruct (H x Hin) as [H1 H2]. split; [exact H1|]. apply in_or_app. now left. }
  destruct Hx as [Hx|Hx].
  - apply take_all_In in Hx as [Hx|Hx].
    + apply filter_In in Hx as [Hx _]. apply Hold. now left.
    + apply prioritise_In, filter_In in Hx as [Hx Hd]. split; [exact Hx|].
      apply Z.eqb_eq in Hd. apply in_or_app. right. now left.
  - apply in_app_or in Hx as [Hx|Hx]; [apply Hold; now right|].
    apply filter_In in Hx as [Hx _]. apply Hold. now left.
Qed.

Lemma run_entered (days0 days : list Z) (st : SimState) :
  entered_on trades days0 st ->
  entered_on trades (days0 ++ days) (fold_left (day_step trades) days st).
Proof.
  revert days0 st. induction days as [|d r IH]; intros days0 st H; simpl.
  - now rewrite app_nil_r.
  - replace (days0 ++ d :: r) with ((days0 ++ [d]) ++ r) by now rewrite <- app_assoc.
    apply IH, day_step_entered, H.
Qed.

(** A row stays out of both ledgers on every day other than its entry day. *)
Lemma run_stays_out (days : list Z) (st : SimState) (x : Row) :
  ~ In (Trade.entry_date (snd x)) days ->
  ~ In x (open_trades st) -> ~ In x (used_trades st) ->
  ~ In x (open_trades (fold_left (day_step trades) days st))
  /\ ~ In x (used_trades (fold_left (day_step trades) days st)).
Proof.
  revert st. induction days as [|d r IH]; intros st Hd Ho Hu; simpl; [now split|].
  apply IH.
  - intros Hin. apply Hd. now right.
  - unfold day_step, release. cbn [open_trades]. intros Hin.
    apply take_all_In in Hin as [Hin|Hin].
    + apply filter_In in Hin as [Hin _]. now apply Ho.
    + apply prioritise_In, filter_In in Hin as [_ Hin]. apply Z.eqb_eq in Hin.
      apply Hd. now left.
  - unfold day_step, release. cbn [used_trades]. intros Hin.
    apply in_app_or in Hin as [Hin|Hin]; [now apply Hu|].
    apply filter_In in Hin as [Hin _]. now apply Ho.
Qed.


End DayLoop.

Lemma firstn_plus {A : Type} (a b : nat) (l : list A) :
  firstn (a + b) l = firstn a l ++ firstn b (skipn a l).
Proof.
  revert l. induction a as [|a IH]; intros l; simpl; [reflexivity|].
  destruct l as [|x r]; simpl; [now rewrite firstn_nil|]. now rewrite IH.
Qed.

Lemma nth_error_split {A : Type} (l : list A) (n : nat) (x : A) :
  nth_error l n = Some x -> l = firstn n l ++ x :: skipn (S n) l.
Proof.
  revert l. induction n as [|n IH]; intros [|y r] H; simpl in *; try discriminate.
  - now inversion H.
  - f_equal. now apply IH.
Qed.

Lemma firstn_one_skipn {A : Type} (l : list A) (n : nat) (x : A) :
  nth_error l n = Some x -> firstn 1 (skipn n l) = [x].
Proof.
  revert l. induction n as [|n IH]; intros [|y r] H; simpl in *; try discriminate.
  - now inversion H.
  - now apply IH.
Qed.

Lemma firstn_incl {A : Type} (n : nat) (l : list A) (x : A) :
  In x (firstn n l) -> In x l.
Proof.
  revert l. induction n as [|n IH]; intros [|y r] H; simpl in *; try contradiction.
  destruct H as [H|H]; [now left|right; now apply IH].
Qed.

Section Replay.
Import Portfolio.
Variable trades : list Row.

Lemma state_after_plus (a b : nat) :
  state_after trades (a + b) =
  fold_left (day_step trades) (firstn b (skipn a (sim_days trades))) (state_after trades a).
Proof. unfold state_after. now rewrite firstn_plus, fold_left_app. Qed.

Lemma state_after_cap (n : nat) :
  (length (open_trades (state_after trades n)) <= MAX_CONCURRENT_TRADES)%nat.
Proof. apply run_length. simpl. unfold MAX_CONCURRENT_TRADES. lia. Qed.

Lemma sim_days_sorted : StronglySorted Z.lt (sim_days trades).
Proof.
  unfold sim_days. destruct (date_bounds trades) as [[a b]|].
  - apply date_range_B_sorted.
  - constructor.
Qed.

Lemma state_after_entered (n : nat) :
  entered_on trades (firstn n (sim_days trades)) (state_after trades n).
Proof.
  apply (run_entered trades []). intros x [[]|[]].
Qed.

(** A trade that is not in the open set at the end of its entry day is in
    neither ledger from then on. *)
Lemma refused_forever (r : Row) (n m : nat) :
  nth_error (sim_days trades) n = Some (Trade.entry_date (snd r)) ->
  ~ In r (open_trades (state_after trades (S n))) ->
  (S n <= m)%nat ->
  ~ In r (open_trades (state_after trades m)) /\ ~ In r (used_trades (state_after trades m)).
Proof.
  intros Hn Hout Hm.
  pose proof (nth_error_split _ _ _ Hn) as Hsplit.
  pose proof (sorted_NoDup _ sim_days_sorted) as Hnd.
  rewrite Hsplit in Hnd.
  pose proof (NoDup_remove_2 _ _ _ Hnd) as Hnot.
  assert (Hbefore : ~ In (Trade.entry_date (snd r)) (firstn n (sim_days trades)))
    by (intros H; apply Hnot, in_or_app; now left).
  assert (Hafter : ~ In (Trade.entry_date (snd r)) (skipn (S n) (sim_days trades)))
    by (intros H; apply Hnot, in_or_app; now right).
  assert (Hused : ~ In r (used_trades (state_after trades (S n)))).
  { replace (S n) with (n + 1)%nat by lia. rewrite state_after_plus.
    rewrite (firstn_one_skipn _ _ _ Hn). simpl. unfold day_step, release. cbn [used_trades]. intros Hin.
    apply in_app_or in Hin as [Hin|Hin].
    - apply Hbefore. apply (state_after_entered n r). now right.
    - apply filter_In in Hin as [Hin _].
      apply Hbefore. apply (state_after_entered n r). now left. }
  replace m with (S n + (m - S n))%nat by lia. rewrite state_after_plus.
  apply run_stays_out; [|exact Hout|exact Hused].
  intros Hin. apply Hafter. eapply firstn_incl, Hin.
Qed.
End Replay.

Section ReplayResult.
Import Portfolio.

Lemma state_after_all (trades : list Row) :
  state_after trades (length (sim_days trades))
  = fold_left (day_step trades) (sim_days trades) init_state.
Proof. unfold state_after. now rewrite firstn_all. Qed.


(** What [_run_static_portfolio] returns, in terms of the day loop. *)
Lemma run_static_result (tbl : list Trade.t) (res : PortfolioResult) :
  _run_static_portfolio tbl = Some res ->
  let trades := sorted_rows tbl in
  let daily_ret := _daily_returns_from_trades (result_used_trades res) in
  result_used_trades res = flush (state_after trades (length (sim_days trades)))
  /\ equity_curve res =
     combine (map fst daily_ret) (Pandas.cumprod (map (fun p => 1 + snd p) daily_ret)).
Proof.
  intros H trades daily_ret. subst daily_ret.
  rewrite state_after_all. unfold sim_days.
  unfold _run_static_portfolio in H. fold trades in H.
  destruct (date_bounds trades) as [[start stop]|]; [|discriminate].
  destruct (flush _) as [|u us] eqn:E; inversion H; subst; cbn; split; reflexivity.
Qed.
End ReplayResult.

(** ** The admission cap (C2) and open trades (C10) *)

(** C2. On every simulated business day the open set holds at most three
    trades after the admission step; and a trade that is not let in on its
    entry day is in the open set on no later day and is absent from the
    trades the simulator returns. *)
Theorem admission_cap_invariant (tbl : list Trade.t) :
  let trades := Portfolio.sorted_rows tbl in
  (forall n, (length (Portfolio.open_trades (Portfolio.state_after trades n)) <= 3)%nat)
  /\ (forall (r : Portfolio.Row) (n : nat),
         nth_error (Portfolio.sim_days trades) n = Some (Trade.entry_date (snd r)) ->
         ~ In r (Portfolio.open_trades (Portfolio.state_after trades (S n))) ->
         (forall m, (S n <= m)%nat ->
                    ~ In r (Portfolio.open_trades (Portfolio.state_after trades m)))
         /\ (forall res, Portfolio._run_static_portfolio tbl = Some res ->
                         ~ In r (Portfolio.result_used_trades res))).
Proof.
  intros trades. split; [intros n; apply state_after_cap|].
  intros r n Hn Hout. split.
  - intros m Hm. now apply (refused_forever trades r n m Hn Hout Hm).
  - intros res Hres. apply run_static_result in Hres as [Hused _]. fold trades in Hused.
    rewrite Hused. unfold Portfolio.flush. intros Hin.
    assert (Hm : (S n <= length (Portfolio.sim_days trades))%nat).
    { apply Nat.le_succ_l. apply nth_error_Some. now rewrite Hn. }
    destruct (refused_forever trades r n _ Hn Hout Hm) as [Ho Hu].
    apply in_app_or in Hin as [Hin|Hin]; [now apply Hu|now apply Ho].
Qed.


(** ** Reductions *)

Lemma sum_scaled (w : Q) (xs : list (option Q)) :
  Pandas.sum (map (option_map (fun v => v * w)) xs)
  == Pandas.total (map (fun v => v * w) (Pandas.dropna xs)).
Proof.
  induction xs as [|[x|] r IH]; simpl; [reflexivity| |exact IH].
  unfold Pandas.sum in IH. simpl. now rewrite IH.
Qed.

Lemma cumprod_from_length (acc : Q) (xs : list Q) :
  length (Pandas.cumprod_from acc xs) = length xs.
Proof. revert acc. induction xs as [|x r IH]; intros acc; simpl; [reflexivity|now rewrite IH]. Qed.

Lemma cumprod_length (xs : list Q) : length (Pandas.cumprod xs) = length xs.
Proof. destruct xs; simpl; [reflexivity|now rewrite cumprod_from_length]. Qed.

Lemma cumprod_from_nth (acc : Q) (xs : list Q) (i : nat) (v : Q) :
  nth_error (Pandas.cumprod_from acc xs) i = Some v ->
  v == acc * Pandas.product (firstn (S i) xs).
Proof.
  revert acc i. induction xs as [|x r IH]; intros acc i H; [destruct i; discriminate|].
  destruct i as [|i]; simpl in H.
  - inversion H; subst. simpl. ring.
  - apply IH in H. rewrite H. cbn [firstn Pandas.product fold_right].
    change (fold_right Qmult 1 (firstn (S i) r)) with (Pandas.product (firstn (S i) r)). ring.
Qed.

Lemma cumprod_nth (xs : list Q) (i : nat) (v : Q) :
  nth_error (Pandas.cumprod xs) i = Some v -> v == Pandas.product (firstn (S i) xs).
Proof.
  destruct xs as [|x r]; [destruct i; discriminate|].
  destruct i as [|i]; simpl; intros H.
  - inversion H; subst. ring.
  - apply cumprod_from_nth in H. rewrite H.
    change (fold_right Qmult 1 (firstn (S i) r)) with (Pandas.product (firstn (S i) r)).
    destruct r; simpl; ring.
Qed.

Lemma zmin_spec (d : Z) (ds : list Z) :
  In (Pandas.zmin d ds) (d :: ds) /\ forall x, In x (d :: ds) -> (Pandas.zmin d ds <= x)%Z.
Proof.
  unfold Pandas.zmin. revert d. induction ds as [|y r IH]; intros d; simpl.
  - split; [now left|]. intros x [<-|[]]. lia.
  - destruct (IH (Z.min d y)) as [Hin Hle]. split.
    + destruct Hin as [Hin|Hin]; [|now right; right].
      rewrite <- Hin. destruct (Z.min_spec d y) as [[_ ->]|[_ ->]]; [now left|right; now left].
    + intros x [<-|[<-|Hx]].
      * etransitivity; [apply Hle; now left|]. lia.
      * etransitivity; [apply Hle; now left|]. lia.
      * apply Hle. now right.
Qed.

Lemma zmax_spec (d : Z) (ds : list Z) :
  forall x, In x (d :: ds) -> (x <= Pandas.zmax d ds)%Z.
Proof.
  unfold Pandas.zmax. revert d. induction ds as [|y r IH]; intros d x; simpl.
  - intros [<-|[]]. lia.
  - intros [<-|[<-|Hx]].
    + etransitivity; [|apply IH; now left]. lia.
    + etransitivity; [|apply IH; now left]. lia.
    + apply IH. now right.
Qed.

Lemma dropna_In {A : Type} (xs : list (option A)) (x : A) :
  In x (Pandas.dropna xs) <-> In (Some x) xs.
Proof.
  induction xs as [|[y|] r IH]; simpl; [tauto| |].
  - rewrite IH. split; intros [H|H]; auto; left; congruence.
  - rewrite IH. split; [auto|]. intros [H|H]; [discriminate|exact H].
Qed.

Lemma filter_implied {A : Type} (f g : A -> bool) (l : list A) :
  (forall x, In x l -> f x = true -> g x = true) -> filter f (filter g l) = filter f l.
Proof.
  induction l as [|x r IH]; intros H; simpl; [reflexivity|].
  destruct (g x) eqn:Hg; simpl.
  - destruct (f x); rewrite IH; auto; intros; apply H; auto; now right.
  - destruct (f x) eqn:Hf.
    + rewrite (H x) in Hg; [discriminate|now left|exact Hf].
    + apply IH. intros; apply H; auto; now right.
Qed.

Lemma filter_none {A : Type} (f : A -> bool) (l : list A) :
  (forall x, In x l -> f x = false) -> filter f l = [].
Proof.
  induction l as [|x r IH]; intros H; simpl; [reflexivity|].
  rewrite (H x (or_introl eq_refl)). apply IH. intros y Hy. apply H. now right.
Qed.

Lemma filter_map_snd {A B : Type} (f : B -> bool) (l : list (A * B)) :
  filter f (map snd l) = map snd (filter (fun r => f (snd r)) l).
Proof.
  induction l as [|x r IH]; simpl; [reflexivity|]. destruct (f (snd x)); simpl; now rewrite IH.
Qed.

Lemma date_range_B_head (start stop : Z) :
  (start <= stop)%Z -> Pandas.is_business_day start = true ->
  exists rest, Pandas.date_range_B start stop = start :: rest.
Proof.
  intros Hle Hb. unfold Pandas.date_range_B.
  destruct (Z.to_nat (stop - start + 1)) as [|k] eqn:E; [lia|].
  simpl. rewrite Z.add_0_r, Hb. eexists. reflexivity.
Qed.

(** ** Daily returns and the equity curve (C4, C9) *)

Section DailyReturns.
Import Portfolio.

Lemma sorted_rows_In (tbl : list Trade.t) (r : Row) :
  In r (sorted_rows tbl) -> In (snd r) tbl.
Proof.
  unfold sorted_rows. destruct r as [i t]. intros H. apply in_combine_r in H.
  simpl. now apply sort_In in H.
Qed.

Lemma used_from_table (tbl : list Trade.t) (res : PortfolioResult) (r : Row) :
  _run_static_portfolio tbl = Some res -> In r (result_used_trades res) -> In (snd r) tbl.
Proof.
  intros Hres Hin. apply run_static_result in Hres as [Hused _]. rewrite Hused in Hin.
  apply sorted_rows_In.
  apply (state_after_entered (sorted_rows tbl) (length (sim_days (sorted_rows tbl))) r).
  unfold flush in Hin. apply in_app_or in Hin. tauto.
Qed.

(** Only business days are visited, so every trade let in entered on one. *)
Lemma used_entry_business (tbl : list Trade.t) (res : PortfolioResult) (r : Row) :
  _run_static_portfolio tbl = Some res -> In r (result_used_trades res) ->
  Pandas.is_business_day (Trade.entry_date (snd r)) = true.
Proof.
  intros Hres Hin. apply run_static_result in Hres as [Hused _]. rewrite Hused in Hin.
  assert (Hday : In (Trade.entry_date (snd r)) (sim_days (sorted_rows tbl))).
  { eapply firstn_incl.
    apply (state_after_entered (sorted_rows tbl) (length (sim_days (sorted_rows tbl))) r).
    unfold flush in Hin. apply in_app_or in Hin. tauto. }
  unfold sim_days in Hday. destruct (date_bounds (sorted_rows tbl)) as [[a b]|]; [|contradiction].
  now apply date_range_B_In in Hday.
Qed.

(** The shape of the series built by [_daily_returns_from_trades]. *)
Lemma daily_returns_shape (used : list Row) :
  let closed := filter (fun r => Trade.closed (snd r)) used in
  closed <> [] ->
  exists start stop,
    _daily_returns_from_trades used
    = map (fun day => (day, daily_value closed day)) (Pandas.date_range_B start stop)
    /\ (exists r, In r closed /\ Trade.entry_date (snd r) = start)
    /\ (forall r, In r closed -> (start <= Trade.entry_date (snd r))%Z)
    /\ (forall r e, In r closed -> Trade.exit_date (snd r) = Some e -> (e <= stop)%Z).
Proof.
  intros closed Hne. unfold _daily_returns_from_trades. fold closed.
  destruct closed as [|c cs] eqn:E; [contradiction|].
  assert (Hc : forall r, In r (c :: cs) -> exists e, Trade.exit_date (snd r) = Some e).
  { intros r Hr. rewrite <- E in Hr. apply filter_In in Hr as [_ Hr].
    unfold Trade.closed, Pandas.notna in Hr.
    destruct (Trade.exit_date (snd r)) as [e|]; [now exists e|discriminate]. }
  destruct (Hc c (or_introl eq_refl)) as [e0 He0].
  cbn [map]. rewrite He0. cbn [Pandas.dropna].
  set (ds := map (fun r => Trade.entry_date (snd r)) cs).
  set (es := Pandas.dropna (map (fun r => Trade.exit_date (snd r)) cs)).
  exists (Pandas.zmin (Trade.entry_date (snd c)) ds), (Pandas.zmax e0 es).
  split; [reflexivity|].
  destruct (zmin_spec (Trade.entry_date (snd c)) ds) as [Hin Hle].
  split; [|split].
  - change (Trade.entry_date (snd c) :: ds)
      with (map (fun r => Trade.entry_date (snd r)) (c :: cs)) in Hin.
    apply in_map_iff in Hin as (r & Hr & Hin). now exists r.
  - intros r Hr. apply Hle.
    now apply (in_map (fun r : Row => Trade.entry_date (snd r)) (c :: cs)).
  - intros r e Hr He. apply zmax_spec. destruct Hr as [<-|Hr].
    + left. congruence.
    + right. apply dropna_In. rewrite <- He.
      now apply (in_map (fun r : Row => Trade.exit_date (snd r))).
Qed.

Lemma daily_returns_empty (used : list Row) :
  filter (fun r => Trade.closed (snd r)) used = [] -> _daily_returns_from_trades used = [].
Proof. intros E. unfold _daily_returns_from_trades. now rewrite E. Qed.

Lemma daily_returns_value (used : list Row) (day : Z) (v : Q) :
  In (day, v) (_daily_returns_from_trades used) ->
  v = daily_value (filter (fun r => Trade.closed (snd r)) used) day.
Proof.
  intros H. destruct (filter (fun r => Trade.closed (snd r)) used) as [|c cs] eqn:E.
  - rewrite daily_returns_empty in H by exact E. contradiction.
  - destruct (daily_returns_shape used) as (start & stop & Heq & _).
    + rewrite E. discriminate.
    + rewrite Heq, E in H. apply in_map_iff in H as (d & Hd & _). now inversion Hd.
Qed.

Lemma daily_returns_days (used : list Row) :
  StronglySorted Z.lt (map fst (_daily_returns_from_trades used)).
Proof.
  destruct (filter (fun r => Trade.closed (snd r)) used) as [|c cs] eqn:E.
  - rewrite daily_returns_empty by exact E. constructor.
  - destruct (daily_returns_shape used) as (start & stop & Heq & _).
    + rewrite E. discriminate.
    + rewrite Heq, map_map. simpl. rewrite map_id. apply date_range_B_sorted.
Qed.

(** A trade that does not exit before it enters is open on its exit day. *)
Lemma exits_on_open_on (day : Z) (t : Trade.t) :
  (forall e, Trade.exit_date t = Some e -> (Trade.entry_date t <= e)%Z) ->
  Trade.exits_on day t = true -> Trade.open_on day t = true.
Proof.
  unfold Trade.exits_on, Trade.open_on. intros Hwf Hday.
  destruct (Trade.exit_date t) as [e|]; [|discriminate].
  apply Z.eqb_eq in Hday. subst e. specialize (Hwf day eq_refl).
  apply andb_true_iff. split; apply Z.leb_le; lia.
Qed.

Lemma open_on_closed (day : Z) (t : Trade.t) : Trade.open_on day t = true -> Trade.closed t = true.
Proof. unfold Trade.open_on, Trade.closed. now destruct (Trade.exit_date t). Qed.

Lemma exits_on_closed (day : Z) (t : Trade.t) : Trade.exits_on day t = true -> Trade.closed t = true.
Proof. unfold Trade.exits_on, Trade.closed. now destruct (Trade.exit_date t). Qed.

(** The value booked on a day, over the whole ledger. *)
Lemma daily_value_ledger (used : list Row) (day : Z) :
  let ledger := map snd used in
  let exiting := filter (Trade.exits_on day) ledger in
  let n := length (filter (Trade.open_on day) ledger) in
  (exiting <> [] -> (1 <= n)%nat ->
     daily_value (filter (fun r => Trade.closed (snd r)) used) day
     == Pandas.total (map (fun x => x * (1 / inject_Z (Z.of_nat n)))
                          (Pandas.dropna (map Trade.ret exiting))))
  /\ (exiting = [] \/ n = 0%nat ->
      daily_value (filter (fun r => Trade.closed (snd r)) used) day = 0)
  /\ ((forall t e, In t ledger -> Trade.exit_date t = Some e -> (Trade.entry_date t <= e)%Z) ->
      exiting <> [] -> (1 <= n)%nat).
Proof.
  intros ledger exiting n. subst ledger exiting n.
  unfold daily_value.
  rewrite (filter_implied (fun r => Trade.open_on day (snd r)))
    by (intros; now apply (open_on_closed day)).
  rewrite (filter_implied (fun r => Trade.exits_on day (snd r)))
    by (intros; now apply (exits_on_closed day)).
  rewrite !filter_map_snd, !length_map.
  set (opn := filter (fun r => Trade.open_on day (snd r)) used).
  set (ex := filter (fun r => Trade.exits_on day (snd r)) used).
  split; [|split].
  - intros Hne Hn. destruct ex as [|x xs] eqn:Ex; [now contradiction Hne|].
    destruct opn as [|o os] eqn:Eo; [simpl in Hn; lia|].
    rewrite <- (map_map (fun r => Trade.ret (snd r))
                        (option_map (fun v => v * (1 / inject_Z (Z.of_nat (length (o :: os))))))).
    rewrite sum_scaled. now rewrite map_map.
  - intros [Hnil|Hn].
    + apply map_eq_nil in Hnil. rewrite Hnil. now destruct opn.
    + apply length_zero_iff_nil in Hn. now rewrite Hn.
  - intros Hwf Hne. destruct ex as [|x xs] eqn:Ex; [now contradiction Hne|].
    assert (Hx : In x opn).
    { assert (Hin : In x ex) by (rewrite Ex; now left).
      apply filter_In in Hin as [Hin Hday]. apply filter_In. split; [exact Hin|].
      apply exits_on_open_on; [|exact Hday].
      intros e. apply Hwf. now apply in_map. }
    destruct opn; [contradiction|simpl; lia].
Qed.
End DailyReturns.

(** C4. In the equity computation of the simulator, the return of a day on
    which trades of the ledger exit is the sum of their returns, each
    multiplied by one over the number of ledger trades open that day; a day
    without exits, or without an open trade, has return 0; and the equity
    curve is the running product of one plus the daily return.  When no trade
    exits before it enters, a day with an exit has an open trade. *)
Theorem equity_exit_day_attribution (tbl : list Trade.t) (res : Portfolio.PortfolioResult) :
  Portfolio._run_static_portfolio tbl = Some res ->
  let ledger := map snd (Portfolio.result_used_trades res) in
  let daily := Portfolio._daily_returns_from_trades (Portfolio.result_used_trades res) in
  (forall day v, In (day, v) daily ->
     let exiting := filter (Trade.exits_on day) ledger in
     let n := length (filter (Trade.open_on day) ledger) in
     (exiting <> [] -> (1 <= n)%nat ->
        v == Pandas.total (map (fun x => x * (1 / inject_Z (Z.of_nat n)))
                               (Pandas.dropna (map Trade.ret exiting))))
     /\ (exiting = [] \/ n = 0%nat -> v == 0)
     /\ ((forall t e, In t tbl -> Trade.exit_date t = Some e -> (Trade.entry_date t <= e)%Z) ->
         exiting <> [] -> (1 <= n)%nat))
  /\ map fst (Portfolio.equity_curve res) = map fst daily
  /\ (forall i day v, nth_error (Portfolio.equity_curve res) i = Some (day, v) ->
        v == Pandas.product (map (fun p => 1 + snd p) (firstn (S i) daily))).
Proof.
  intros Hres ledger daily.
  destruct (run_static_result tbl res Hres) as [_ Heq]. fold daily in Heq.
  assert (Hlen : length (map fst daily) = length (Pandas.cumprod (map (fun p => 1 + snd p) daily)))
    by now rewrite cumprod_length, !length_map.
  split; [|split].
  - intros day v Hin. apply daily_returns_value in Hin. subst v.
    destruct (daily_value_ledger (Portfolio.result_used_trades res) day) as (H1 & H2 & H3).
    split; [exact H1|]. split.
    + intros E. now rewrite (H2 E).
    + intros Hwf. apply H3. intros t e Ht. apply Hwf.
      apply in_map_iff in Ht as (r & <- & Hr). now apply (used_from_table tbl res).
  - rewrite Heq. clear Heq. revert Hlen.
    generalize (Pandas.cumprod (map (fun p => 1 + snd p) daily)).
    generalize (map fst daily). induction l as [|a l IH]; intros [|b l'] Hl; simpl in *;
      try discriminate; [reflexivity|]. f_equal. apply IH. now inversion Hl.
  - intros i day v Hi. rewrite Heq in Hi.
    assert (Hv : nth_error (Pandas.cumprod (map (fun p => 1 + snd p) daily)) i = Some v).
    { clear Heq. revert i Hi Hlen.
      generalize (Pandas.cumprod (map (fun p => 1 + snd p) daily)).
      generalize (map fst daily). induction l as [|a l IH]; intros [|b l'] i Hi Hl;
        simpl in *; try (destruct i; discriminate).
      destruct i as [|i]; simpl in *; [now inversion Hi|]. apply (IH l' i Hi). now inversion Hl. }
    apply cumprod_nth in Hv. now rewrite firstn_map in Hv.
Qed.

(** C9, as stated, fails: when every trade let in is still open, the set of
    trades returned is not empty and yet the equity curve has no first
    value. *)
Lemma equity_curve_first_value_refuted :
  ~ (forall (tbl : list Trade.t) (res : Portfolio.PortfolioResult),
        Portfolio._run_static_portfolio tbl = Some res ->
        Portfolio.result_used_trades res <> [] ->
        (forall t, In t tbl -> Pandas.is_business_day (Trade.entry_date t) = true) ->
        (forall t e, In t tbl -> Trade.exit_date t = Some e -> (Trade.entry_date t < e)%Z) ->
        StronglySorted Z.lt (map fst (Portfolio.equity_curve res))
        /\ exists day v rest, Portfolio.equity_curve res = (day, v) :: rest /\ v == 1).
Proof.
  intros H.
  destruct (H [Samples.still_open]
              {| Portfolio.equity_curve := [];
                 Portfolio.result_used_trades := [(0%nat, Samples.still_open)] |})
    as [_ (day & v & rest & Heq & _)].
  - reflexivity.
  - discriminate.
  - intros t [<-|[]]. reflexivity.
  - intros t e [<-|[]]. discriminate.
  - discriminate Heq.
Qed.

(** C9, amended. When the returned trade set holds at least one closed trade
    and every closed trade exits strictly after it enters, the equity curve
    is ordered by date and its first value is 1. *)
Theorem equity_curve_starts_at_one (tbl : list Trade.t) (res : Portfolio.PortfolioResult) :
  Portfolio._run_static_portfolio tbl = Some res ->
  (exists r, In r (Portfolio.result_used_trades res) /\ Trade.closed (snd r) = true) ->
  (forall t e, In t tbl -> Trade.exit_date t = Some e -> (Trade.entry_date t < e)%Z) ->
  StronglySorted Z.lt (map fst (Portfolio.equity_curve res))
  /\ exists day v rest, Portfolio.equity_curve res = (day, v) :: rest /\ v == 1.
Proof.
  intros Hres (r0 & Hr0 & Hc0) Hstrict.
  set (used := Portfolio.result_used_trades res).
  set (closed := filter (fun r => Trade.closed (snd r)) used).
  assert (Hne : closed <> []).
  { intros E. assert (Hin : In r0 closed) by (apply filter_In; now split).
    rewrite E in Hin. contradiction. }
  assert (Htbl : forall r, In r closed -> In (snd r) tbl).
  { intros r Hr. apply filter_In in Hr as [Hr _]. now apply (used_from_table tbl res). }
  destruct (run_static_result tbl res Hres) as [_ Heq]. fold used in Heq.
  destruct (daily_returns_shape used Hne) as (start & stop & Hd & (rs & Hrs & Hstart) & Hmin & Hmax).
  fold closed in Hd.
  split.
  - rewrite Heq, Hd. rewrite map_map. simpl. rewrite map_id.
    set (days := Pandas.date_range_B start stop).
    assert (Hl : length days
                 = length (Pandas.cumprod (map (fun p => 1 + snd p)
                             (map (fun day => (day, Portfolio.daily_value closed day)) days))))
      by now rewrite cumprod_length, !length_map.
    assert (Hfst : forall (a : list Z) (b : list Q), length a = length b ->
                                                     map fst (combine a b) = a).
    { induction a as [|x a IH]; intros [|y b] Hab; simpl in *; try discriminate;
        [reflexivity|]. f_equal. apply IH. now inversion Hab. }
    rewrite (Hfst _ _ Hl). apply date_range_B_sorted.
  - assert (Hclosed : exists e, Trade.exit_date (snd rs) = Some e).
    { apply filter_In in Hrs as [_ Hrs]. unfold Trade.closed, Pandas.notna in Hrs.
      destruct (Trade.exit_date (snd rs)) as [e|]; [now exists e|discriminate]. }
    destruct Hclosed as (e & He).
    assert (Hlt : (start < e)%Z) by (rewrite <- Hstart; apply Hstrict; auto).
    assert (Hle : (start <= stop)%Z) by (specialize (Hmax rs e Hrs He); lia).
    assert (Hb : Pandas.is_business_day start = true).
    { rewrite <- Hstart. apply (used_entry_business tbl res rs Hres).
      now apply filter_In in Hrs as [Hrs _]. }
    destruct (date_range_B_head start stop Hle Hb) as (rest & Hrange).
    assert (Hzero : Portfolio.daily_value closed start = 0).
    { unfold Portfolio.daily_value.
      assert (Hex : filter (fun r => Trade.exits_on start (snd r)) closed = []).
      { apply filter_none. intros r Hr. unfold Trade.exits_on.
        destruct (Trade.exit_date (snd r)) as [x|] eqn:Hx; [|reflexivity].
        apply Z.eqb_neq. specialize (Hstrict (snd r) x (Htbl r Hr) Hx).
        specialize (Hmin r Hr). lia. }
      rewrite Hex.
      match goal with |- match ?x with _ => _ end = _ => destruct x end; reflexivity. }
    rewrite Heq, Hd, Hrange. cbn [map Pandas.cumprod combine fst snd]. rewrite Hzero.
    eexists _, _, _. split; [reflexivity|]. reflexivity.
Qed.

(** ** Instances on the sample tables *)

Lemma admission_cap_invariant_witness :
  (length (Portfolio.open_trades
             (Portfolio.state_after (Portfolio.sorted_rows Samples.crowded) 1)) <= 3)%nat
  /\ ~ In (0%nat, nth 0 Samples.crowded Samples.still_open)
          (Portfolio.open_trades
             (Portfolio.state_after (Portfolio.sorted_rows Samples.crowded) 4))
  /\ exists res, Portfolio._run_static_portfolio Samples.crowded = Some res
                 /\ ~ In (0%nat, nth 0 Samples.crowded Samples.still_open)
                         (Portfolio.result_used_trades res).
Proof.
  destruct (admission_cap_invariant Samples.crowded) as [Hcap Hrefused].
  destruct (Hrefused (0%nat, nth 0 Samples.crowded Samples.still_open) 0%nat)
    as [Hlater Hres].
  - reflexivity.
  - vm_compute. intros H. decompose [or] H; try discriminate; assumption.
  - split; [apply Hcap|]. split; [apply Hlater; lia|].
    destruct (Portfolio._run_static_portfolio Samples.crowded) as [res|] eqn:E.
    + exists res. split; [reflexivity|]. now apply Hres.
    + vm_compute in E. discriminate E.
Defined.


Lemma equity_exit_day_attribution_witness :
  exists res, Portfolio._run_static_portfolio Samples.overlapping = Some res
    /\ map fst (Portfolio.equity_curve res)
       = map fst (Portfolio._daily_returns_from_trades (Portfolio.result_used_trades res))
    /\ exists v, In (2%Z, v) (Portfolio._daily_returns_from_trades
                                (Portfolio.result_used_trades res))
                 /\ v == 2 # 100.
Proof.
  destruct (Portfolio._run_static_portfolio Samples.overlapping) as [res|] eqn:E.
  - exists res. split; [reflexivity|].
    destruct (equity_exit_day_attribution Samples.overlapping res E) as (Hday & Hidx & _).
    split; [exact Hidx|].
    vm_compute in E. injection E as <-.
    exists (Portfolio.daily_value
              (filter (fun r => Trade.closed (snd r))
                      (combine (seq 0 2) Samples.overlapping)) 2).
    assert (Hv : In (2%Z, Portfolio.daily_value
                            (filter (fun r => Trade.closed (snd r))
                                    (combine (seq 0 2) Samples.overlapping)) 2)
                    (Portfolio._daily_returns_from_trades
                       (combine (seq 0 2) Samples.overlapping)))
      by (cbv; right; right; left; reflexivity).
    split; [exact Hv|].
    destruct (Hday _ _ Hv) as [Hex _].
    rewrite Hex; [vm_compute; reflexivity|vm_compute; discriminate|vm_compute; lia].
  - vm_compute in E. discriminate E.
Defined.

Lemma equity_curve_starts_at_one_witness :
  exists res, Portfolio._run_static_portfolio Samples.overlapping = Some res
    /\ StronglySorted Z.lt (map fst (Portfolio.equity_curve res))
    /\ exists day v rest, Portfolio.equity_curve res = (day, v) :: rest /\ v == 1.
Proof.
  destruct (Portfolio._run_static_portfolio Samples.overlapping) as [res|] eqn:E.
  - exists res. split; [reflexivity|].
    apply (equity_curve_starts_at_one Samples.overlapping res E).
    + vm_compute in E. injection E as <-.
      exists (0%nat, nth 0 Samples.overlapping Samples.still_open).
      split; [vm_compute; left; reflexivity|reflexivity].
    + intros t e [<-|[<-|[]]] H; simpl in H; inversion H; subst; simpl; lia.
  - vm_compute in E. discriminate E.
Defined.

(** ** Sector daily returns (C7) *)

Lemma filter_comm {A : Type} (f g : A -> bool) (l : list A) :
  filter f (filter g l) = filter g (filter f l).
Proof.
  induction l as [|x r IH]; simpl; [reflexivity|].
  destruct (f x) eqn:Hf, (g x) eqn:Hg; simpl; rewrite ?Hf, ?Hg, IH; reflexivity.
Qed.

Lemma total_ext (f g : Q -> Q) (l : list Q) :
  (forall x, f x == g x) -> Pandas.total (map f l) == Pandas.total (map g l).
Proof.
  intros H. induction l as [|x r IH]; simpl; [reflexivity|].
  unfold Pandas.total in IH. now rewrite IH, H.
Qed.

(** The cell of one day and one sector, over all trades of the sector. *)
Lemma sector_day_value_spec (trades : list Trade.t) (day : Z) (sector : string) :
  let sec := filter (fun t => String.eqb (Trade.group t) sector) trades in
  let opened := filter (Trade.open_on day) sec in
  SectorFilters.sector_day_value (filter Trade.closed trades) day sector
  == Pandas.total (map (fun x => x / inject_Z (Z.of_nat (length opened)))
                       (Pandas.dropna (map Trade.ret (filter (Trade.exits_on day) opened)))).
Proof.
  intros sec opened. unfold SectorFilters.sector_day_value.
  rewrite (filter_implied (Trade.open_on day) Trade.closed)
    by (intros; now apply (open_on_closed day)).
  rewrite (filter_comm (fun tr => String.eqb (Trade.group tr) sector) (Trade.open_on day)).
  fold sec. fold opened.
  destruct opened as [|o os] eqn:Eo; [reflexivity|].
  destruct (filter (Trade.exits_on day) (o :: os)) as [|x xs] eqn:Ex; [reflexivity|].
  rewrite <- (map_map Trade.ret
                (option_map (fun v => v * (1 / inject_Z (Z.of_nat (length (o :: os))))))).
  rewrite sum_scaled. apply total_ext. intros y. unfold Qdiv. ring.
Qed.

(** When no trade exits before it enters, the trades exiting on a day are
    among those open on it. *)
Lemma exits_among_open (l : list Trade.t) (day : Z) :
  (forall t e, In t l -> Trade.exit_date t = Some e -> (Trade.entry_date t <= e)%Z) ->
  filter (Trade.exits_on day) (filter (Trade.open_on day) l) = filter (Trade.exits_on day) l.
Proof.
  intros Hwf. apply filter_implied. intros t Ht Hday.
  apply exits_on_open_on; [|exact Hday]. intros e. now apply Hwf.
Qed.

(** C7. Each cell of the reconstructed table belongs to a business day and
    holds the sum, over the sector's open trades that exit that day, of the
    return divided by the number of the sector's trades open that day; it is
    0 when none exits; with two trades open of which one exits with return
    0.04 it is 0.02.  When no trade exits before it enters, the trades summed
    are all the sector's trades exiting that day. *)
Theorem sector_daily_return_attribution
        (trades : list Trade.t) (day : Z) (cells : list (string * Q))
        (sector : string) (v : Q) :
  In (day, cells) (SectorFilters._compute_sector_daily_returns trades) ->
  In (sector, v) cells ->
  let sec := filter (fun t => String.eqb (Trade.group t) sector) trades in
  let opened := filter (Trade.open_on day) sec in
  let exits := filter (Trade.exits_on day) opened in
  let n := length opened in
  Pandas.is_business_day day = true
  /\ v == Pandas.total (map (fun x => x / inject_Z (Z.of_nat n))
                            (Pandas.dropna (map Trade.ret exits)))
  /\ (exits = [] -> v == 0)
  /\ (exits <> [] -> (1 <= n)%nat)
  /\ (n = 2%nat -> forall t, exits = [t] -> Trade.ret t = Some (4 # 100) -> v == 2 # 100)
  /\ ((forall t e, In t trades -> Trade.exit_date t = Some e -> (Trade.entry_date t <= e)%Z) ->
      exits = filter (Trade.exits_on day) sec).
Proof.
  intros Hrow Hcell sec opened exits n.
  unfold SectorFilters._compute_sector_daily_returns in Hrow.
  destruct (map Trade.entry_date (filter Trade.closed trades)) as [|d ds]; [contradiction|].
  destruct (Pandas.dropna (map Trade.exit_date (filter Trade.closed trades))) as [|e es];
    [contradiction|].
  apply in_map_iff in Hrow as (day' & Hrow & Hday). inversion Hrow; subst day' cells. clear Hrow.
  apply in_map_iff in Hcell as (sector' & Hcell & _). inversion Hcell; subst sector' v. clear Hcell.
  apply date_range_B_In in Hday as [_ Hb].
  pose proof (sector_day_value_spec trades day sector) as Hv. cbv zeta in Hv.
  fold sec in Hv. fold opened in Hv. fold exits in Hv. fold n in Hv.
  split; [exact Hb|]. split; [exact Hv|]. split; [|split; [|split]].
  - intros E. rewrite Hv, E. reflexivity.
  - intros Hne. subst n. destruct opened as [|o os]; [now contradiction Hne|simpl; lia].
  - intros Hn t E Hret. rewrite Hv, E, Hn. simpl. rewrite Hret. simpl. reflexivity.
  - intros Hwf. apply exits_among_open. intros t e' Ht. apply Hwf.
    now apply filter_In in Ht as [Ht _].
Qed.

Lemma sector_daily_return_attribution_witness :
  exists cells v,
    In (2%Z, cells) (SectorFilters._compute_sector_daily_returns Samples.overlapping)
    /\ In ("TELECOM"%string, v) cells
    /\ v == 2 # 100.
Proof.
  exists [("TELECOM"%string,
           SectorFilters.sector_day_value (filter Trade.closed Samples.overlapping) 2 "TELECOM")].
  exists (SectorFilters.sector_day_value (filter Trade.closed Samples.overlapping) 2 "TELECOM").
  assert (Hrow : In (2%Z, [("TELECOM"%string,
                            SectorFilters.sector_day_value
                              (filter Trade.closed Samples.overlapping) 2 "TELECOM")])
                    (SectorFilters._compute_sector_daily_returns Samples.overlapping))
    by (cbv; right; right; left; reflexivity).
  split; [exact Hrow|]. split; [left; reflexivity|].
  destruct (sector_daily_return_attribution Samples.overlapping 2%Z _ "TELECOM"%string _
              Hrow (or_introl eq_refl)) as (_ & _ & _ & _ & Htwo & _).
  apply (Htwo eq_refl (nth 0 Samples.overlapping Samples.still_open)); reflexivity.
Defined.

(** ** The strict sector gate (C8) *)

Section Gate.
Import SectorFilters.

Lemma Qltb_lt (a b : Q) : LagDetector.Qltb a b = true <-> a < b.
Proof.
  unfold LagDetector.Qltb. rewrite negb_true_iff. split.
  - intros H. apply Qnot_le_lt. intros Hle. apply Qle_bool_iff in Hle. congruence.
  - intros H. destruct (Qle_bool b a) eqn:E; [|reflexivity].
    apply Qle_bool_iff in E. exfalso. now apply (Qlt_not_le a b).
Qed.

Lemma Qltb_ge (a b : Q) : LagDetector.Qltb a b = false <-> b <= a.
Proof.
  unfold LagDetector.Qltb. rewrite negb_false_iff. apply Qle_bool_iff.
Qed.

(** The flag is set exactly when no criterion fails, and there is one
    reason per failed criterion, in the order of the tests. *)
Lemma evaluate_spec (p : StrictParams) (row : SectorMetrics) :
  fst (_evaluate_sector_weighted_strict p row) = forallb (fun c => negb (fails p row c)) all_thresholds
  /\ length (snd (_evaluate_sector_weighted_strict p row))
     = length (filter (fails p row) all_thresholds).
Proof.
  unfold _evaluate_sector_weighted_strict, check, all_thresholds, fails, Qltb. simpl.
  destruct (LagDetector.Qltb (mean row) (min_mean p));
    destruct (LagDetector.Qltb (win_rate row) (min_win_rate p));
    destruct (LagDetector.Qltb (sharpe row) (min_sharpe p));
    destruct (LagDetector.Qltb (sortino row) (min_sortino p));
    destruct (LagDetector.Qltb (stability row) (min_stability p));
    destruct (LagDetector.Qltb (max_dd row) (min_max_dd p)); simpl; split; reflexivity.
Qed.

Lemma floor_with_floor (c c' : Threshold) (v : Q) (p : StrictParams) :
  floor_of c' (with_floor c v p) = if match c, c' with
                                      | MinMean, MinMean | MinWinRate, MinWinRate
                                      | MinSharpe, MinSharpe | MinSortino, MinSortino
                                      | MinStability, MinStability | MinMaxDd, MinMaxDd => true
                                      | _, _ => false
                                      end
                                   then v else floor_of c' p.
Proof. destruct c, c'; reflexivity. Qed.

Lemma fails_antitone (c c' : Threshold) (v : Q) (p : StrictParams) (row : SectorMetrics) :
  floor_of c p <= v -> fails p row c' = true -> fails (with_floor c v p) row c' = true.
Proof.
  unfold fails, Qltb. intros Hle Hf. apply Qltb_lt in Hf. apply Qltb_lt.
  rewrite floor_with_floor.
  destruct c, c'; simpl; try exact Hf; eapply Qlt_le_trans; eauto.
Qed.

Lemma passes_antitone (c : Threshold) (v : Q) (p : StrictParams) (row : SectorMetrics) :
  floor_of c p <= v ->
  fst (_evaluate_sector_weighted_strict (with_floor c v p) row) = true ->
  fst (_evaluate_sector_weighted_strict p row) = true.
Proof.
  intros Hle. rewrite (proj1 (evaluate_spec _ row)), (proj1 (evaluate_spec p row)).
  rewrite !forallb_forall. intros H c' Hc'. specialize (H c' Hc').
  destruct (fails p row c') eqn:E; [|reflexivity].
  now rewrite (fails_antitone c c' v p row Hle E) in H.
Qed.
End Gate.

(** C8. Raising one floor of the strict gate and keeping the other five
    never adds a sector to the investable set: a sector that passes the
    raised configuration passes the original one.  A sector passes exactly
    when each of the six metrics reaches its floor, and a rejected sector
    carries one reason per failed criterion. *)
Theorem investability_antitone
        (c : SectorFilters.Threshold) (v : Q) (p : SectorFilters.StrictParams)
        (metrics : list SectorFilters.SectorMetrics) :
  SectorFilters.floor_of c p <= v ->
  incl (SectorFilters.investable_sectors (SectorFilters.with_floor c v p) metrics)
       (SectorFilters.investable_sectors p metrics)
  /\ (forall row,
        fst (SectorFilters._evaluate_sector_weighted_strict (SectorFilters.with_floor c v p) row)
        = true ->
        fst (SectorFilters._evaluate_sector_weighted_strict p row) = true)
  /\ (forall row,
        fst (SectorFilters._evaluate_sector_weighted_strict p row) = true
        <-> (forall c', SectorFilters.floor_of c' p <= SectorFilters.metric_of c' row))
  /\ (forall row,
        length (snd (SectorFilters._evaluate_sector_weighted_strict p row))
        = length (filter (SectorFilters.fails p row) SectorFilters.all_thresholds)).
Proof.
  intros Hle. split; [|split; [|split]].
  - intros g Hg. unfold SectorFilters.investable_sectors, SectorFilters.flag_sectors in *.
    apply in_map_iff in Hg as (r & <- & Hr). apply filter_In in Hr as [Hr Hok].
    apply in_map_iff in Hr as (row & <- & Hrow).
    apply in_map_iff. 
    exists (row, fst (SectorFilters._evaluate_sector_weighted_strict p row),
            snd (SectorFilters._evaluate_sector_weighted_strict p row)).
    destruct (SectorFilters._evaluate_sector_weighted_strict (SectorFilters.with_floor c v p) row)
      as [ok reasons] eqn:E. simpl in Hok. subst ok. simpl.
    split; [reflexivity|]. apply filter_In. split.
    + apply in_map_iff. exists row. split; [|exact Hrow].
      now destruct (SectorFilters._evaluate_sector_weighted_strict p row).
    + simpl. apply (passes_antitone c v p row Hle). now rewrite E.
  - intros row. apply passes_antitone, Hle.
  - intros row. rewrite (proj1 (evaluate_spec p row)), forallb_forall. split.
    + intros H c'. apply Qltb_ge.
      assert (Hin : In c' SectorFilters.all_thresholds)
        by (destruct c'; simpl; tauto).
      specialize (H c' Hin). now apply negb_true_iff in H.
    + intros H c' _. apply negb_true_iff. apply Qltb_ge, H.
  - intros row. apply evaluate_spec.
Qed.

Lemma investability_antitone_witness :
  incl (SectorFilters.investable_sectors
          (SectorFilters.with_floor SectorFilters.MinWinRate (6 # 10) Samples.strict)
          [Samples.telecom])
       (SectorFilters.investable_sectors Samples.strict [Samples.telecom])
  /\ SectorFilters.investable_sectors Samples.strict [Samples.telecom] = ["TELECOM"%string]
  /\ SectorFilters.investable_sectors
       (SectorFilters.with_floor SectorFilters.MinWinRate (6 # 10) Samples.strict)
       [Samples.telecom] = [].
Proof.
  split; [|split; reflexivity].
  apply (investability_antitone SectorFilters.MinWinRate (6 # 10) Samples.strict
           [Samples.telecom]).
  vm_compute. discriminate.
Defined.

(** ** The signal detector (C5) *)

Section Detector.
Import LagDetector.




Lemma find_laggers_In (lmm : Q) (leaders : list string) (rets : list (string * Q))
      (t : string) (r : Q) :
  In (t, r) (find_laggers lmm leaders rets)
  <-> In (t, r) rets /\ Qabs r <= lmm /\ ~ In t leaders.
Proof.
  unfold find_laggers. rewrite !filter_In. simpl. rewrite Qle_bool_iff, negb_true_iff.
  assert (H : existsb (String.eqb t) leaders = false <-> ~ In t leaders).
  { split.
    - intros E Hin. assert (existsb (String.eqb t) leaders = true); [|congruence].
      apply existsb_exists. exists t. split; [exact Hin|apply String.eqb_refl].
    - intros Hn. destruct (existsb (String.eqb t) leaders) eqn:E; [|reflexivity].
      apply existsb_exists in E as (x & Hx & Heq). apply String.eqb_eq in Heq. now subst. }
  rewrite H. tauto.
Qed.

End Detector.



(** ** The trade generator (C6) *)

Section Generator.
Import TradeGenerator.

Lemma Qeq_bool_sym (a b : Q) : Qeq_bool a b = Qeq_bool b a.
Proof.
  destruct (Qeq_bool a b) eqn:E1, (Qeq_bool b a) eqn:E2; try reflexivity.
  - apply Qeq_bool_iff in E1. symmetry in E1. apply Qeq_bool_iff in E1. congruence.
  - apply Qeq_bool_iff in E2. symmetry in E2. apply Qeq_bool_iff in E2. congruence.
Qed.

Lemma Qeq_bool_trans (a b c : Q) :
  Qeq_bool a b = true -> Qeq_bool b c = true -> Qeq_bool a c = true.
Proof.
  rewrite !Qeq_bool_iff. intros H1 H2. now rewrite H1.
Qed.

Lemma Qeq_bool_refl (a : Q) : Qeq_bool a a = true.
Proof. apply Qeq_bool_iff. reflexivity. Qed.

Lemma params_eqb_refl (a : ParamSet) : params_eqb a a = true.
Proof.
  destruct a as [[[lb gt] p] lg]. simpl. now rewrite Nat.eqb_refl, !Qeq_bool_refl.
Qed.

Lemma params_eqb_sym (a b : ParamSet) : params_eqb a b = params_eqb b a.
Proof.
  destruct a as [[[lb1 gt1] p1] lg1], b as [[[lb2 gt2] p2] lg2]. simpl.
  now rewrite (Nat.eqb_sym lb1), (Qeq_bool_sym gt1), (Qeq_bool_sym p1), (Qeq_bool_sym lg1).
Qed.

Lemma params_eqb_trans (a b c : ParamSet) :
  params_eqb a b = true -> params_eqb b c = true -> params_eqb a c = true.
Proof.
  destruct a as [[[lb1 gt1] p1] lg1], b as [[[lb2 gt2] p2] lg2], c as [[[lb3 gt3] p3] lg3].
  simpl. rewrite !andb_true_iff, !Nat.eqb_eq.
  intros [[[H1 H2] H3] H4] [[[K1 K2] K3] K4].
  repeat split; [congruence | | |]; eapply Qeq_bool_trans; eauto.
Qed.

Lemma flat_map_filter_skip {A B : Type} (h : A -> list B) (q : A -> bool) (l : list A) :
  (forall y, In y l -> q y = false -> h y = []) -> flat_map h (filter q l) = flat_map h l.
Proof.
  induction l as [|x r IH]; intros H; simpl; [reflexivity|].
  destruct (q x) eqn:E; simpl.
  - rewrite IH; [reflexivity|]. intros; apply H; auto. now right.
  - rewrite (H x (or_introl eq_refl) E). simpl. apply IH. intros; apply H; auto. now right.
Qed.

Lemma flat_map_none {A B : Type} (h : A -> list B) (l : list A) :
  (forall y, In y l -> h y = []) -> flat_map h l = [].
Proof.
  induction l as [|x r IH]; intros H; simpl; [reflexivity|].
  rewrite (H x (or_introl eq_refl)). simpl. apply IH. intros; apply H. now right.
Qed.

(** Among the distinct parameter tuples exactly one equals a tuple that occurs. *)
Lemma unique_single {B : Type} (p : ParamSet) (X : list B) (l : list ParamSet) :
  flat_map (fun ps => if params_eqb ps p then X else []) (RuleScoring.unique params_eqb l)
  = if existsb (fun y => params_eqb y p) l then X else [].
Proof.
  induction l as [|x r IH]; simpl; [reflexivity|].
  destruct (params_eqb x p) eqn:E; simpl.
  - rewrite flat_map_none; [apply app_nil_r|].
    intros y Hy. apply filter_In in Hy as [_ Hy]. apply negb_true_iff in Hy.
    destruct (params_eqb y p) eqn:Ey; [|reflexivity].
    rewrite params_eqb_sym in Ey. now rewrite (params_eqb_trans x p y E Ey) in Hy.
  - rewrite flat_map_filter_skip; [exact IH|].
    intros y _ Hy. apply negb_false_iff in Hy.
    destruct (params_eqb y p) eqn:Ey; [|reflexivity].
    now rewrite (params_eqb_trans x y p Hy Ey) in E.
Qed.

Lemma flat_map_flat_map {A B C : Type} (g : B -> list C) (k : A -> list B) (l : list A) :
  flat_map g (flat_map k l) = flat_map (fun a => flat_map g (k a)) l.
Proof.
  induction l as [|x r IH]; simpl; [reflexivity|]. now rewrite flat_map_app, IH.
Qed.

(** A signal of the list meets exactly its own sixteen grid entries. *)
Lemma trades_of_signal_rows (series : Frame.t) (signals : list Signal.t) (sig : Signal.t)
      (ts : list Q) (loc : nat) :
  In sig signals ->
  Frame.column series (Signal.ticker sig) = Some ts ->
  Frame.get_loc series (Signal.signal_date sig) = Some loc ->
  trades_of_signal series (adaptive_rule_grid signals) sig
  = rows_for (Frame.index series) ts sig loc.
Proof.
  intros Hin Hcol Hloc. unfold trades_of_signal, adaptive_rule_grid. rewrite Hcol, Hloc.
  rewrite flat_map_flat_map.
  rewrite (flat_map_ext _ (fun ps => if params_eqb ps (params_of sig)
                                     then rows_for (Frame.index series) ts sig loc else [])).
  - unfold unique_param_sets. rewrite unique_single.
    replace (existsb (fun y => params_eqb y (params_of sig)) (map params_of signals)) with true;
      [reflexivity|].
    symmetry. apply existsb_exists. exists (params_of sig). split.
    + now apply in_map.
    + apply params_eqb_refl.
  - intros ps. unfold rows_for, entry_lags, holds. simpl.
    destruct (params_eqb ps (params_of sig)); simpl; rewrite ?app_nil_r, <- ?app_assoc;
      reflexivity.
Qed.

Lemma make_trade_skips (dates : list Z) (ts : list Q) (sig : Signal.t) (loc elag hold : nat) :
  make_trade dates ts sig loc elag hold = None <-> (length ts <= loc + elag)%nat.
Proof.
  unfold make_trade. destruct (Nat.leb_spec (length ts) (loc + elag)).
  - tauto.
  - split; [|lia].
    destruct (loc + elag + hold <? length ts)%nat; discriminate.
Qed.

Lemma rows_for_In (dates : list Z) (ts : list Q) (sig : Signal.t) (loc elag hold : nat)
      (tr : Trade.t) :
  In elag entry_lags -> In hold holds ->
  make_trade dates ts sig loc elag hold = Some tr ->
  In tr (rows_for dates ts sig loc).
Proof.
  intros He Hh Hm. unfold rows_for. apply in_flat_map. exists elag. split; [exact He|].
  apply in_flat_map. exists hold. split; [exact Hh|]. rewrite Hm. now left.
Qed.

Lemma same_trade_refl (a : Trade.t) : same_trade a a.
Proof. unfold same_trade. tauto. Qed.

Lemma attach_keeps (scored : list RuleScoring.ScoredRule) (tr : Trade.t) :
  exists tr', In tr' (attach scored tr) /\ same_trade tr' tr.
Proof.
  unfold attach.
  destruct (filter _ scored) as [|m ms].
  - exists tr. split; [now left|apply same_trade_refl].
  - eexists. split; [left; reflexivity|]. unfold same_trade. simpl. tauto.
Qed.

Lemma backtest_signals_keeps (series : Frame.t) (signals : list Signal.t)
      (scored : option (list RuleScoring.ScoredRule)) (sig : Signal.t) (tr : Trade.t) :
  In sig signals ->
  In tr (trades_of_signal series (adaptive_rule_grid signals) sig) ->
  exists tr', In tr' (backtest_signals series signals scored) /\ same_trade tr' tr.
Proof.
  intros Hsig Htr.
  assert (Hdf : In tr (flat_map (trades_of_signal series (adaptive_rule_grid signals)) signals)).
  { apply in_flat_map. now exists sig. }
  unfold backtest_signals. destruct scored as [[|r rs]|].
  - exists tr. split; [exact Hdf|apply same_trade_refl].
  - destruct (attach_keeps (r :: rs) tr) as (tr' & Hin & Hsame).
    exists tr'. split; [|exact Hsame]. apply in_flat_map. now exists tr.
  - exists tr. split; [exact Hdf|apply same_trade_refl].
Qed.
End Generator.

(** C6. For a signal of the list whose instrument and date are in the price
    table, a combination of entry lag and hold is skipped only when the entry
    index is out of range.  When the entry index is in range and the exit
    index is past the end, the table returned holds a row for that signal and
    combination with no exit date, no return and [is_open] set. *)
Theorem open_trade_row_emitted
        (series : Frame.t) (signals : list Signal.t)
        (scored : option (list RuleScoring.ScoredRule))
        (sig : Signal.t) (ts : list Q) (loc elag hold : nat) :
  In sig signals ->
  Frame.column series (Signal.ticker sig) = Some ts ->
  Frame.get_loc series (Signal.signal_date sig) = Some loc ->
  In elag TradeGenerator.entry_lags -> In hold TradeGenerator.holds ->
  (TradeGenerator.make_trade (Frame.index series) ts sig loc elag hold = None
   <-> (length ts <= loc + elag)%nat)
  /\ ((loc + elag < length ts)%nat ->
      exists tr, In tr (TradeGenerator.backtest_signals series signals scored)
                 /\ Trade.ticker tr = Signal.ticker sig
                 /\ Trade.group tr = Signal.group sig
                 /\ Trade.signal_date tr = Signal.signal_date sig
                 /\ Trade.entry_lag tr = elag /\ Trade.hold_days tr = hold
                 /\ Trade.entry_date tr = nth (loc + elag) (Frame.index series) 0%Z
                 /\ ((length ts <= loc + elag + hold)%nat ->
                     Trade.exit_date tr = None /\ Trade.ret tr = None
                     /\ Trade.is_open tr = true)).
Proof.
  intros Hsig Hcol Hloc He Hh. split; [apply make_trade_skips|].
  intros Hentry.
  destruct (TradeGenerator.make_trade (Frame.index series) ts sig loc elag hold)
    as [tr|] eqn:Hm; [|apply make_trade_skips in Hm; lia].
  assert (Hrow : In tr (TradeGenerator.trades_of_signal series
                          (TradeGenerator.adaptive_rule_grid signals) sig)).
  { rewrite (trades_of_signal_rows series signals sig ts loc Hsig Hcol Hloc).
    now apply (rows_for_In _ _ _ _ elag hold). }
  destruct (backtest_signals_keeps series signals scored sig tr Hsig Hrow)
    as (tr' & Hin & Hs).
  exists tr'. split; [exact Hin|].
  unfold TradeGenerator.same_trade in Hs.
  destruct Hs as (Hg & Ht & _ & Hsd & Hen & Hex & Hel & Hh' & Hr & Ho).
  rewrite Ht, Hg, Hsd, Hel, Hh', Hen, Hex, Hr, Ho.
  unfold TradeGenerator.make_trade in Hm.
  destruct (Nat.leb_spec (length ts) (loc + elag)); [lia|].
  destruct (Nat.ltb_spec (loc + elag + hold) (length ts)) as [Hlt|Hge];
    inversion Hm; subst tr; simpl; repeat split; intros; try lia; reflexivity.
Qed.

Lemma open_trade_row_emitted_witness :
  exists tr, In tr (TradeGenerator.backtest_signals Samples.midstream [Samples.late_signal] None)
             /\ Trade.hold_days tr = 5%nat
             /\ Trade.exit_date tr = None /\ Trade.ret tr = None /\ Trade.is_open tr = true.
Proof.
  destruct (open_trade_row_emitted Samples.midstream [Samples.late_signal] None
              Samples.late_signal [100; 996 # 10] 1 0 5) as [_ Hrow].
  - left. reflexivity.
  - reflexivity.
  - reflexivity.
  - left. reflexivity.
  - right. left. reflexivity.
  - destruct Hrow as (tr & Hin & _ & _ & _ & _ & Hh & _ & Hopen); [simpl; lia|].
    exists tr. split; [exact Hin|]. split; [exact Hh|]. apply Hopen. simpl. lia.
Defined.

(** ** Rule identifiers (C1) *)

Example sha1_pangram :
  Sha1.hexdigest "The quick brown fox jumps over the lazy dog"
  = "2fd4e1c67a2d28fced849ee1bb76e7391b93eb12"%string.
Proof. vm_compute. reflexivity. Qed.

Section Canonical.
Import Json.

Lemma compare_as_OT (a b : string) : String.compare a b = String_as_OT.compare a b.
Proof.
  revert b. induction a as [|c a IH]; intros [|d b]; reflexivity.
Qed.

Lemma compare_lt_trans (a b c : string) :
  String.compare a b = Lt -> String.compare b c = Lt -> String.compare a c = Lt.
Proof.
  rewrite !compare_as_OT. intros H1 H2.
  exact (@StrictOrder_Transitive _ _ String_as_OT.lt_strorder a b c H1 H2).
Qed.

Lemma compare_lt_irrefl (a : string) : String.compare a a <> Lt.
Proof.
  rewrite compare_as_OT. exact (@StrictOrder_Irreflexive _ _ String_as_OT.lt_strorder a).
Qed.

Lemma key_lt_trans (a b c : string * value) : key_lt a b -> key_lt b c -> key_lt a c.
Proof. apply compare_lt_trans. Qed.

Lemma insert_key_sorted (x : string * value) (l : dict) :
  StronglySorted key_lt l -> ~ In (fst x) (map fst l) ->
  StronglySorted key_lt (Pandas.insert key_leb x l).
Proof.
  induction 1 as [|y r Hs IH Hall]; intros Hx; simpl.
  - repeat constructor.
  - unfold key_leb at 1. unfold String.leb.
    destruct (String.compare (fst x) (fst y)) eqn:E.
    + apply String.compare_eq_iff in E. exfalso. apply Hx. left. now symmetry.
    + constructor; [now constructor|]. constructor; [exact E|].
      rewrite Forall_forall in *. intros z Hz. eapply key_lt_trans; [exact E|]. now apply Hall.
    + constructor.
      * apply IH. intros Hin. apply Hx. now right.
      * rewrite Forall_forall in *. intros z Hz.
        apply (Permutation_in _ (insert_perm _ key_leb x r)) in Hz. destruct Hz as [<-|Hz].
        -- unfold key_lt. rewrite String.compare_antisym, E. reflexivity.
        -- now apply Hall.
Qed.

Lemma sort_items_sorted (d : dict) :
  NoDup (map fst d) -> StronglySorted key_lt (sort_items d).
Proof.
  unfold sort_items. induction d as [|x r IH]; intros Hnd; simpl; [constructor|].
  inversion Hnd as [|? ? Hx Hr]; subst.
  apply insert_key_sorted; [now apply IH|].
  intros Hin. apply Hx.
  eapply Permutation_in; [|exact Hin]. apply Permutation_map, sort_perm.
Qed.

(** A strictly ordered list is determined by its elements. *)
Lemma sorted_perm_eq (l1 l2 : dict) :
  StronglySorted key_lt l1 -> StronglySorted key_lt l2 -> Permutation l1 l2 -> l1 = l2.
Proof.
  intros H1. revert l2. induction H1 as [|a l1 Hs1 IH Ha]; intros l2 H2 Hp.
  - apply Permutation_nil in Hp. now subst.
  - destruct l2 as [|b l2]; [symmetry in Hp; now apply Permutation_nil in Hp|].
    inversion H2 as [|? ? Hs2 Hb]; subst.
    assert (Hab : a = b).
    { assert (Hina : In a (b :: l2)) by (eapply Permutation_in; [exact Hp|now left]).
      assert (Hinb : In b (a :: l1))
        by (eapply Permutation_in; [symmetry; exact Hp|now left]).
      destruct Hina as [->|Hina]; [reflexivity|].
      destruct Hinb as [->|Hinb]; [reflexivity|].
      rewrite Forall_forall in Ha, Hb. specialize (Ha b Hinb). specialize (Hb a Hina).
      exfalso. apply (compare_lt_irrefl (fst a)). eapply compare_lt_trans; eauto. }
    subst b. f_equal. apply IH; [exact Hs2|]. now apply Permutation_cons_inv in Hp.
Qed.

Lemma sort_items_perm (d1 d2 : dict) :
  NoDup (map fst d1) -> Permutation d1 d2 -> sort_items d1 = sort_items d2.
Proof.
  intros Hnd Hp. apply sorted_perm_eq.
  - now apply sort_items_sorted.
  - apply sort_items_sorted. eapply Permutation_NoDup; [|exact Hnd]. now apply Permutation_map.
  - unfold sort_items. rewrite !sort_perm. exact Hp.
Qed.

Lemma rule_params_cols (k : RuleKey.t) :
  map fst (RuleScoring.rule_params k) = RuleScoring.RULE_KEY_COLS.
Proof. reflexivity. Qed.

Lemma rule_params_keys (k : RuleKey.t) : NoDup (map fst (RuleScoring.rule_params k)).
Proof.
  rewrite rule_params_cols. unfold RuleScoring.RULE_KEY_COLS.
  repeat constructor; simpl; intuition discriminate.
Qed.
End Canonical.

(** C1. The rule identifier is a function of the field values alone: two
    dictionaries holding the same items, in whatever order they were filled,
    get the same identifier; so does any reordering of the parameters of a
    rule key; and rows of the scored table with the same key carry the same
    identifier, whatever tables they were computed from. *)
Theorem generate_rule_id_deterministic (float_repr : Q -> string) :
  (forall d1 d2 : Json.dict,
      NoDup (map fst d1) -> Permutation d1 d2 ->
      RuleScoring.generate_rule_id float_repr d1 = RuleScoring.generate_rule_id float_repr d2)
  /\ (forall (k : RuleKey.t) (d : Json.dict),
         Permutation (RuleScoring.rule_params k) d ->
         RuleScoring.generate_rule_id float_repr d
         = RuleScoring.generate_rule_id float_repr (RuleScoring.rule_params k))
  /\ (forall (t1 t2 : list Trade.t) (s1 s2 : RuleScoring.ScoredRule),
         In s1 (RuleScoring.score_rules float_repr t1) ->
         In s2 (RuleScoring.score_rules float_repr t2) ->
         RuleScoring.key s1 = RuleScoring.key s2 ->
         RuleScoring.rule_id s1 = RuleScoring.rule_id s2).
Proof.
  assert (Hperm : forall d1 d2 : Json.dict,
             NoDup (map fst d1) -> Permutation d1 d2 ->
             RuleScoring.generate_rule_id float_repr d1
             = RuleScoring.generate_rule_id float_repr d2).
  { intros d1 d2 Hnd Hp. unfold RuleScoring.generate_rule_id, Json.dumps_sorted.
    now rewrite (sort_items_perm d1 d2 Hnd Hp). }
  split; [exact Hperm|]. split.
  - intros k d Hp. symmetry. apply Hperm; [apply rule_params_keys|exact Hp].
  - intros t1 t2 s1 s2 H1 H2 Hk. unfold RuleScoring.score_rules in H1, H2.
    apply in_map_iff in H1 as (g1 & <- & _). apply in_map_iff in H2 as (g2 & <- & _).
    simpl in *. now rewrite Hk.
Qed.

Lemma generate_rule_id_deterministic_witness :
  RuleScoring.generate_rule_id Samples.float_repr
    (rev (RuleScoring.rule_params Samples.sample_key))
  = RuleScoring.generate_rule_id Samples.float_repr
      (RuleScoring.rule_params Samples.sample_key)
  /\ RuleScoring.generate_rule_id Samples.float_repr
       (RuleScoring.rule_params Samples.sample_key) = "R_5D78E024"%string.
Proof.
  split.
  - apply (generate_rule_id_deterministic Samples.float_repr).
    apply Permutation_rev.
  - vm_compute. reflexivity.
Defined.

(** ** Per-rule aggregates (C3) *)

(** The quality score of a rule with mean return 2%, win rate 60%, worst
    trade -5% and 30 trades is 0.12. *)
Example quality_of_small_sample :
  match RuleScoring._compute_rule_quality (Some (2 # 100)) (6 # 10) (Some (- (5 # 100))) 30 with
  | Some q => q == 12 # 100
  | None => False
  end.
Proof. vm_compute. reflexivity. Qed.

(** What [score_rules] puts in a row: the key of a group, and the
    aggregates of the returns of all rows of the table with that key. *)
Lemma score_rules_row (float_repr : Q -> string) (trades : list Trade.t)
      (s : RuleScoring.ScoredRule) :
  In s (RuleScoring.score_rules float_repr trades) ->
  let rows := filter (fun tr => RuleKey.eqb (RuleKey.of_trade tr) (RuleScoring.key s)) trades in
  let rets := map Trade.ret rows in
  RuleScoring.n_trades s = length rows
  /\ RuleScoring.avg_ret_full s = Pandas.mean rets
  /\ RuleScoring.win_rate s = RuleScoring.frac_positive rets
  /\ RuleScoring.max_dd s = Pandas.min rets.
Proof.
  intros H. unfold RuleScoring.score_rules, RuleScoring.groupby in H.
  apply in_map_iff in H as (g & <- & Hg). apply in_map_iff in Hg as (k & <- & _).
  simpl. rewrite length_map. repeat split.
Qed.

(** C3 fails on the code: a rule with one closed trade that gained 10% and
    one open trade is scored with [n_trades] 2 and [win_rate] 1/2, the open
    row counted in both, while the mean and the minimum are taken over the
    closed trade alone. *)
Theorem score_rules_counts_open_rows (float_repr : Q -> string) :
  map (fun s => (RuleScoring.n_trades s, RuleScoring.win_rate s,
                 RuleScoring.avg_ret_full s, RuleScoring.max_dd s))
      (RuleScoring.score_rules float_repr Samples.one_closed_one_open)
  = [(2%nat, 1 # 2, Some (1 # 10), Some (1 # 10))].
Proof. reflexivity. Qed.

(** * Further properties of the code *)

(** ** Shape of a rule identifier ([generate_rule_id]) *)

Lemma hex_digit_upper (n : N) :
  is_upper_hex (RuleScoring.upper_char (Sha1.hex_digit (N.land n 15))) = true.
Proof.
  change 15%N with (N.ones 4). rewrite N.land_ones.
  assert (Hlt : (n mod 2 ^ 4 < 16)%N) by (apply N.mod_upper_bound; discriminate).
  remember (n mod 2 ^ 4)%N as m eqn:Hm. clear Hm.
  assert (H : (m = 0 \/ m = 1 \/ m = 2 \/ m = 3 \/ m = 4 \/ m = 5 \/ m = 6 \/ m = 7
               \/ m = 8 \/ m = 9 \/ m = 10 \/ m = 11 \/ m = 12 \/ m = 13 \/ m = 14
               \/ m = 15)%N) by lia.
  repeat (destruct H as [H|H]; [subst m; reflexivity|]). subst m. reflexivity.
Qed.

(** X1. Whatever the parameters, the identifier is [R_] followed by eight
    characters taken from 0-9 and A-F. *)
Theorem rule_id_format (float_repr : Q -> string) (rule_params : Json.dict) :
  exists h, RuleScoring.generate_rule_id float_repr rule_params = ("R_" ++ h)%string
            /\ String.length h = 8%nat
            /\ all_chars is_upper_hex h = true.
Proof.
  unfold RuleScoring.generate_rule_id, Sha1.hexdigest.
  destruct (Sha1.digest _) as [[[[h0 h1] h2] h3] h4].
  eexists. split; [reflexivity|].
  cbn [Sha1.hex String.append substring RuleScoring.upper String.length all_chars].
  split; [reflexivity|].
  rewrite !hex_digit_upper. reflexivity.
Qed.

(** ** The quality score ([_compute_rule_quality]) *)

Lemma penalty_range (n : nat) : 1 # 2 <= RuleScoring.penalty n /\ RuleScoring.penalty n <= 1.
Proof.
  unfold RuleScoring.penalty.
  destruct (n <? 50)%nat; [split; discriminate|].
  destruct (n <? 200)%nat; split; discriminate.
Qed.

Lemma penalty_mono (n m : nat) :
  (n <= m)%nat -> RuleScoring.penalty n <= RuleScoring.penalty m.
Proof.
  intros H. unfold RuleScoring.penalty.
  destruct (Nat.ltb_spec n 50), (Nat.ltb_spec m 50), (Nat.ltb_spec n 200),
    (Nat.ltb_spec m 200); try lia; discriminate.
Qed.

Lemma dd_term_floor (max_dd : option Q) : 1 # 1000000 <= RuleScoring.dd_term max_dd.
Proof.
  unfold RuleScoring.dd_term. destruct max_dd as [m|]; [|discriminate].
  destruct (Qle_bool (Qabs m) (1 # 1000000)) eqn:E; [discriminate|].
  apply Qlt_le_weak, Qnot_le_lt. intros H. apply Qle_bool_iff in H. congruence.
Qed.

Lemma quality_factor (max_dd : option Q) (n : nat) :
  0 < RuleScoring.penalty n / RuleScoring.dd_term max_dd
  /\ RuleScoring.penalty n / RuleScoring.dd_term max_dd <= 1000000.
Proof.
  pose proof (dd_term_floor max_dd) as Ht. destruct (penalty_range n) as [Hp1 Hp2].
  assert (Htpos : 0 < RuleScoring.dd_term max_dd) by (eapply Qlt_le_trans; [|exact Ht]; reflexivity).
  split.
  - apply Qlt_shift_div_l; [exact Htpos|]. rewrite Qmult_0_l.
    eapply Qlt_le_trans; [|exact Hp1]. reflexivity.
  - apply Qle_shift_div_r; [exact Htpos|].
    apply Qle_trans with (1 := Hp2).
    apply Qle_trans with (1000000 * (1 # 1000000)); [discriminate|].
    apply Qmult_le_l; [reflexivity|exact Ht].
Qed.

(** X2. With a win rate that is not negative, the score exists whenever the
    mean return does, has the sign of the mean return when some trade won and
    is zero otherwise, and is bounded by a million times the product of mean
    return and win rate: the floor under the drawdown keeps the quotient
    finite. *)
Theorem rule_quality_sign (avg_ret win_rate : Q) (max_dd : option Q) (n_trades : nat) :
  0 <= win_rate ->
  exists q,
    RuleScoring._compute_rule_quality (Some avg_ret) win_rate max_dd n_trades = Some q
    /\ (0 < q <-> 0 < avg_ret /\ 0 < win_rate)
    /\ (q < 0 <-> avg_ret < 0 /\ 0 < win_rate)
    /\ Qabs q <= 1000000 * (Qabs avg_ret * win_rate).
Proof.
  intros Hw. unfold RuleScoring._compute_rule_quality. simpl. eexists. split; [reflexivity|].
  destruct (quality_factor max_dd n_trades) as [Hc Hc'].
  set (c := RuleScoring.penalty n_trades / RuleScoring.dd_term max_dd) in *.
  assert (Hq : avg_ret * win_rate * RuleScoring.penalty n_trades / RuleScoring.dd_term max_dd
               == (avg_ret * win_rate) * c) by (unfold c, Qdiv; ring).
  rewrite Hq. split; [|split].
  - split.
    + intros H. assert (Hp : 0 < avg_ret * win_rate).
      { destruct (Qlt_le_dec 0 (avg_ret * win_rate)) as [Hp|Hn]; [exact Hp|].
        exfalso. apply (Qlt_not_le _ _ H). rewrite <- (Qmult_0_l c).
        apply Qmult_le_compat_r; [exact Hn|now apply Qlt_le_weak]. }
      destruct (Qlt_le_dec 0 avg_ret) as [Ha|Ha].
      * split; [exact Ha|]. destruct (Qlt_le_dec 0 win_rate) as [Hw'|Hw']; [exact Hw'|].
        exfalso. assert (Hz : win_rate == 0) by (apply Qle_antisym; assumption).
        rewrite Hz, Qmult_0_r in Hp. discriminate.
      * exfalso. apply (Qlt_not_le _ _ Hp). rewrite <- (Qmult_0_l win_rate).
        now apply Qmult_le_compat_r.
    + intros [Ha Hw']. rewrite <- (Qmult_0_l c). apply Qmult_lt_compat_r; [exact Hc|].
      rewrite <- (Qmult_0_l win_rate). now apply Qmult_lt_compat_r.
  - split.
    + intros H. assert (Hp : avg_ret * win_rate < 0).
      { destruct (Qlt_le_dec (avg_ret * win_rate) 0) as [Hp|Hn]; [exact Hp|].
        exfalso. apply (Qlt_not_le _ _ H). rewrite <- (Qmult_0_l c).
        apply Qmult_le_compat_r; [exact Hn|now apply Qlt_le_weak]. }
      destruct (Qlt_le_dec avg_ret 0) as [Ha|Ha].
      * split; [exact Ha|]. destruct (Qlt_le_dec 0 win_rate) as [Hw'|Hw']; [exact Hw'|].
        exfalso. assert (Hz : win_rate == 0) by (apply Qle_antisym; assumption).
        rewrite Hz, Qmult_0_r in Hp. discriminate.
      * exfalso. apply (Qlt_not_le _ _ Hp). rewrite <- (Qmult_0_l win_rate).
        now apply Qmult_le_compat_r.
    + intros [Ha Hw']. rewrite <- (Qmult_0_l c). apply Qmult_lt_compat_r; [exact Hc|].
      rewrite <- (Qmult_0_l win_rate). now apply Qmult_lt_compat_r.
  - rewrite !Qabs_Qmult. rewrite (Qabs_pos win_rate Hw), (Qabs_pos c (Qlt_le_weak _ _ Hc)).
    rewrite (Qmult_comm (Qabs avg_ret * win_rate) c).
    apply Qmult_le_compat_r; [exact Hc'|].
    apply Qmult_le_0_compat; [apply Qabs_nonneg|exact Hw].
Qed.

Lemma rule_quality_sign_witness :
  exists q, RuleScoring._compute_rule_quality (Some (2 # 100)) (6 # 10)
              (Some (- (5 # 100))) 30 = Some q
            /\ 0 < q /\ Qabs q <= 1000000 * (Qabs (2 # 100) * (6 # 10)).
Proof.
  destruct (rule_quality_sign (2 # 100) (6 # 10) (Some (- (5 # 100))) 30)
    as (q & Hq & Hpos & _ & Hb); [discriminate|].
  exists q. split; [exact Hq|]. split; [|exact Hb].
  apply Hpos. split; reflexivity.
Defined.

(** X3. The sample-size penalty only scales the score: the score of a rule
    with [n] trades is the score it would have with 200 trades times a factor
    between 1/2 and 1 that grows with [n]; a missing mean return gives a
    missing score. *)
Theorem rule_quality_penalty (avg_ret : option Q) (win_rate : Q) (max_dd : option Q)
        (n m : nat) :
  (n <= m)%nat ->
  RuleScoring.penalty n <= RuleScoring.penalty m
  /\ 1 # 2 <= RuleScoring.penalty n /\ RuleScoring.penalty n <= 1
  /\ match RuleScoring._compute_rule_quality avg_ret win_rate max_dd n,
           RuleScoring._compute_rule_quality avg_ret win_rate max_dd 200 with
     | Some q, Some q' => q == RuleScoring.penalty n * q'
     | None, None => avg_ret = None
     | _, _ => False
     end.
Proof.
  intros Hnm. split; [now apply penalty_mono|]. split; [apply penalty_range|].
  split; [apply penalty_range|].
  unfold RuleScoring._compute_rule_quality. destruct avg_ret as [a|]; simpl; [|reflexivity].
  change (RuleScoring.penalty 200) with 1. unfold Qdiv. ring.
Qed.

Lemma rule_quality_penalty_witness :
  RuleScoring.penalty 30 <= RuleScoring.penalty 120
  /\ RuleScoring.penalty 30 == 1 # 2 /\ RuleScoring.penalty 120 == 8 # 10.
Proof.
  split; [|split; reflexivity].
  apply (rule_quality_penalty None 0 None 30 120). lia.
Defined.

(** ** Grouping by rule key ([score_rules]) *)

Section UniqueFacts.
Variable A : Type.
Variable eqb : A -> A -> bool.
Hypothesis eqb_sym : forall a b, eqb a b = eqb b a.
Hypothesis eqb_trans : forall a b c, eqb a b = true -> eqb b c = true -> eqb a c = true.

Lemma unique_incl (l : list A) (x : A) : In x (RuleScoring.unique eqb l) -> In x l.
Proof.
  induction l as [|y r IH]; simpl; [tauto|].
  intros [H|H]; [now left|]. apply filter_In in H as [H _]. right. now apply IH.
Qed.

Lemma filter_length_skip {B : Type} (f q : B -> bool) (l : list B) :
  (forall y, In y l -> q y = false -> f y = false) ->
  length (filter f (filter q l)) = length (filter f l).
Proof.
  induction l as [|x r IH]; intros H; simpl; [reflexivity|].
  destruct (q x) eqn:E; simpl.
  - destruct (f x); simpl; rewrite IH; auto; intros; apply H; auto; now right.
  - rewrite (H x (or_introl eq_refl) E). apply IH. intros; apply H; auto. now right.
Qed.

(** Among the first occurrences there is exactly one element equal to a
    given element of the list, and none equal to a stranger. *)
Lemma unique_count (p : A) (l : list A) :
  length (filter (fun y => eqb y p) (RuleScoring.unique eqb l))
  = if existsb (fun y => eqb y p) l then 1%nat else 0%nat.
Proof.
  induction l as [|x r IH]; simpl; [reflexivity|].
  destruct (eqb x p) eqn:E; simpl.
  - f_equal. apply length_zero_iff_nil. apply filter_none.
    intros y Hy. apply filter_In in Hy as [_ Hy]. apply negb_true_iff in Hy.
    destruct (eqb y p) eqn:Ey; [|reflexivity].
    rewrite eqb_sym in Ey. now rewrite (eqb_trans x p y E Ey) in Hy.
  - rewrite filter_length_skip; [exact IH|].
    intros y _ Hy. apply negb_false_iff in Hy.
    destruct (eqb y p) eqn:Ey; [|reflexivity].
    now rewrite (eqb_trans x y p Hy Ey) in E.
Qed.
End UniqueFacts.

Lemma RuleKey_eqb_refl (a : RuleKey.t) : RuleKey.eqb a a = true.
Proof.
  unfold RuleKey.eqb. now rewrite !Nat.eqb_refl, !Qeq_bool_refl, String.eqb_refl.
Qed.

Lemma RuleKey_eqb_sym (a b : RuleKey.t) : RuleKey.eqb a b = RuleKey.eqb b a.
Proof.
  unfold RuleKey.eqb.
  rewrite (Nat.eqb_sym (RuleKey.lookback a)), (Nat.eqb_sym (RuleKey.entry_lag a)),
    (Nat.eqb_sym (RuleKey.hold_days a)), (Qeq_bool_sym (RuleKey.group_thresh a)),
    (Qeq_bool_sym (RuleKey.participation a)), (Qeq_bool_sym (RuleKey.lagger_max_move a)),
    (String.eqb_sym (RuleKey.group a)).
  reflexivity.
Qed.

Lemma RuleKey_eqb_trans (a b c : RuleKey.t) :
  RuleKey.eqb a b = true -> RuleKey.eqb b c = true -> RuleKey.eqb a c = true.
Proof.
  unfold RuleKey.eqb. rewrite !andb_true_iff, !Nat.eqb_eq, !String.eqb_eq.
  intros [[[[[[H1 H2] H3] H4] H5] H6] H7] [[[[[[K1 K2] K3] K4] K5] K6] K7].
  repeat split; try congruence; eapply Qeq_bool_trans; eauto.
Qed.

Lemma list_sum_perm (l1 l2 : list nat) : Permutation l1 l2 -> list_sum l1 = list_sum l2.
Proof. induction 1; simpl; lia. Qed.

Lemma filter_length_perm {B : Type} (f : B -> bool) (l1 l2 : list B) :
  Permutation l1 l2 -> length (filter f l1) = length (filter f l2).
Proof.
  induction 1 as [|x l1 l2 _ IH|x y l|l1 l2 l3 _ IH1 _ IH2]; simpl.
  - reflexivity.
  - destruct (f x); simpl; now rewrite IH.
  - destruct (f x), (f y); reflexivity.
  - now rewrite IH1.
Qed.

(** Counting a list by a family of tests of which each element passes one. *)
Lemma count_partition {B C : Type} (f : B -> C -> bool) (keys : list C) (l : list B) :
  (forall x, In x l -> length (filter (f x) keys) = 1%nat) ->
  list_sum (map (fun k => length (filter (fun x => f x k) l)) keys) = length l.
Proof.
  induction l as [|x r IH]; intros H; simpl.
  - clear H. induction keys as [|k ks IHk]; simpl; [reflexivity|exact IHk].
  - assert (Hstep : forall ks,
               list_sum (map (fun k => length (if f x k
                                               then x :: filter (fun y => f y k) r
                                               else filter (fun y => f y k) r)) ks)
               = (length (filter (f x) ks)
                  + list_sum (map (fun k => length (filter (fun y => f y k) r)) ks))%nat).
    { induction ks as [|k ks IHk]; simpl; [reflexivity|].
      rewrite IHk. destruct (f x k); simpl; lia. }
    rewrite Hstep, (H x (or_introl eq_refl)), IH; [reflexivity|].
    intros y Hy. apply H. now right.
Qed.

(** The keys of the groups, and what a row holds. *)
Lemma score_rules_rows (float_repr : Q -> string) (trades : list Trade.t) :
  RuleScoring.score_rules float_repr trades
  = map (fun k => RuleScoring.score_group float_repr
                    (k, filter (fun tr => RuleKey.eqb (RuleKey.of_trade tr) k) trades))
        (Pandas.sort RuleKey.leb
           (RuleScoring.unique RuleKey.eqb (map RuleKey.of_trade trades))).
Proof. unfold RuleScoring.score_rules, RuleScoring.groupby. now rewrite map_map. Qed.

Lemma group_keys_count (trades : list Trade.t) (k : RuleKey.t) :
  length (filter (fun y => RuleKey.eqb y k)
            (Pandas.sort RuleKey.leb
               (RuleScoring.unique RuleKey.eqb (map RuleKey.of_trade trades))))
  = if existsb (fun tr => RuleKey.eqb (RuleKey.of_trade tr) k) trades then 1%nat else 0%nat.
Proof.
  rewrite (filter_length_perm _ _ _ (sort_perm _ RuleKey.leb _)).
  rewrite (unique_count _ RuleKey.eqb RuleKey_eqb_sym RuleKey_eqb_trans).
  assert (E : existsb (fun y => RuleKey.eqb y k) (map RuleKey.of_trade trades)
              = existsb (fun tr => RuleKey.eqb (RuleKey.of_trade tr) k) trades).
  { induction trades as [|t r IH]; simpl; [reflexivity|now rewrite IH]. }
  now rewrite E.
Qed.

(** X4. [score_rules] partitions the trade table: there is exactly one row
    for each rule key that occurs in the table and none for any other key,
    and the [n_trades] of all rows add up to the number of trades. *)
Theorem score_rules_partition (float_repr : Q -> string) (trades : list Trade.t) :
  (forall k : RuleKey.t,
      length (filter (fun s => RuleKey.eqb (RuleScoring.key s) k)
                     (RuleScoring.score_rules float_repr trades))
      = if existsb (fun tr => RuleKey.eqb (RuleKey.of_trade tr) k) trades
        then 1%nat else 0%nat)
  /\ list_sum (map RuleScoring.n_trades (RuleScoring.score_rules float_repr trades))
     = length trades.
Proof.
  rewrite score_rules_rows. split.
  - intros k. rewrite <- group_keys_count.
    generalize (Pandas.sort RuleKey.leb
                  (RuleScoring.unique RuleKey.eqb (map RuleKey.of_trade trades))).
    induction l as [|x r IH]; [reflexivity|].
    cbn [map filter RuleScoring.score_group RuleScoring.key fst].
    destruct (RuleKey.eqb x k); cbn [length]; now rewrite IH.
  - rewrite map_map. cbn [RuleScoring.score_group RuleScoring.n_trades snd].
    rewrite (map_ext _ (fun k => length (filter (fun tr => RuleKey.eqb (RuleKey.of_trade tr) k)
                                                trades)))
      by (intros; apply length_map).
    apply (count_partition (fun tr k => RuleKey.eqb (RuleKey.of_trade tr) k)).
    intros x Hx.
    rewrite (filter_ext _ (fun y => RuleKey.eqb y (RuleKey.of_trade x)))
      by (intros; apply RuleKey_eqb_sym).
    rewrite group_keys_count.
    replace (existsb _ trades) with true; [reflexivity|].
    symmetry. apply existsb_exists. exists x. split; [exact Hx|apply RuleKey_eqb_refl].
Qed.

Lemma fold_Qmin_le_start (r : list Q) (v : Q) : fold_left Qmin r v <= v.
Proof.
  revert v. induction r as [|y r IH]; intros v; simpl; [apply Qle_refl|].
  apply Qle_trans with (Qmin v y); [apply IH|apply Q.le_min_l].
Qed.

Lemma fold_Qmin_le (r : list Q) (v x : Q) : In x (v :: r) -> fold_left Qmin r v <= x.
Proof.
  intros [<-|H]; [apply fold_Qmin_le_start|].
  revert v. induction r as [|y r IH]; intros v; [contradiction|]. simpl.
  destruct H as [<-|H].
  - apply Qle_trans with (Qmin v y); [apply fold_Qmin_le_start|apply Q.le_min_r].
  - now apply IH.
Qed.

Lemma total_lower_bound (xs : list Q) (m : Q) :
  (forall x, In x xs -> m <= x) -> inject_Z (Z.of_nat (length xs)) * m <= Pandas.total xs.
Proof.
  induction xs as [|x r IH]; intros H.
  - simpl. rewrite Qmult_0_l. apply Qle_refl.
  - change (Pandas.total (x :: r)) with (x + Pandas.total r).
    cbn [length]. rewrite Nat2Z.inj_succ. unfold Z.succ. rewrite inject_Z_plus.
    setoid_replace ((inject_Z (Z.of_nat (length r)) + inject_Z 1) * m)
      with (m + inject_Z (Z.of_nat (length r)) * m) by ring.
    apply Qplus_le_compat; [apply H; now left|]. apply IH. intros y Hy. apply H. now right.
Qed.

Lemma frac_positive_range (xs : list (option Q)) :
  0 <= RuleScoring.frac_positive xs /\ RuleScoring.frac_positive xs <= 1.
Proof.
  unfold RuleScoring.frac_positive.
  pose proof (filter_length_le Pandas.gt_zero xs) as Hle.
  set (c := length (filter Pandas.gt_zero xs)) in *. set (l := length xs) in *.
  destruct l as [|l'].
  - assert (c = 0%nat) by lia. subst c. rewrite H. split; discriminate.
  - assert (Hl : 0 < inject_Z (Z.of_nat (S l'))).
    { change 0 with (inject_Z 0). rewrite <- Zlt_Qlt. lia. }
    split.
    + apply Qle_shift_div_l; [exact Hl|]. rewrite Qmult_0_l.
      change 0 with (inject_Z 0). rewrite <- Zle_Qle. lia.
    + apply Qle_shift_div_r; [exact Hl|]. rewrite Qmult_1_l. rewrite <- Zle_Qle. lia.
Qed.

Lemma min_le_mean (xs : list (option Q)) (m a : Q) :
  Pandas.min xs = Some m -> Pandas.mean xs = Some a -> m <= a.
Proof.
  unfold Pandas.min, Pandas.mean. destruct (Pandas.dropna xs) as [|v r]; [discriminate|].
  intros Hm Ha. inversion Hm; inversion Ha; subst. clear Hm Ha.
  apply Qle_shift_div_l.
  - change 0 with (inject_Z 0). rewrite <- Zlt_Qlt. simpl length. lia.
  - rewrite Qmult_comm. apply (total_lower_bound (v :: r)).
    intros x Hx. now apply fold_Qmin_le.
Qed.

(** X5. Every row of [score_rules] stands for at least one trade; its win
    rate lies between 0 and 1; mean return, worst return and quality score
    are missing together, namely when no trade of the rule has a return; and
    the worst return is never above the mean return. *)
Theorem score_rules_row_bounds (float_repr : Q -> string) (trades : list Trade.t)
        (s : RuleScoring.ScoredRule) :
  In s (RuleScoring.score_rules float_repr trades) ->
  (1 <= RuleScoring.n_trades s)%nat
  /\ 0 <= RuleScoring.win_rate s /\ RuleScoring.win_rate s <= 1
  /\ (RuleScoring.avg_ret_full s = None <-> RuleScoring.max_dd s = None)
  /\ (RuleScoring.rule_quality_score s = None <-> RuleScoring.avg_ret_full s = None)
  /\ (forall a m, RuleScoring.avg_ret_full s = Some a -> RuleScoring.max_dd s = Some m ->
                  m <= a).
Proof.
  rewrite score_rules_rows. intros H. apply in_map_iff in H as (k & <- & Hk).
  cbn [RuleScoring.score_group RuleScoring.n_trades RuleScoring.win_rate
       RuleScoring.avg_ret_full RuleScoring.max_dd RuleScoring.rule_quality_score fst snd].
  set (rows := filter (fun tr => RuleKey.eqb (RuleKey.of_trade tr) k) trades).
  split; [|split; [|split; [|split; [|split]]]].
  - rewrite length_map.
    apply sort_In, unique_incl, in_map_iff in Hk as (tr & <- & Htr).
    assert (Hin : In tr rows) by (apply filter_In; split; [exact Htr|apply RuleKey_eqb_refl]).
    destruct rows; [contradiction|simpl; lia].
  - apply frac_positive_range.
  - apply frac_positive_range.
  - unfold Pandas.mean, Pandas.min.
    destruct (Pandas.dropna (map Trade.ret rows)); split; intros; (reflexivity || discriminate).
  - unfold RuleScoring._compute_rule_quality.
    destruct (Pandas.mean (map Trade.ret rows)); simpl; split; intros;
      (reflexivity || discriminate).
  - intros a m Ha Hm. exact (min_le_mean _ m a Hm Ha).
Qed.

Lemma score_rules_row_bounds_witness :
  exists s, In s (RuleScoring.score_rules Samples.float_repr Samples.one_closed_one_open)
            /\ (1 <= RuleScoring.n_trades s)%nat
            /\ RuleScoring.win_rate s <= 1.
Proof.
  destruct (RuleScoring.score_rules Samples.float_repr Samples.one_closed_one_open)
    as [|s rest] eqn:E; [vm_compute in E; discriminate E|].
  exists s. split; [now left|].
  destruct (score_rules_row_bounds Samples.float_repr Samples.one_closed_one_open s)
    as (Hn & _ & Hw & _); [rewrite E; now left|].
  split; [exact Hn|exact Hw].
Defined.

(** ** Rows of the trade table ([backtest_signals]) *)

Section GeneratedRows.
Import TradeGenerator.

Lemma grid_entries (signals : list Signal.t) (ps : ParamSet) (elag hold : nat) :
  In (ps, elag, hold) (adaptive_rule_grid signals) -> In elag entry_lags /\ In hold holds.
Proof.
  unfold adaptive_rule_grid. intros H.
  apply in_flat_map in H as (ps' & _ & H). apply in_flat_map in H as (e & He & H).
  apply in_map_iff in H as (h & Heq & Hh). inversion Heq; subst. now split.
Qed.

(** Where a row of the table comes from. *)
Lemma backtest_signals_origin (series : Frame.t) (signals : list Signal.t)
      (scored : option (list RuleScoring.ScoredRule)) (tr : Trade.t) :
  In tr (backtest_signals series signals scored) ->
  exists sig ts loc elag hold tr0,
    In sig signals
    /\ Frame.column series (Signal.ticker sig) = Some ts
    /\ Frame.get_loc series (Signal.signal_date sig) = Some loc
    /\ In elag entry_lags /\ In hold holds
    /\ make_trade (Frame.index series) ts sig loc elag hold = Some tr0
    /\ strip_rule tr = strip_rule tr0.
Proof.
  intros H.
  assert (Hdf : exists tr0, In tr0 (flat_map (trades_of_signal series (adaptive_rule_grid signals))
                                             signals)
                            /\ strip_rule tr = strip_rule tr0).
  { unfold backtest_signals in H. destruct scored as [[|r rs]|]; try (now exists tr).
    apply in_flat_map in H as (tr0 & H0 & H). exists tr0. split; [exact H0|].
    unfold attach in H. destruct (filter _ (r :: rs)) as [|m ms].
    - destruct H as [<-|[]]. reflexivity.
    - apply in_map_iff in H as (m' & <- & _). reflexivity. }
  destruct Hdf as (tr0 & H0 & Hs). apply in_flat_map in H0 as (sig & Hsig & H0).
  unfold trades_of_signal in H0.
  destruct (Frame.column series (Signal.ticker sig)) as [ts|] eqn:Hc; [|contradiction].
  destruct (Frame.get_loc series (Signal.signal_date sig)) as [loc|] eqn:Hl; [|contradiction].
  apply in_flat_map in H0 as ([[ps elag] hold] & Hg & H0).
  destruct (params_eqb ps (params_of sig)); [|contradiction].
  destruct (make_trade (Frame.index series) ts sig loc elag hold) as [tr1|] eqn:Hm;
    [|contradiction].
  destruct H0 as [<-|[]]. apply grid_entries in Hg as [He Hh].
  exists sig, ts, loc, elag, hold, tr1. repeat split; assumption.
Qed.

(** What [make_trade] writes into a row. *)
Lemma make_trade_fields (dates : list Z) (ts : list Q) (sig : Signal.t)
      (loc elag hold : nat) (tr : Trade.t) :
  make_trade dates ts sig loc elag hold = Some tr ->
  (loc + elag < length ts)%nat
  /\ Trade.entry_lag tr = elag /\ Trade.hold_days tr = hold
  /\ Trade.ticker tr = Signal.ticker sig /\ Trade.group tr = Signal.group sig
  /\ Trade.direction tr = Signal.direction sig
  /\ Trade.signal_date tr = Signal.signal_date sig
  /\ Trade.entry_date tr = nth (loc + elag) dates 0%Z
  /\ Trade.is_open tr = negb (Pandas.notna (Trade.exit_date tr))
  /\ ((loc + elag + hold < length ts)%nat ->
      Trade.exit_date tr = Some (nth (loc + elag + hold) dates 0%Z)
      /\ Trade.ret tr = Some ((nth (loc + elag + hold) ts 0 / nth (loc + elag) ts 0 - 1)
                              * inject_Z (Signal.direction sig)))
  /\ ((length ts <= loc + elag + hold)%nat ->
      Trade.exit_date tr = None /\ Trade.ret tr = None).
Proof.
  unfold make_trade. destruct (Nat.leb_spec (length ts) (loc + elag)); [discriminate|].
  destruct (Nat.ltb_spec (loc + elag + hold) (length ts)); intros E; inversion E; subst tr;
    simpl; repeat split; intros; try lia; reflexivity.
Qed.
End GeneratedRows.

(** X6. In every row of the trade table, whether or not scored rules were
    joined on, [is_open] is set exactly when the exit date is missing, and the
    exit date is missing exactly when the return is; the entry lag is one of
    0, 1, 2, 3 and the holding period one of 3, 5, 7, 10. *)
Theorem trade_rows_consistent (series : Frame.t) (signals : list Signal.t)
        (scored : option (list RuleScoring.ScoredRule)) (tr : Trade.t) :
  In tr (TradeGenerator.backtest_signals series signals scored) ->
  (Trade.is_open tr = true <-> Trade.exit_date tr = None)
  /\ (Trade.exit_date tr = None <-> Trade.ret tr = None)
  /\ In (Trade.entry_lag tr) [0; 1; 2; 3]%nat
  /\ In (Trade.hold_days tr) [3; 5; 7; 10]%nat.
Proof.
  intros H.
  destruct (backtest_signals_origin series signals scored tr H)
    as (sig & ts & loc & elag & hold & tr0 & _ & _ & _ & He & Hh & Hm & Hs).
  assert (Hf : Trade.is_open tr = Trade.is_open tr0 /\ Trade.exit_date tr = Trade.exit_date tr0
               /\ Trade.ret tr = Trade.ret tr0 /\ Trade.entry_lag tr = Trade.entry_lag tr0
               /\ Trade.hold_days tr = Trade.hold_days tr0).
  { unfold strip_rule in Hs. inversion Hs. repeat split; assumption. }
  destruct Hf as (-> & -> & -> & -> & ->).
  destruct (make_trade_fields _ _ _ _ _ _ _ Hm)
    as (_ & -> & -> & _ & _ & _ & _ & _ & Ho & Hin & Hout).
  rewrite Ho. split; [|split; [|split; [exact He|exact Hh]]].
  - destruct (Trade.exit_date tr0); simpl; split; intros; (reflexivity || discriminate).
  - destruct (Nat.lt_ge_cases (loc + elag + hold) (length ts)) as [Hlt|Hge].
    + destruct (Hin Hlt) as [-> ->]. split; discriminate.
    + destruct (Hout Hge) as [-> ->]. tauto.
Qed.

Lemma trade_rows_consistent_witness :
  exists tr, In tr (TradeGenerator.backtest_signals Samples.midstream [Samples.late_signal] None)
             /\ (Trade.is_open tr = true <-> Trade.exit_date tr = None)
             /\ In (Trade.hold_days tr) [3; 5; 7; 10]%nat.
Proof.
  destruct (TradeGenerator.backtest_signals Samples.midstream [Samples.late_signal] None)
    as [|tr rest] eqn:E; [vm_compute in E; discriminate E|].
  exists tr. split; [now left|].
  destruct (trade_rows_consistent Samples.midstream [Samples.late_signal] None tr)
    as (Ho & _ & _ & Hh); [rewrite E; now left|].
  split; [exact Ho|exact Hh].
Defined.

Lemma column_length (f : Frame.t) (ticker : string) (ts : list Q) :
  Frame.column f ticker = Some ts -> length ts = length (Frame.rows f).
Proof.
  unfold Frame.column. destruct (Frame.position String.eqb ticker (Frame.columns f));
    [|discriminate].
  intros E. inversion E. apply length_map.
Qed.

Lemma position_nth (x : Z) (l : list Z) (i : nat) :
  Frame.position Z.eqb x l = Some i -> (i < length l)%nat /\ nth i l 0%Z = x.
Proof.
  revert i. induction l as [|y r IH]; intros i; simpl; [discriminate|].
  destruct (Z.eqb_spec x y) as [->|Hne].
  - intros E. inversion E. split; [lia|reflexivity].
  - destruct (Frame.position Z.eqb x r) as [j|]; [|discriminate].
    intros E. inversion E. destruct (IH j eq_refl). split; [lia|assumption].
Qed.

Lemma sorted_nth_lt (l : list Z) (i j : nat) :
  StronglySorted Z.lt l -> (i < j)%nat -> (j < length l)%nat ->
  (nth i l 0 < nth j l 0)%Z.
Proof.
  intros Hs. revert i j. induction Hs as [|x l Hs IH Hall]; intros i j Hij Hj;
    [simpl in Hj; lia|].
  destruct j as [|j]; [lia|]. simpl in Hj. destruct i as [|i]; simpl.
  - rewrite Forall_forall in Hall. apply Hall. apply nth_In. lia.
  - apply IH; lia.
Qed.

(** X7. When the dates of the price table increase strictly and every date
    has its row of prices, each trade enters on a date of the table that is
    not before its signal date, and a closed trade exits on a date of the
    table strictly after its entry date. *)
Theorem trade_dates_ordered (series : Frame.t) (signals : list Signal.t)
        (scored : option (list RuleScoring.ScoredRule)) (tr : Trade.t) :
  StronglySorted Z.lt (Frame.index series) ->
  length (Frame.rows series) = length (Frame.index series) ->
  In tr (TradeGenerator.backtest_signals series signals scored) ->
  (Trade.signal_date tr <= Trade.entry_date tr)%Z
  /\ In (Trade.entry_date tr) (Frame.index series)
  /\ (forall e, Trade.exit_date tr = Some e ->
                (Trade.entry_date tr < e)%Z /\ In e (Frame.index series)).
Proof.
  intros Hsorted Hlen H.
  destruct (backtest_signals_origin series signals scored tr H)
    as (sig & ts & loc & elag & hold & tr0 & _ & Hc & Hl & He & Hh & Hm & Hs).
  assert (Hf : Trade.signal_date tr = Trade.signal_date tr0
               /\ Trade.entry_date tr = Trade.entry_date tr0
               /\ Trade.exit_date tr = Trade.exit_date tr0).
  { unfold strip_rule in Hs. inversion Hs. repeat split; assumption. }
  destruct Hf as (-> & -> & ->).
  apply column_length in Hc. rewrite Hlen in Hc.
  destruct (position_nth _ _ _ Hl) as [Hloc Hdate].
  destruct (make_trade_fields _ _ _ _ _ _ _ Hm)
    as (Hentry & _ & _ & _ & _ & _ & -> & -> & _ & Hin & Hout).
  rewrite Hc in Hentry, Hin, Hout. split; [|split].
  - rewrite <- Hdate. destruct elag as [|elag]; [rewrite Nat.add_0_r; lia|].
    apply Z.lt_le_incl. apply sorted_nth_lt; [assumption|lia|assumption].
  - now apply nth_In.
  - intros e Hexit.
    destruct (Nat.lt_ge_cases (loc + elag + hold) (length (Frame.index series))) as [Hlt|Hge].
    + destruct (Hin Hlt) as [Hx _]. rewrite Hx in Hexit. inversion Hexit; subst e. split.
      * apply sorted_nth_lt; [assumption| |assumption].
        assert (Hpos : (0 < hold)%nat)
          by (unfold TradeGenerator.holds in Hh; simpl in Hh; lia).
        lia.
      * now apply nth_In.
    + destruct (Hout Hge) as [Hx _]. rewrite Hx in Hexit. discriminate.
Qed.

Lemma trade_dates_ordered_witness :
  exists tr, In tr (TradeGenerator.backtest_signals Samples.midstream [Samples.late_signal] None)
             /\ (Trade.signal_date tr <= Trade.entry_date tr)%Z
             /\ In (Trade.entry_date tr) (Frame.index Samples.midstream).
Proof.
  destruct (TradeGenerator.backtest_signals Samples.midstream [Samples.late_signal] None)
    as [|tr rest] eqn:E; [vm_compute in E; discriminate E|].
  exists tr. split; [now left|].
  destruct (trade_dates_ordered Samples.midstream [Samples.late_signal] None tr)
    as (Hs & Hi & _).
  - repeat constructor.
  - reflexivity.
  - rewrite E. now left.
  - split; [exact Hs|exact Hi].
Defined.

Lemma flat_map_length_bound {A B : Type} (f : A -> list B) (g : A -> bool) (k : nat)
      (l : list A) :
  (forall x, In x l -> (length (f x) <= if g x then k else 0)%nat) ->
  (length (flat_map f l) <= k * length (filter g l))%nat.
Proof.
  induction l as [|x r IH]; intros H; simpl; [lia|].
  rewrite length_app. specialize (H x (or_introl eq_refl)) as Hx.
  assert (Hr : (length (flat_map f r) <= k * length (filter g r))%nat)
    by (apply IH; intros; apply H; now right).
  destruct (g x); simpl; lia.
Qed.

Lemma rows_for_length (dates : list Z) (ts : list Q) (sig : Signal.t) (loc : nat) :
  (length (TradeGenerator.rows_for dates ts sig loc) <= 16)%nat.
Proof.
  unfold TradeGenerator.rows_for.
  assert (Hinner : forall elag,
             (length (flat_map (fun hold =>
                                  match TradeGenerator.make_trade dates ts sig loc elag hold with
                                  | Some tr => [tr]
                                  | None => []
                                  end) TradeGenerator.holds) <= 4)%nat).
  { intros elag.
    etransitivity; [apply (flat_map_length_bound _ (fun _ => true) 1)|].
    - intros h _. destruct (TradeGenerator.make_trade dates ts sig loc elag h); simpl; lia.
    - simpl. lia. }
  etransitivity; [apply (flat_map_length_bound _ (fun _ => true) 4)|].
  - intros e _. apply Hinner.
  - simpl. lia.
Qed.

(** X8. Every row of the trade table stems from a signal of the list whose
    instrument is a column of the price table and whose date is in its index,
    and repeats that signal's instrument, sector, direction, date and
    detection parameters.  Signals that fail either test leave no trace, and
    a signal yields at most sixteen rows. *)
Theorem trade_rows_from_known_signals (series : Frame.t) (signals : list Signal.t)
        (scored : option (list RuleScoring.ScoredRule)) :
  (forall tr, In tr (TradeGenerator.backtest_signals series signals scored) ->
     exists sig, In sig signals /\ known_signal series sig = true
                 /\ Trade.ticker tr = Signal.ticker sig
                 /\ Trade.group tr = Signal.group sig
                 /\ Trade.direction tr = Signal.direction sig
                 /\ Trade.signal_date tr = Signal.signal_date sig
                 /\ Trade.lookback tr = Signal.lookback sig
                 /\ Trade.group_thresh tr = Signal.group_thresh sig
                 /\ Trade.participation tr = Signal.participation sig
                 /\ Trade.lagger_max_move tr = Signal.lagger_max_move sig)
  /\ (length (TradeGenerator.backtest_signals series signals None)
      <= 16 * length (filter (known_signal series) signals))%nat.
Proof.
  split.
  - intros tr H.
    destruct (backtest_signals_origin series signals scored tr H)
      as (sig & ts & loc & elag & hold & tr0 & Hsig & Hc & Hl & _ & _ & Hm & Hs).
    exists sig. split; [exact Hsig|]. split; [unfold known_signal; now rewrite Hc, Hl|].
    unfold strip_rule in Hs. inversion Hs.
    unfold TradeGenerator.make_trade in Hm.
    destruct (length ts <=? loc + elag)%nat; [discriminate|].
    destruct (loc + elag + hold <? length ts)%nat; inversion Hm; subst tr0; simpl in *;
      repeat split; assumption.
  - unfold TradeGenerator.backtest_signals.
    apply flat_map_length_bound. intros sig Hsig. unfold known_signal.
    destruct (Frame.column series (Signal.ticker sig)) as [ts|] eqn:Hc.
    + destruct (Frame.get_loc series (Signal.signal_date sig)) as [loc|] eqn:Hl.
      * rewrite (trades_of_signal_rows series signals sig ts loc Hsig Hc Hl).
        apply rows_for_length.
      * unfold TradeGenerator.trades_of_signal. rewrite Hc, Hl. simpl. lia.
    + unfold TradeGenerator.trades_of_signal. rewrite Hc. simpl. lia.
Qed.

(** ** The two passes of the trade generator *)

Lemma scored_key_count (float_repr : Q -> string) (trades : list Trade.t) (k : RuleKey.t) :
  length (filter (fun s => RuleKey.eqb (RuleScoring.key s) k)
                 (RuleScoring.score_rules float_repr trades))
  = if existsb (fun tr => RuleKey.eqb (RuleKey.of_trade tr) k) trades then 1%nat else 0%nat.
Proof.
  rewrite score_rules_rows, <- group_keys_count.
  generalize (Pandas.sort RuleKey.leb
                (RuleScoring.unique RuleKey.eqb (map RuleKey.of_trade trades))).
  induction l as [|x r IH]; [reflexivity|].
  cbn [map filter RuleScoring.score_group RuleScoring.key fst].
  destruct (RuleKey.eqb x k); cbn [length]; now rewrite IH.
Qed.

(** A trade of the scored table matches exactly one scored rule. *)
Lemma scored_match_one (float_repr : Q -> string) (trades : list Trade.t) (tr : Trade.t) :
  In tr trades ->
  exists s, filter (fun r => RuleKey.eqb (RuleKey.of_trade tr) (RuleScoring.key r))
                   (RuleScoring.score_rules float_repr trades) = [s].
Proof.
  intros Hin.
  pose proof (scored_key_count float_repr trades (RuleKey.of_trade tr)) as Hc.
  rewrite (filter_ext _ (fun r => RuleKey.eqb (RuleKey.of_trade tr) (RuleScoring.key r))) in Hc
    by (intros; apply RuleKey_eqb_sym).
  replace (existsb _ trades) with true in Hc.
  - destruct (filter _ (RuleScoring.score_rules float_repr trades)) as [|s [|s' r]];
      try discriminate. now exists s.
  - symmetry. apply existsb_exists. exists tr. split; [exact Hin|apply RuleKey_eqb_refl].
Qed.

(** X9. Scoring the first-pass table and generating the trades again with
    those scores neither drops nor repeats a row: the second table is the
    first one, row by row, with the identifier and the quality score of the
    one scored rule that has the row's key. *)
Theorem second_pass_attaches_rules (float_repr : Q -> string) (series : Frame.t)
        (signals : list Signal.t) :
  let first := TradeGenerator.backtest_signals series signals None in
  let scores := RuleScoring.score_rules float_repr first in
  Forall2 (fun b a =>
             strip_rule b = strip_rule a
             /\ exists s, In s scores
                          /\ RuleKey.eqb (RuleKey.of_trade a) (RuleScoring.key s) = true
                          /\ Trade.rule_id b = Some (RuleScoring.rule_id s)
                          /\ Trade.rule_quality_score b = RuleScoring.rule_quality_score s)
          (TradeGenerator.backtest_signals series signals (Some scores)) first.
Proof.
  intros first scores.
  assert (Hdf : TradeGenerator.backtest_signals series signals (Some scores)
                = match scores with
                  | [] => first
                  | _ :: _ => flat_map (TradeGenerator.attach scores) first
                  end).
  { unfold TradeGenerator.backtest_signals. fold first. now destruct scores. }
  rewrite Hdf. clear Hdf.
  assert (Hone : forall tr, In tr first ->
                   exists s, filter (fun r => RuleKey.eqb (RuleKey.of_trade tr)
                                                          (RuleScoring.key r)) scores = [s])
    by (intros; now apply scored_match_one).
  clearbody scores. clearbody first.
  destruct scores as [|r rs] eqn:Es.
  - destruct first as [|tr ?]; [constructor|].
    destruct (Hone tr (or_introl eq_refl)) as (s & Hs). discriminate Hs.
  - rewrite <- Es in *. clear Es r rs.
    induction first as [|tr l IH]; [constructor|].
    cbn [flat_map]. destruct (Hone tr (or_introl eq_refl)) as (s & Hs).
    unfold TradeGenerator.attach at 1. rewrite Hs. cbn [map app].
    constructor.
    + split; [reflexivity|]. exists s.
      assert (Hin : In s (filter (fun r => RuleKey.eqb (RuleKey.of_trade tr)
                                                       (RuleScoring.key r)) scores))
        by (rewrite Hs; now left).
      apply filter_In in Hin as [Hin Hk]. repeat split; assumption.
    + apply IH. intros x Hx. apply Hone. now right.
Qed.

(** ** Signals of one sector ([_detect_lag_signals_for_group]) *)

Section DetectedSignals.
Import LagDetector.

Lemma decide_direction_values (fu fd part : Q) (d : Z) :
  decide_direction fu fd part = Some d -> d = 1%Z \/ d = (-1)%Z.
Proof.
  unfold decide_direction.
  destruct (Qle_bool part fu && Qle_bool fd fu); [intros E; inversion E; now left|].
  destruct (Qle_bool part fd && Qltb fu fd); [intros E; inversion E; now right|discriminate].
Qed.

Lemma collect_In (l : list (option (list Signal.t))) (sigs : list Signal.t) (s : Signal.t) :
  collect l = Some sigs -> In s sigs -> exists w, In (Some w) l /\ In s w.
Proof.
  revert sigs. induction l as [|[w|] r IH]; intros sigs H Hin; simpl in H.
  - inversion H; subst. contradiction.
  - destruct (collect r) as [rest|]; [|discriminate]. inversion H; subst.
    apply in_app_or in Hin as [Hin|Hin].
    + exists w. split; [now left|exact Hin].
    + destruct (IH rest eq_refl Hin) as (w' & Hw & Hs). exists w'. split; [now right|exact Hs].
  - discriminate.
Qed.

Lemma collect_None (l : list (option (list Signal.t))) :
  collect l = None <-> In None l.
Proof.
  induction l as [|[w|] r IH]; simpl.
  - split; [discriminate|contradiction].
  - destruct (collect r); simpl.
    + split; [discriminate|]. intros [H|H]; [discriminate|]. apply IH in H. discriminate.
    + split; [intros _; right; now apply IH|reflexivity].
  - split; [now left|reflexivity].
Qed.

(** What holds of every signal a window emits. *)
Lemma window_signals_inv (g : string) (lb : nat) (gt part lmm : Q) (dir : string)
      (n : nat) (sd ed : Z) (rets : list (string * Q)) (sigs : list Signal.t) (s : Signal.t) :
  window_signals g lb gt part lmm dir n sd ed rets = Some sigs -> In s sigs ->
  (Signal.direction s = 1%Z \/ Signal.direction s = (-1)%Z)
  /\ (2 <= length (Signal.leaders s))%nat
  /\ ~ In (Signal.ticker s) (Signal.leaders s)
  /\ Qabs (Signal.lagger_ret s) <= lmm
  /\ In (Signal.ticker s, Signal.lagger_ret s) rets
  /\ (forall l, In l (Signal.leaders s) ->
                exists r, In (l, r) rets
                          /\ (Signal.direction s = 1%Z -> gt <= r)
                          /\ (Signal.direction s = (-1)%Z -> r <= - gt))
  /\ Signal.window_rets s = rets /\ Signal.signal_date s = ed /\ Signal.start_date s = sd
  /\ Signal.group s = g /\ Signal.lookback s = lb /\ Signal.group_thresh s = gt
  /\ Signal.participation s = part /\ Signal.lagger_max_move s = lmm.
Proof.
  unfold window_signals. destruct (below_noise_floor (map snd rets));
    [intros E; inversion E; subst; contradiction|].
  set (ups := if wants dir "up" then movers_up gt rets else []).
  set (downs := if wants dir "down" then movers_down gt rets else []).
  destruct (if wants dir "up" then fraction (length ups) n else Some 0) as [fu|];
    [|discriminate].
  destruct (if wants dir "down" then fraction (length downs) n else Some 0) as [fd|];
    [|discriminate].
  destruct (decide_direction fu fd part) as [d|] eqn:Hd;
    [|intros E; inversion E; subst; contradiction].
  apply decide_direction_values in Hd.
  set (leaders := map fst (if (d =? 1)%Z then ups else downs)).
  destruct (Nat.ltb_spec (length leaders) MIN_LEADERS_PER_SIGNAL) as [Hl|Hl];
    [intros E; inversion E; subst; contradiction|].
  destruct (length (find_laggers lmm leaders rets) <? MIN_LAGGERS_PER_SIGNAL)%nat;
    [intros E; inversion E; subst; contradiction|].
  intros E Hin. inversion E; subst sigs. clear E.
  apply in_map_iff in Hin as ([t r] & <- & Hlag). apply find_laggers_In in Hlag as (Hr & Ha & Hn).
  cbn [emit Signal.direction Signal.leaders Signal.ticker Signal.lagger_ret Signal.window_rets
       Signal.signal_date Signal.start_date Signal.group Signal.lookback Signal.group_thresh
       Signal.participation Signal.lagger_max_move fst snd].
  split; [exact Hd|]. split; [exact Hl|]. split; [exact Hn|]. split; [exact Ha|].
  split; [exact Hr|]. split; [|repeat split].
  intros l Hlin. unfold leaders in Hlin. apply in_map_iff in Hlin as ([l' r'] & <- & Hm).
  exists r'. simpl.
  destruct Hd as [-> | ->]; simpl in Hm.
  - unfold ups in Hm. destruct (wants dir "up"); [|contradiction].
    apply filter_In in Hm as [Hm Hge]. simpl in Hge. apply Qle_bool_iff in Hge.
    split; [exact Hm|]. split; [intros _; exact Hge|discriminate].
  - unfold downs in Hm. destruct (wants dir "down"); [|contradiction].
    apply filter_In in Hm as [Hm Hge]. simpl in Hge. apply Qle_bool_iff in Hge.
    split; [exact Hm|]. split; [discriminate|intros _; exact Hge].
Qed.
End DetectedSignals.

(** X10. Every signal of a sector scan points up or down, has at least two
    leaders, is for an instrument of the sector that is not one of its
    leaders and moved at most [lagger_max_move] over the window, while every
    leader moved at least [group_thresh] in the direction of the signal; it
    is dated at the end of a full window of the table and carries the
    parameters of the scan. *)
Theorem detected_signals_wellformed
        (group_name : string) (lookback : nat) (group_thresh participation lagger_max_move : Q)
        (direction : string) (series_group : Frame.t) (sigs : list Signal.t) (s : Signal.t) :
  LagDetector._detect_lag_signals_for_group group_name lookback group_thresh participation
    lagger_max_move direction series_group = Some sigs ->
  In s sigs ->
  (Signal.direction s = 1%Z \/ Signal.direction s = (-1)%Z)
  /\ (2 <= length (Signal.leaders s))%nat
  /\ In (Signal.ticker s) (Frame.columns series_group)
  /\ ~ In (Signal.ticker s) (Signal.leaders s)
  /\ Qabs (Signal.lagger_ret s) <= lagger_max_move
  /\ In (Signal.ticker s, Signal.lagger_ret s) (Signal.window_rets s)
  /\ (forall l, In l (Signal.leaders s) ->
                exists r, In (l, r) (Signal.window_rets s)
                          /\ (Signal.direction s = 1%Z -> group_thresh <= r)
                          /\ (Signal.direction s = (-1)%Z -> r <= - group_thresh))
  /\ (exists end_idx,
         (lookback <= end_idx < length (Frame.rows series_group))%nat
         /\ Signal.signal_date s = nth end_idx (Frame.index series_group) 0%Z
         /\ Signal.start_date s = nth (end_idx - lookback) (Frame.index series_group) 0%Z
         /\ Signal.window_rets s
            = LagDetector.window_returns (Frame.columns series_group)
                (nth (end_idx - lookback) (Frame.rows series_group) [])
                (nth end_idx (Frame.rows series_group) []))
  /\ Signal.group s = group_name /\ Signal.lookback s = lookback
  /\ Signal.group_thresh s = group_thresh /\ Signal.participation s = participation
  /\ Signal.lagger_max_move s = lagger_max_move.
Proof.
  unfold LagDetector._detect_lag_signals_for_group. intros H Hin.
  destruct (collect_In _ _ _ H Hin) as (w & Hw & Hs).
  apply in_map_iff in Hw as (end_idx & Hw & Hidx). apply in_seq in Hidx.
  destruct (window_signals_inv _ _ _ _ _ _ _ _ _ _ _ _ Hw Hs)
    as (Hd & Hl & Hn & Ha & Hr & Hlead & Hrets & Hed & Hsd & Hg & Hlb & Hgt & Hp & Hlm).
  split; [exact Hd|]. split; [exact Hl|]. split.
  { unfold LagDetector.window_returns in Hr. now apply in_combine_l in Hr. }
  split; [exact Hn|]. split; [exact Ha|]. split; [now rewrite Hrets|].
  split; [now rewrite Hrets|]. split.
  { exists end_idx. split; [lia|]. repeat split; assumption. }
  repeat split; assumption.
Qed.

Lemma detected_signals_wellformed_witness :
  exists s sigs,
    LagDetector._detect_lag_signals_for_group "MIDSTREAM_1" 1 (3 # 100) (6 # 10) (1 # 100)
      "both" Samples.midstream = Some sigs
    /\ In s sigs
    /\ (2 <= length (Signal.leaders s))%nat
    /\ ~ In (Signal.ticker s) (Signal.leaders s).
Proof.
  destruct (LagDetector._detect_lag_signals_for_group "MIDSTREAM_1" 1 (3 # 100) (6 # 10)
              (1 # 100) "both" Samples.midstream) as [[|s rest]|] eqn:E;
    try (vm_compute in E; discriminate E).
  exists s, (s :: rest). split; [reflexivity|]. split; [now left|].
  destruct (detected_signals_wellformed "MIDSTREAM_1" 1 (3 # 100) (6 # 10) (1 # 100) "both"
              Samples.midstream (s :: rest) s E (or_introl eq_refl))
    as (_ & Hl & _ & Hn & _).
  split; [exact Hl|exact Hn].
Defined.

(** X11. A table with no more rows than the lookback yields no signal and
    no error.  Scanning both directions fails, with a division by zero,
    exactly when the table has no column and at least one full window. *)
Theorem detector_degenerate_tables
        (group_name : string) (lookback : nat) (group_thresh participation lagger_max_move : Q)
        (series_group : Frame.t) :
  (forall direction,
      (length (Frame.rows series_group) <= lookback)%nat ->
      LagDetector._detect_lag_signals_for_group group_name lookback group_thresh
        participation lagger_max_move direction series_group = Some [])
  /\ (LagDetector._detect_lag_signals_for_group group_name lookback group_thresh
        participation lagger_max_move "both" series_group = None
      <-> Frame.columns series_group = []
          /\ (lookback < length (Frame.rows series_group))%nat).
Proof.
  split.
  - intros direction Hshort. unfold LagDetector._detect_lag_signals_for_group.
    replace (length (Frame.rows series_group) - lookback)%nat with 0%nat by lia. reflexivity.
  - unfold LagDetector._detect_lag_signals_for_group. rewrite collect_None, in_map_iff. split.
    + intros (end_idx & Hw & Hidx). apply in_seq in Hidx.
      unfold LagDetector.window_signals in Hw.
      destruct (LagDetector.below_noise_floor _); [discriminate|].
      change (LagDetector.wants "both" "up") with true in Hw.
      change (LagDetector.wants "both" "down") with true in Hw. cbv iota in Hw.
      destruct (length (Frame.columns series_group)) as [|k] eqn:Hk.
      * apply length_zero_iff_nil in Hk. split; [exact Hk|lia].
      * exfalso. unfold LagDetector.fraction in Hw.
        destruct (LagDetector.decide_direction _ _ participation) as [d|]; [|discriminate].
        destruct (_ <? LagDetector.MIN_LEADERS_PER_SIGNAL)%nat; [discriminate|].
        destruct (_ <? LagDetector.MIN_LAGGERS_PER_SIGNAL)%nat; discriminate.
    + intros [Hc Hlt]. exists lookback. split; [|apply in_seq; lia].
      rewrite Hc. reflexivity.
Qed.

(** ** Rejection reasons of the sector gate ([_evaluate_sector_weighted_strict]) *)

(** X12. A sector is flagged investable exactly when its list of reasons is
    empty.  The reasons are the failed criteria in the order mean, win rate,
    Sharpe, Sortino, stability, drawdown, each once, and each line shows the
    sector's own value of the metric it speaks of. *)
Theorem gate_reasons (p : SectorFilters.StrictParams) (row : SectorFilters.SectorMetrics) :
  (fst (SectorFilters._evaluate_sector_weighted_strict p row) = true
   <-> snd (SectorFilters._evaluate_sector_weighted_strict p row) = [])
  /\ map criterion_of (snd (SectorFilters._evaluate_sector_weighted_strict p row))
     = filter (SectorFilters.fails p row) SectorFilters.all_thresholds
  /\ (forall r, In r (snd (SectorFilters._evaluate_sector_weighted_strict p row)) ->
                reason_value r = SectorFilters.metric_of (criterion_of r) row).
Proof.
  unfold SectorFilters._evaluate_sector_weighted_strict, SectorFilters.check,
    SectorFilters.all_thresholds, SectorFilters.fails, SectorFilters.Qltb.
  cbn [filter SectorFilters.metric_of SectorFilters.floor_of].
  destruct (LagDetector.Qltb (SectorFilters.mean row) (SectorFilters.min_mean p));
    destruct (LagDetector.Qltb (SectorFilters.win_rate row) (SectorFilters.min_win_rate p));
    destruct (LagDetector.Qltb (SectorFilters.sharpe row) (SectorFilters.min_sharpe p));
    destruct (LagDetector.Qltb (SectorFilters.sortino row) (SectorFilters.min_sortino p));
    destruct (LagDetector.Qltb (SectorFilters.stability row) (SectorFilters.min_stability p));
    destruct (LagDetector.Qltb (SectorFilters.max_dd row) (SectorFilters.min_max_dd p));
    cbn [fst snd app map criterion_of];
    (split; [split; (reflexivity || discriminate)|]);
    (split; [reflexivity|]);
    intros r Hr; simpl in Hr; decompose [or] Hr; subst; try contradiction; reflexivity.
Qed.

(** ** The ledger of the portfolio replay ([_run_static_portfolio]) *)

Section Ledger.
Import Portfolio.

Lemma sort_length {A : Type} (leb : A -> A -> bool) (l : list A) :
  length (Pandas.sort leb l) = length l.
Proof. apply Permutation_length, sort_perm. Qed.

Lemma sorted_rows_length (tbl : list Trade.t) : length (sorted_rows tbl) = length tbl.
Proof.
  unfold sorted_rows. cbv zeta.
  etransitivity; [apply length_combine|]. rewrite length_seq, Nat.min_id. apply sort_length.
Qed.

Lemma NoDup_combine_l {A B : Type} (l1 : list A) (l2 : list B) :
  NoDup l1 -> NoDup (combine l1 l2).
Proof.
  intros H. revert l2. induction H as [|x l1 Hx Hnd IH]; intros [|y l2]; simpl;
    try constructor.
  - intros Hin. apply in_combine_l in Hin. contradiction.
  - apply IH.
Qed.

Lemma sorted_rows_labels (tbl : list Trade.t) : NoDup (map fst (sorted_rows tbl)).
Proof.
  unfold sorted_rows. cbv zeta.
  assert (H : forall (l1 : list nat) (l2 : list Trade.t),
             length l1 = length l2 -> map fst (combine l1 l2) = l1).
  { induction l1 as [|a l1 IH]; intros [|b l2] Hl; simpl in *; try discriminate;
      [reflexivity|]. f_equal. apply IH. now inversion Hl. }
  rewrite H by apply length_seq. apply seq_NoDup.
Qed.

Lemma sorted_rows_NoDup (tbl : list Trade.t) : NoDup (sorted_rows tbl).
Proof. unfold sorted_rows. cbv zeta. apply NoDup_combine_l, seq_NoDup. Qed.

(** The admission loop lets in the head of today's list, as far as there is room. *)
Lemma take_all_shape (todays opened : list Row) :
  fold_left take todays opened
  = opened ++ firstn (MAX_CONCURRENT_TRADES - length opened) todays.
Proof.
  unfold take. generalize MAX_CONCURRENT_TRADES as K. intros K.
  revert opened. induction todays as [|t r IH]; intros opened; cbn [fold_left].
  - now rewrite firstn_nil, app_nil_r.
  - rewrite IH.
    destruct (Nat.ltb_spec (length opened) K) as [Hlt|Hge].
    + rewrite length_app. cbn [length].
      replace (K - length opened)%nat with (S (K - (length opened + 1)))%nat by lia.
      cbn [firstn]. now rewrite <- app_assoc.
    + replace (K - length opened)%nat with 0%nat by lia. reflexivity.
Qed.

Lemma filter_split_perm {A : Type} (f : A -> bool) (l : list A) :
  Permutation (filter (fun x => negb (f x)) l ++ filter f l) l.
Proof.
  induction l as [|x r IH]; simpl; [constructor|].
  destruct (f x); simpl.
  - apply Permutation_sym, Permutation_cons_app, Permutation_sym, IH.
  - now constructor.
Qed.

Lemma prioritise_perm (todays : list Row) : Permutation (prioritise todays) todays.
Proof. unfold prioritise. destruct (existsb _ _); apply sort_perm. Qed.

Lemma perm_shuffle {A : Type} (a b c d : list A) :
  Permutation (a ++ (b ++ c) ++ d) ((b ++ a) ++ d ++ c).
Proof.
  rewrite <- !app_assoc. rewrite (app_assoc a b), (app_assoc b a).
  apply Permutation_app; apply Permutation_app_comm.
Qed.

Lemma firstn_NoDup {A : Type} (n : nat) (l : list A) : NoDup l -> NoDup (firstn n l).
Proof.
  intros H. revert n. induction H as [|x l Hx Hnd IH]; intros [|n]; simpl; try constructor.
  - intros Hin. apply Hx. eapply firstn_incl, Hin.
  - apply IH.
Qed.

Lemma filter_NoDup {A : Type} (f : A -> bool) (l : list A) : NoDup l -> NoDup (filter f l).
Proof.
  induction 1 as [|x l Hx Hnd IH]; simpl; [constructor|].
  destruct (f x); [|exact IH]. constructor; [|exact IH].
  intros Hin. apply filter_In in Hin as [Hin _]. contradiction.
Qed.

Variable trades : list Row.
Hypothesis trades_NoDup : NoDup trades.

Lemma day_step_NoDup (days0 : list Z) (st : SimState) (d : Z) :
  ~ In d days0 -> entered_on trades days0 st ->
  NoDup (open_trades st ++ used_trades st) ->
  NoDup (open_trades (day_step trades st d) ++ used_trades (day_step trades st d)).
Proof.
  intros Hd Hent Hnd. unfold day_step, release. cbn [open_trades used_trades].
  rewrite take_all_shape.
  set (exited := fun tr : Row => Pandas.date_lt (Trade.exit_date (snd tr)) d).
  set (new := firstn _ _).
  apply (Permutation_NoDup (l := new ++ (open_trades st ++ used_trades st))).
  - apply Permutation_trans with
      (new ++ (filter (fun tr => negb (exited tr)) (open_trades st)
                 ++ filter exited (open_trades st)) ++ used_trades st).
    + apply Permutation_app_head, Permutation_app_tail, Permutation_sym, filter_split_perm.
    + apply perm_shuffle.
  - apply NoDup_app; [| exact Hnd |].
    + unfold new. apply firstn_NoDup.
      eapply Permutation_NoDup; [apply Permutation_sym, prioritise_perm|].
      now apply filter_NoDup.
    + intros x Hx Hold. unfold new in Hx. apply firstn_incl in Hx.
      apply prioritise_In, filter_In in Hx as [_ Hx]. apply Z.eqb_eq in Hx.
      apply Hd. rewrite <- Hx. apply (Hent x). apply in_app_or in Hold. tauto.
Qed.

Lemma run_NoDup (days0 days : list Z) (st : SimState) :
  NoDup (days0 ++ days) -> entered_on trades days0 st ->
  NoDup (open_trades st ++ used_trades st) ->
  NoDup (open_trades (fold_left (day_step trades) days st)
         ++ used_trades (fold_left (day_step trades) days st)).
Proof.
  revert days0 st. induction days as [|d r IH]; intros days0 st Hd Hent Hnd; simpl;
    [exact Hnd|].
  apply (IH (days0 ++ [d])).
  - now rewrite <- app_assoc.
  - apply (run_entered trades days0 [d] st Hent).
  - apply (day_step_NoDup days0); [|exact Hent|exact Hnd].
    apply NoDup_remove_2 in Hd. intros Hin. apply Hd, in_or_app. now left.
Qed.
End Ledger.

Lemma NoDup_map_incl {A B : Type} (f : A -> B) (l L : list A) :
  NoDup (map f L) -> NoDup l -> incl l L -> NoDup (map f l).
Proof.
  intros HL Hl Hincl. induction Hl as [|a l Ha Hnd IH]; simpl; constructor.
  - intros Hin. apply in_map_iff in Hin as (b & Hfb & Hb). apply Ha.
    replace a with b; [exact Hb|].
    assert (Hinj : forall L0, NoDup (map f L0) -> In a L0 -> In b L0 -> f b = f a -> b = a).
    { induction L0 as [|c L0 IHL]; intros Hn Hia Hib Hf; [destruct Hia|].
      simpl in Hn. inversion Hn as [|? ? Hc Hn']; subst.
      destruct Hia as [->|Hia], Hib as [->|Hib]; try reflexivity.
      - exfalso. apply Hc. rewrite <- Hf. now apply in_map.
      - exfalso. apply Hc. rewrite Hf. now apply in_map.
      - now apply IHL. }
    apply (Hinj L HL); [apply Hincl; now left | apply Hincl; now right | exact Hfb].
  - apply IH. intros x Hx. apply Hincl. now right.
Qed.


(** X13.  The ledger returned by [_run_static_portfolio] (lines 119-140) lists
    rows of the sorted table, and no row twice: the row labels of
    [used_trades] are pairwise distinct, so the ledger is never longer
    than the table. *)
Theorem ledger_rows_distinct (tbl : list Trade.t) (res : Portfolio.PortfolioResult) :
  Portfolio._run_static_portfolio tbl = Some res ->
  incl (Portfolio.result_used_trades res) (Portfolio.sorted_rows tbl)
  /\ NoDup (map fst (Portfolio.result_used_trades res))
  /\ (length (Portfolio.result_used_trades res) <= length tbl)%nat.
Proof.
  intros Hres. apply run_static_result in Hres as [Hused _].
  set (trades := Portfolio.sorted_rows tbl) in *.
  assert (Hincl : incl (Portfolio.result_used_trades res) trades).
  { intros r Hin. rewrite Hused in Hin.
    apply (state_after_entered trades (length (Portfolio.sim_days trades)) r).
    unfold Portfolio.flush in Hin. apply in_app_or in Hin. tauto. }
  assert (Hnd : NoDup (Portfolio.result_used_trades res)).
  { rewrite Hused, state_after_all. unfold Portfolio.flush.
    eapply Permutation_NoDup; [apply Permutation_app_comm|].
    apply (run_NoDup trades (sorted_rows_NoDup tbl) [] (Portfolio.sim_days trades)).
    - apply sorted_NoDup, sim_days_sorted.
    - intros x [[]|[]].
    - constructor. }
  split; [exact Hincl|]. split.
  - apply (NoDup_map_incl fst _ trades); [apply sorted_rows_labels|exact Hnd|exact Hincl].
  - rewrite <- (sorted_rows_length tbl). now apply NoDup_incl_length.
Qed.

Lemma ledger_rows_distinct_witness :
  exists res, Portfolio._run_static_portfolio Samples.crowded = Some res
              /\ NoDup (map fst (Portfolio.result_used_trades res)).
Proof.
  eexists. split; [reflexivity|].
  apply (ledger_rows_distinct Samples.crowded). reflexivity.
Defined.

(** ** Priority among the trades of one day *)

Section SortSorted.
Variable A : Type.
Variable leb : A -> A -> bool.
Hypothesis leb_total : forall a b, leb a b = true \/ leb b a = true.
Hypothesis leb_trans : forall a b c, leb a b = true -> leb b c = true -> leb a c = true.

Lemma insert_sorted (x : A) (l : list A) :
  StronglySorted (fun a b => leb a b = true) l ->
  StronglySorted (fun a b => leb a b = true) (Pandas.insert leb x l).
Proof.
  induction 1 as [|y r Hs IH Hall]; simpl; [repeat constructor|].
  destruct (leb x y) eqn:E.
  - constructor; [now constructor|]. constructor; [exact E|].
    rewrite Forall_forall in *. intros z Hz. eapply leb_trans; [exact E|now apply Hall].
  - constructor; [exact IH|]. rewrite Forall_forall in *. intros z Hz.
    apply (Permutation_in _ (insert_perm _ leb x r)) in Hz. destruct Hz as [<-|Hz].
    + destruct (leb_total x y) as [H|H]; [congruence|exact H].
    + now apply Hall.
Qed.

Lemma sort_sorted (l : list A) :
  StronglySorted (fun a b => leb a b = true) (Pandas.sort leb l).
Proof.
  induction l as [|x r IH]; [constructor|]. apply insert_sorted, IH.
Qed.
End SortSorted.

Lemma sorted_firstn_skipn {A : Type} (R : A -> A -> Prop) (l : list A) (k : nat) (a b : A) :
  StronglySorted R l -> In a (firstn k l) -> In b (skipn k l) -> R a b.
Proof.
  intros Hs. revert k. induction Hs as [|x r Hs IH Hall]; intros k Ha Hb.
  - rewrite firstn_nil in Ha. destruct Ha.
  - destruct k as [|k]; [destruct Ha|]. simpl in Ha, Hb. destruct Ha as [<-|Ha].
    + rewrite Forall_forall in Hall. apply Hall.
      rewrite <- (firstn_skipn k r). apply in_or_app. now right.
    + now apply (IH k).
Qed.

Lemma desc_leb_total (a b : option Q) : Pandas.desc_leb a b = true \/ Pandas.desc_leb b a = true.
Proof.
  destruct a as [x|], b as [y|]; simpl; auto.
  rewrite !Qle_bool_iff. destruct (Qlt_le_dec x y) as [H|H]; [right|left]; [now apply Qlt_le_weak|exact H].
Qed.

Lemma desc_leb_trans (a b c : option Q) :
  Pandas.desc_leb a b = true -> Pandas.desc_leb b c = true -> Pandas.desc_leb a c = true.
Proof.
  destruct a as [x|], b as [y|], c as [z|]; simpl; try congruence.
  rewrite !Qle_bool_iff. intros H1 H2. now apply Qle_trans with y.
Qed.

Lemma prioritise_sorted (todays : list Portfolio.Row) :
  StronglySorted (fun a b => Pandas.desc_leb (priority_of todays a) (priority_of todays b) = true)
                 (Portfolio.prioritise todays).
Proof.
  unfold Portfolio.prioritise, priority_of.
  destruct (existsb (fun x => Pandas.notna (Trade.rule_quality_score (snd x))) todays).
  - apply (sort_sorted _ (fun a b : Portfolio.Row =>
             Pandas.desc_leb (Trade.rule_quality_score (snd a)) (Trade.rule_quality_score (snd b)))).
    + intros a b. apply desc_leb_total.
    + intros a b c. apply desc_leb_trans.
  - apply (sort_sorted _ (fun a b : Portfolio.Row =>
             Pandas.desc_leb (Trade.avg_ret (snd a)) (Trade.avg_ret (snd b)))).
    + intros a b. apply desc_leb_total.
    + intros a b c. apply desc_leb_trans.
Qed.

(** X14.  Capacity goes to the better rule first (lines 126-135).  Of two
    rows entering on the same visited day, if one is let into the open set
    and the other is refused, the one let in stands at least as high in the
    day's priority column (score, or average return when no row of the day
    has a score); a row without a value never displaces one with a value. *)
Theorem admission_by_priority (tbl : list Trade.t) (n : nat) (d : Z) (a b : Portfolio.Row) :
  let trades := Portfolio.sorted_rows tbl in
  let todays := filter (fun tr => (Trade.entry_date (snd tr) =? d)%Z) trades in
  nth_error (Portfolio.sim_days trades) n = Some d ->
  In a todays -> In b todays ->
  In a (Portfolio.open_trades (Portfolio.state_after trades (S n))) ->
  ~ In b (Portfolio.open_trades (Portfolio.state_after trades (S n))) ->
  Pandas.desc_leb (priority_of todays a) (priority_of todays b) = true.
Proof.
  intros trades todays Hn Ha Hb Hin Hout.
  pose proof (nth_error_split _ _ _ Hn) as Hsplit.
  pose proof (sorted_NoDup _ (sim_days_sorted trades)) as Hnd.
  rewrite Hsplit in Hnd.
  pose proof (NoDup_remove_2 _ _ _ Hnd) as Hnot.
  assert (Hbefore : ~ In d (firstn n (Portfolio.sim_days trades)))
    by (intros H; apply Hnot, in_or_app; now left).
  replace (S n) with (n + 1)%nat in Hin, Hout by lia.
  rewrite state_after_plus, (firstn_one_skipn _ _ _ Hn) in Hin, Hout.
  cbn [fold_left] in Hin, Hout.
  unfold Portfolio.day_step in Hin, Hout. cbn [Portfolio.open_trades] in Hin, Hout.
  fold todays in Hin, Hout. rewrite take_all_shape in Hin, Hout.
  set (k := (Portfolio.MAX_CONCURRENT_TRADES - _)%nat) in *.
  apply (sorted_firstn_skipn _ (Portfolio.prioritise todays) k a b (prioritise_sorted todays)).
  - apply in_app_or in Hin as [Hin|Hin]; [|exact Hin]. exfalso.
    unfold Portfolio.release in Hin. cbn [Portfolio.open_trades] in Hin.
    apply filter_In in Hin as [Hin _].
    apply filter_In in Ha as [_ Ha]. apply Z.eqb_eq in Ha.
    apply Hbefore. rewrite <- Ha. apply (state_after_entered trades n a). now left.
  - apply (proj2 (prioritise_In todays b)) in Hb.
    rewrite <- (firstn_skipn k (Portfolio.prioritise todays)) in Hb.
    apply in_app_or in Hb as [Hb|Hb]; [|exact Hb].
    exfalso. apply Hout, in_or_app. now right.
Qed.

Lemma admission_by_priority_witness :
  Pandas.desc_leb (Some (4 # 10)) (Some (1 # 10)) = true.
Proof.
  apply (admission_by_priority Samples.crowded 0 0%Z
           (1%nat, Samples.trade "MIDSTREAM_1" 0 None None (Some (4 # 10)))
           (0%nat, Samples.trade "MIDSTREAM_1" 0 (Some 3%Z) (Some (2 # 100)) (Some (1 # 10)))).
  - reflexivity.
  - vm_compute. tauto.
  - vm_compute. tauto.
  - vm_compute. tauto.
  - vm_compute. intros [H|[H|[H|[]]]]; discriminate H.
Defined.

(** ** Concurrent positions *)

Lemma Q_eq_dec (a b : Q) : {a = b} + {a <> b}.
Proof. decide equality; [apply Pos.eq_dec|apply Z.eq_dec]. Qed.

Lemma Trade_eq_dec (a b : Trade.t) : {a = b} + {a <> b}.
Proof.
  assert (HZ := Z.eq_dec). assert (HQ := Q_eq_dec). assert (HS := string_dec).
  assert (HN := Nat.eq_dec). assert (HB := Bool.bool_dec).
  assert (HoZ : forall x y : option Z, {x = y} + {x <> y}) by (decide equality).
  assert (HoQ : forall x y : option Q, {x = y} + {x <> y}) by (decide equality).
  assert (HoS : forall x y : option string, {x = y} + {x <> y}) by (decide equality).
  decide equality.
Qed.

Lemma Row_eq_dec (a b : Portfolio.Row) : {a = b} + {a <> b}.
Proof. decide equality; [apply Trade_eq_dec|apply Nat.eq_dec]. Qed.

Lemma sorted_firstn_le (l : list Z) (n : nat) (d x : Z) :
  StronglySorted Z.lt l -> nth_error l n = Some d -> In x (firstn (S n) l) -> (x <= d)%Z.
Proof.
  intros Hs. revert n. induction Hs as [|y r Hs IH Hall]; intros n Hn Hx.
  - destruct n; discriminate.
  - destruct n as [|n]; simpl in Hn, Hx.
    + inversion Hn; subst. destruct Hx as [<-|[]]. lia.
    + destruct Hx as [<-|Hx]; [|now apply (IH n)].
      rewrite Forall_forall in Hall. apply nth_error_In in Hn. specialize (Hall d Hn). lia.
Qed.

Lemma sorted_index_le (l : list Z) (m n : nat) (e d : Z) :
  StronglySorted Z.lt l -> nth_error l m = Some e -> nth_error l n = Some d ->
  (e <= d)%Z -> (m <= n)%nat.
Proof.
  intros Hs Hm Hn Hle. destruct (Nat.le_gt_cases m n) as [H|H]; [exact H|exfalso].
  assert (Hlen : (m < length l)%nat) by (apply nth_error_Some; now rewrite Hm).
  pose proof (sorted_nth_lt l n m Hs H Hlen) as Hlt.
  rewrite (nth_error_nth _ _ 0%Z Hm), (nth_error_nth _ _ 0%Z Hn) in Hlt. lia.
Qed.

Section Slots.
Import Portfolio.
Variable trades : list Row.

Lemma run_keeps_until (days : list Z) (st : SimState) (x : Row) (e : Z) :
  Trade.exit_date (snd x) = Some e -> (forall d, In d days -> (d <= e)%Z) ->
  In x (open_trades st) -> In x (open_trades (fold_left (day_step trades) days st)).
Proof.
  intros Hx. revert st. induction days as [|d r IH]; intros st Hd Hin; simpl; [exact Hin|].
  apply IH; [intros d' Hd'; apply Hd; now right|].
  unfold day_step, release. cbn [open_trades].
  apply take_all_keeps, filter_In. split; [exact Hin|].
  unfold Pandas.date_lt. rewrite Hx. apply negb_true_iff, Z.ltb_ge, Hd. now left.
Qed.

Lemma sim_days_In (r : Row) (d x : Z) :
  In r trades -> Trade.exit_date (snd r) = Some x ->
  (Trade.entry_date (snd r) <= d <= x)%Z -> Pandas.is_business_day d = true ->
  In d (sim_days trades).
Proof.
  intros Hr Hx Hd Hb. unfold sim_days, date_bounds.
  assert (He : In (Trade.entry_date (snd r))
                  (map (fun r => Trade.entry_date (snd r)) trades
                   ++ Pandas.dropna (map (fun r => Trade.exit_date (snd r)) trades))).
  { apply in_or_app. left. now apply (in_map (fun r => Trade.entry_date (snd r))). }
  assert (Hs : In x
                  (map (fun r => Trade.entry_date (snd r)) trades
                   ++ Pandas.dropna (map (fun r => Trade.exit_date (snd r)) trades))).
  { apply in_or_app. right. apply dropna_In. rewrite <- Hx.
    now apply (in_map (fun r => Trade.exit_date (snd r))). }
  match type of He with In _ ?L => set (l0 := L) in * end.
  destruct l0 as [|a l]; [destruct He|].
  apply date_range_B_In. split; [|exact Hb].
  destruct (zmin_spec a l) as [_ Hmin]. pose proof (zmax_spec a l) as Hmax.
  specialize (Hmin _ He). specialize (Hmax _ Hs). lia.
Qed.

(** A ledger row whose holding period covers a visited day is in the open
    set at the end of that day. *)
Lemma ledger_row_in_slot (r : Row) (n : nat) (d : Z) :
  In r (flush (state_after trades (length (sim_days trades)))) ->
  nth_error (sim_days trades) n = Some d ->
  Trade.open_on d (snd r) = true ->
  In r (open_trades (state_after trades (S n))).
Proof.
  intros Hled Hn Hopen. unfold Trade.open_on in Hopen.
  destruct (Trade.exit_date (snd r)) as [x|] eqn:Hx; [|discriminate].
  apply andb_true_iff in Hopen as [He Hdx]. apply Z.leb_le in He, Hdx.
  assert (Hent : In (Trade.entry_date (snd r)) (sim_days trades)).
  { eapply firstn_incl.
    apply (state_after_entered trades (length (sim_days trades)) r).
    unfold flush in Hled. apply in_app_or in Hled. tauto. }
  apply In_nth_error in Hent as [m Hm].
  assert (Hadm : In r (open_trades (state_after trades (S m)))).
  { destruct (in_dec Row_eq_dec r (open_trades (state_after trades (S m)))) as [H|H];
      [exact H|exfalso].
    assert (Hlen : (S m <= length (sim_days trades))%nat).
    { apply Nat.le_succ_l, nth_error_Some. now rewrite Hm. }
    destruct (refused_forever trades r m _ Hm H Hlen) as [Ho Hu].
    unfold flush in Hled. apply in_app_or in Hled as [Hl|Hl]; [now apply Hu|now apply Ho]. }
  pose proof (sorted_index_le _ m n _ _ (sim_days_sorted trades) Hm Hn He) as Hmn.
  replace (S n) with (S m + (n - m))%nat by lia. rewrite state_after_plus.
  apply (run_keeps_until _ _ r x Hx); [|exact Hadm].
  intros d' Hd'. apply Z.le_trans with d; [|exact Hdx].
  apply (sorted_firstn_le (sim_days trades) n d d' (sim_days_sorted trades) Hn).
  replace (S n) with (S m + (n - m))%nat by lia. rewrite firstn_plus.
  apply in_or_app. now right.
Qed.

Lemma ledger_NoDup :
  NoDup trades -> NoDup (flush (state_after trades (length (sim_days trades)))).
Proof.
  intros Hnd. rewrite state_after_all. unfold flush.
  eapply Permutation_NoDup; [apply Permutation_app_comm|].
  apply (run_NoDup trades Hnd [] (sim_days trades)).
  - apply sorted_NoDup, sim_days_sorted.
  - intros x [[]|[]].
  - constructor.
Qed.

Lemma slots_on_day (d : Z) :
  NoDup trades -> Pandas.is_business_day d = true ->
  (length (filter (fun r => Trade.open_on d (snd r))
                  (flush (state_after trades (length (sim_days trades)))))
   <= MAX_CONCURRENT_TRADES)%nat.
Proof.
  intros Hnd Hb.
  set (ledger := flush (state_after trades (length (sim_days trades)))).
  destruct (filter (fun r => Trade.open_on d (snd r)) ledger) as [|r0 rest] eqn:E;
    [simpl; lia|].
  assert (Hr0 : In r0 (filter (fun r => Trade.open_on d (snd r)) ledger))
    by (rewrite E; now left).
  apply filter_In in Hr0 as [Hr0 Hopen0].
  assert (Hd : In d (sim_days trades)).
  { assert (Hin0 : In r0 trades).
    { apply (state_after_entered trades (length (sim_days trades)) r0).
      unfold ledger, flush in Hr0. apply in_app_or in Hr0. tauto. }
    unfold Trade.open_on in Hopen0.
    destruct (Trade.exit_date (snd r0)) as [x|] eqn:Hx; [|discriminate].
    apply andb_true_iff in Hopen0 as [He Hdx]. apply Z.leb_le in He, Hdx.
    apply (sim_days_In r0 d x Hin0 Hx); [lia|exact Hb]. }
  apply In_nth_error in Hd as [n Hn]. rewrite <- E.
  apply Nat.le_trans with (length (open_trades (state_after trades (S n))));
    [|apply state_after_cap].
  apply NoDup_incl_length.
  - apply filter_NoDup, ledger_NoDup, Hnd.
  - intros r Hr. apply filter_In in Hr as [Hr Hopen].
    now apply (ledger_row_in_slot r n d).
Qed.
End Slots.

Lemma total_upper_bound (xs : list Q) (m : Q) :
  (forall x, In x xs -> x <= m) -> Pandas.total xs <= inject_Z (Z.of_nat (length xs)) * m.
Proof.
  induction xs as [|x r IH]; intros H.
  - simpl. rewrite Qmult_0_l. apply Qle_refl.
  - change (Pandas.total (x :: r)) with (x + Pandas.total r).
    cbn [length]. rewrite Nat2Z.inj_succ. unfold Z.succ. rewrite inject_Z_plus.
    setoid_replace ((inject_Z (Z.of_nat (length r)) + inject_Z 1) * m)
      with (m + inject_Z (Z.of_nat (length r)) * m) by ring.
    apply Qplus_le_compat; [apply H; now left|]. apply IH. intros y Hy. apply H. now right.
Qed.

(** X15.  The ledger never holds more than three positions at once.  On
    every business day, and so on every day of the equity curve, at most
    [MAX_CONCURRENT_TRADES] rows of [used_trades] have
    [entry_date <= day <= exit_date]; the metric [avg_concurrent_trades]
    (lines 168-174) therefore lies between 0 and 3. *)
Theorem concurrent_positions_bounded (tbl : list Trade.t) (res : Portfolio.PortfolioResult) :
  Portfolio._run_static_portfolio tbl = Some res ->
  (forall d, Pandas.is_business_day d = true ->
             (length (filter (fun r => Trade.open_on d (snd r))
                             (Portfolio.result_used_trades res)) <= 3)%nat)
  /\ Forall (fun c => (c <= 3)%nat) (open_counts res)
  /\ 0 <= avg_concurrent res /\ avg_concurrent res <= 3.
Proof.
  intros Hres. pose proof Hres as Hrun.
  apply run_static_result in Hres as [Hused Heq].
  assert (Hday : forall d, Pandas.is_business_day d = true ->
             (length (filter (fun r => Trade.open_on d (snd r))
                             (Portfolio.result_used_trades res)) <= 3)%nat).
  { intros d Hb. rewrite Hused.
    apply (slots_on_day (Portfolio.sorted_rows tbl) d (sorted_rows_NoDup tbl) Hb). }
  assert (Hcounts : Forall (fun c => (c <= 3)%nat) (open_counts res)).
  { unfold open_counts. rewrite Forall_forall. intros c Hc.
    apply in_map_iff in Hc as (d & <- & Hd). apply Hday.
    rewrite Heq in Hd.
    assert (Hd' : In d (map fst (Portfolio._daily_returns_from_trades
                                   (Portfolio.result_used_trades res)))).
    { apply in_map_iff in Hd as ([d0 v] & <- & Hin). apply in_combine_l in Hin. exact Hin. }
    clear Hd.
    destruct (filter (fun r => Trade.closed (snd r)) (Portfolio.result_used_trades res))
      as [|c0 cs] eqn:E.
    - rewrite daily_returns_empty in Hd' by exact E. destruct Hd'.
    - destruct (daily_returns_shape (Portfolio.result_used_trades res))
        as (start & stop & Hshape & _).
      + rewrite E. discriminate.
      + rewrite Hshape, map_map in Hd'. simpl in Hd'. rewrite map_id in Hd'.
        now apply date_range_B_In in Hd'. }
  split; [exact Hday|]. split; [exact Hcounts|].
  unfold avg_concurrent. destruct (open_counts res) as [|c cs]; [split; discriminate|].
  set (l := c :: cs) in *.
  assert (Hl : 0 < inject_Z (Z.of_nat (length l))).
  { change 0 with (inject_Z 0). rewrite <- Zlt_Qlt. simpl length. lia. }
  split.
  - apply Qle_shift_div_l; [exact Hl|]. rewrite Qmult_0_l.
    rewrite <- (Qmult_0_r (inject_Z (Z.of_nat (length (map (fun k => inject_Z (Z.of_nat k)) l))))).
    apply total_lower_bound. intros x Hx. apply in_map_iff in Hx as (k & <- & _).
    change 0 with (inject_Z 0). rewrite <- Zle_Qle. lia.
  - apply Qle_shift_div_r; [exact Hl|].
    rewrite Qmult_comm. rewrite <- (length_map (fun k => inject_Z (Z.of_nat k)) l).
    apply total_upper_bound. intros x Hx. apply in_map_iff in Hx as (k & <- & Hk).
    rewrite Forall_forall in Hcounts. specialize (Hcounts k Hk).
    change 3 with (inject_Z 3). rewrite <- Zle_Qle. lia.
Qed.

Lemma concurrent_positions_bounded_witness :
  exists res, Portfolio._run_static_portfolio Samples.overlapping = Some res
              /\ open_counts res = [1; 2; 2; 1]%nat /\ avg_concurrent res <= 3.
Proof.
  eexists. split; [reflexivity|]. split; [reflexivity|].
  apply (concurrent_positions_bounded Samples.overlapping). reflexivity.
Defined.

(** ** The parameter grid ([build_sector_param_grid]) and the scan of all
       sectors ([detect_lag_signals]) *)

Section GridFacts.
Import AdaptiveGrid.

Lemma dict_get_set {V : Type} (d : list (string * list V)) (k g : string) (v : list V) :
  dict_get (dict_set k v d) g = if String.eqb g k then v else dict_get d g.
Proof.
  induction d as [|[k' v'] r IH]; simpl.
  - reflexivity.
  - destruct (String.eqb k k') eqn:Ek; simpl.
    + apply String.eqb_eq in Ek. subst k'. destruct (String.eqb g k); reflexivity.
    + destruct (String.eqb g k') eqn:Eg.
      * apply String.eqb_eq in Eg. subst k'.
        rewrite String.eqb_sym in Ek. now rewrite Ek.
      * exact IH.
Qed.

Lemma build_grid_lists (fingerprint : Frame.t -> option (option Q * option Q))
      (series : Frame.t) (universe : list (string * list string)) (g : string) :
  grid_list (dict_get (build_sector_param_grid fingerprint series universe) g).
Proof.
  unfold build_sector_param_grid.
  assert (H : forall grid, (forall g', grid_list (dict_get grid g')) ->
                           grid_list (dict_get (fold_left (add_sector fingerprint series)
                                                          universe grid) g)).
  { induction universe as [|e r IH]; intros grid Hg; simpl; [apply Hg|].
    apply IH. intros g'. unfold add_sector.
    destruct (known_tickers series (snd e)); [apply Hg|].
    destruct (fingerprint _) as [[vol cs]|]; [|apply Hg].
    rewrite dict_get_set. destruct (String.eqb g' (fst e)); [|apply Hg].
    right. now exists vol, cs. }
  apply H. intros g'. now left.
Qed.

Lemma params_list_In (vol cs_disp : option Q) (p : Params) :
  In p (params_list vol cs_disp) ->
  In (lookback p) (lookbacks vol) /\ In (group_thresh p) (group_thresh_vals cs_disp)
  /\ In (participation p) (participation_vals cs_disp)
  /\ In (lagger_max_move p) (lagger_max_vals cs_disp)
  /\ In (entry_lag p) entry_lags /\ In (hold p) (holds vol).
Proof.
  unfold params_list. intros H.
  apply in_flat_map in H as (lb & Hlb & H). apply in_flat_map in H as (gt & Hgt & H).
  apply in_flat_map in H as (part & Hpart & H). apply in_flat_map in H as (lag & Hlag & H).
  apply in_flat_map in H as (elag & Helag & H). apply in_map_iff in H as (h & <- & Hh).
  simpl. repeat split; assumption.
Qed.
End GridFacts.

Section ScanFacts.
Import LagDetector.

Lemma scan_both_none (g : string) (lb : nat) (gt part lmm : Q) (sg : Frame.t) :
  _detect_lag_signals_for_group g lb gt part lmm "both" sg = None -> Frame.columns sg = [].
Proof.
  unfold _detect_lag_signals_for_group. rewrite collect_None, in_map_iff.
  intros (end_idx & Hw & _). unfold window_signals in Hw.
  destruct (below_noise_floor _); [discriminate|].
  change (wants "both" "up") with true in Hw. change (wants "both" "down") with true in Hw.
  cbv iota in Hw.
  destruct (length (Frame.columns sg)) as [|k] eqn:Hk; [now apply length_zero_iff_nil in Hk|].
  exfalso. unfold fraction in Hw.
  destruct (decide_direction _ _ part) as [d|]; [|discriminate].
  destruct (_ <? MIN_LEADERS_PER_SIGNAL)%nat; [discriminate|].
  destruct (_ <? MIN_LAGGERS_PER_SIGNAL)%nat; discriminate.
Qed.

Lemma scan_signal_fields (g : string) (lb : nat) (gt part lmm : Q) (dir : string)
      (sg : Frame.t) (sigs : list Signal.t) (s : Signal.t) :
  _detect_lag_signals_for_group g lb gt part lmm dir sg = Some sigs -> In s sigs ->
  In (Signal.ticker s) (Frame.columns sg)
  /\ Signal.group s = g /\ Signal.lookback s = lb /\ Signal.group_thresh s = gt
  /\ Signal.participation s = part /\ Signal.lagger_max_move s = lmm.
Proof.
  unfold _detect_lag_signals_for_group. intros H Hin.
  destruct (collect_In _ _ _ H Hin) as (w & Hw & Hs).
  apply in_map_iff in Hw as (end_idx & Hw & _).
  destruct (window_signals_inv _ _ _ _ _ _ _ _ _ _ _ _ Hw Hs)
    as (_ & _ & _ & _ & Hr & _ & _ & _ & _ & Hg & Hlb & Hgt & Hp & Hlm).
  split; [|repeat split; assumption].
  unfold window_returns in Hr. now apply in_combine_l in Hr.
Qed.

Lemma collect_Some (l : list (option (list Signal.t))) :
  ~ In None l -> collect l = Some (concat (map (fun o => match o with
                                                          | Some w => w
                                                          | None => []
                                                          end) l)).
Proof.
  induction l as [|[w|] r IH]; intros H; simpl.
  - reflexivity.
  - rewrite IH; [reflexivity|]. intros Hin. apply H. now right.
  - exfalso. apply H. now left.
Qed.

Lemma sector_scans_Some (series : Frame.t) (grid : list (string * list AdaptiveGrid.Params))
      (entry : string * list string) :
  ~ In None (LagScan.sector_scans series grid entry).
Proof.
  unfold LagScan.sector_scans.
  destruct (AdaptiveGrid.known_tickers series (snd entry)) as [|t ts]; [intros []|].
  intros Hin. apply in_map_iff in Hin as (p & Hp & _).
  apply scan_both_none in Hp. discriminate Hp.
Qed.
End ScanFacts.

(** X16.  [detect_lag_signals] never fails: the guard of line 161 keeps
    the division by the number of instruments away from empty sectors.
    Every signal it returns is for an instrument that the universe lists
    under the signal's sector and that is a column of the price table, and
    carries a parameter set of the adaptive grid. *)
Theorem scan_total_and_grounded (fingerprint : Frame.t -> option (option Q * option Q))
        (series : Frame.t) (universe : list (string * list string)) :
  exists sigs,
    LagScan.detect_lag_signals fingerprint series universe = Some sigs
    /\ forall s, In s sigs ->
         (exists tickers, In (Signal.group s, tickers) universe
                          /\ In (Signal.ticker s) tickers)
         /\ In (Signal.ticker s) (Frame.columns series)
         /\ exists vol cs_disp,
              In (Signal.lookback s) (AdaptiveGrid.lookbacks vol)
              /\ In (Signal.group_thresh s) (AdaptiveGrid.group_thresh_vals cs_disp)
              /\ In (Signal.participation s) (AdaptiveGrid.participation_vals cs_disp)
              /\ In (Signal.lagger_max_move s) (AdaptiveGrid.lagger_max_vals cs_disp).
Proof.
  unfold LagScan.detect_lag_signals. cbv zeta.
  set (grid := AdaptiveGrid.build_sector_param_grid fingerprint series universe).
  assert (Hsome : ~ In None (flat_map (LagScan.sector_scans series grid) universe)).
  { intros Hin. apply in_flat_map in Hin as (e & _ & Hin).
    exact (sector_scans_Some series grid e Hin). }
  eexists. split; [apply (collect_Some _ Hsome)|].
  intros s Hs. pose proof (collect_Some _ Hsome) as Hc.
  destruct (collect_In _ _ _ Hc Hs) as (w & Hw & Hsw).
  apply in_flat_map in Hw as ([g tickers] & He & Hw).
  unfold LagScan.sector_scans in Hw. cbn [fst snd] in Hw.
  destruct (AdaptiveGrid.known_tickers series tickers) as [|t ts] eqn:Hk; [destruct Hw|].
  apply in_map_iff in Hw as (p & Hp & Hpin).
  destruct (scan_signal_fields _ _ _ _ _ _ _ _ _ Hp Hsw)
    as (Hcol & Hg & Hlb & Hgt & Hpart & Hlm).
  cbn [AdaptiveGrid.select Frame.columns] in Hcol. rewrite <- Hk in Hcol.
  unfold AdaptiveGrid.known_tickers in Hcol. apply filter_In in Hcol as [Ht Hex].
  apply existsb_exists in Hex as (c & Hc1 & Hc2). apply String.eqb_eq in Hc2. subst c.
  split; [exists tickers; rewrite Hg; split; assumption|]. split; [exact Hc1|].
  destruct (build_grid_lists fingerprint series universe g) as [Hnil|(vol & cs & Hl)];
    fold grid in Hnil || fold grid in Hl.
  - rewrite Hnil in Hpin. destruct Hpin.
  - rewrite Hl in Hpin. apply params_list_In in Hpin as (H1 & H2 & H3 & H4 & _).
    exists vol, cs. rewrite Hlb, Hgt, Hpart, Hlm. repeat split; assumption.
Qed.

(** ** Repeated signals *)




Section Copies.
Variable s : Signal.t.



End Copies.



(** ** Shape of a sector's parameter list *)

(** X18.  Whatever the fingerprint of a sector, also when a statistic is
    [NaN], its parameter list has 32 entries for every hold, 64 or 96 in
    all.  Every entry has a lookback between 2 and 10 days, an entry lag
    of at most one day, a hold between 3 and 10 days, a group threshold
    between 1.5% and 5%, a participation between 50% and 70%, and a
    lagger bound that is three quarters of one of the sector's group
    thresholds: the cap of 4% of line 74 never applies. *)
Theorem grid_shape (vol cs_disp : option Q) :
  length (AdaptiveGrid.params_list vol cs_disp) = (32 * length (AdaptiveGrid.holds vol))%nat
  /\ (length (AdaptiveGrid.holds vol) = 2 \/ length (AdaptiveGrid.holds vol) = 3)%nat
  /\ forall p, In p (AdaptiveGrid.params_list vol cs_disp) ->
       (2 <= AdaptiveGrid.lookback p <= 10)%nat
       /\ (AdaptiveGrid.entry_lag p <= 1)%nat
       /\ (3 <= AdaptiveGrid.hold p <= 10)%nat
       /\ (15 # 1000 <= AdaptiveGrid.group_thresh p /\ AdaptiveGrid.group_thresh p <= 5 # 100)
       /\ (5 # 10 <= AdaptiveGrid.participation p /\ AdaptiveGrid.participation p <= 7 # 10)
       /\ (exists gt, In gt (AdaptiveGrid.group_thresh_vals cs_disp)
                      /\ AdaptiveGrid.lagger_max_move p = gt * (75 # 100))
       /\ AdaptiveGrid.lagger_max_move p < 4 # 100.
Proof.
  split; [|split].
  - unfold AdaptiveGrid.params_list, AdaptiveGrid.lookbacks, AdaptiveGrid.holds,
      AdaptiveGrid.group_thresh_vals, AdaptiveGrid.participation_vals,
      AdaptiveGrid.lagger_max_vals, AdaptiveGrid.group_thresh_vals.
    destruct (AdaptiveGrid.exceeds vol (3 # 100)), (AdaptiveGrid.exceeds vol (2 # 100)),
      (AdaptiveGrid.exceeds cs_disp (25 # 1000)), (AdaptiveGrid.exceeds cs_disp (15 # 1000)),
      (AdaptiveGrid.exceeds cs_disp (2 # 100)); reflexivity.
  - unfold AdaptiveGrid.holds.
    destruct (AdaptiveGrid.exceeds vol (3 # 100)), (AdaptiveGrid.exceeds vol (2 # 100));
      simpl; auto.
  - intros p Hp. apply params_list_In in Hp as (Hlb & Hgt & Hpart & Hlag & Helag & Hh).
    split.
    { unfold AdaptiveGrid.lookbacks in Hlb.
      destruct (AdaptiveGrid.exceeds vol (3 # 100)), (AdaptiveGrid.exceeds vol (2 # 100));
        simpl in Hlb; lia. }
    split; [unfold AdaptiveGrid.entry_lags in Helag; simpl in Helag; lia|].
    split.
    { unfold AdaptiveGrid.holds in Hh.
      destruct (AdaptiveGrid.exceeds vol (3 # 100)), (AdaptiveGrid.exceeds vol (2 # 100));
        simpl in Hh; lia. }
    split.
    { unfold AdaptiveGrid.group_thresh_vals in Hgt.
      destruct (AdaptiveGrid.exceeds cs_disp (25 # 1000)),
        (AdaptiveGrid.exceeds cs_disp (15 # 1000));
        simpl in Hgt; decompose [or] Hgt; try contradiction;
        match goal with H : _ = AdaptiveGrid.group_thresh p |- _ => rewrite <- H end;
        split; unfold Qle; simpl; lia. }
    split.
    { unfold AdaptiveGrid.participation_vals in Hpart.
      destruct (AdaptiveGrid.exceeds cs_disp (2 # 100));
        simpl in Hpart; decompose [or] Hpart; try contradiction;
        match goal with H : _ = AdaptiveGrid.participation p |- _ => rewrite <- H end;
        split; unfold Qle; simpl; lia. }
    unfold AdaptiveGrid.lagger_max_vals in Hlag.
    apply in_map_iff in Hlag as (gt & Hmin & Hgt').
    assert (Hval : AdaptiveGrid.py_min (gt * (75 # 100)) (4 # 100) = gt * (75 # 100)
                   /\ gt * (75 # 100) < 4 # 100).
    { unfold AdaptiveGrid.group_thresh_vals in Hgt'.
      destruct (AdaptiveGrid.exceeds cs_disp (25 # 1000)),
        (AdaptiveGrid.exceeds cs_disp (15 # 1000));
        simpl in Hgt'; decompose [or] Hgt'; try contradiction; subst gt;
        (split; [reflexivity|unfold Qlt; simpl; lia]). }
    destruct Hval as [Hv Hlt]. rewrite Hv in Hmin. split.
    + exists gt. split; [exact Hgt'|now symmetry].
    + now rewrite <- Hmin.
Qed.

(** ** The maximum drawdown ([compute_max_drawdown]) *)

Lemma Qmin_cases (a b : Q) : Qmin a b = a \/ Qmin a b = b.
Proof.
  unfold Qmin, GenericMinMax.gmin. destruct (a ?= b); auto.
Qed.

Lemma fold_Qmin_In (r : list Q) (v : Q) : In (fold_left Qmin r v) (v :: r).
Proof.
  revert v. induction r as [|x r IH]; intros v; simpl; [now left|].
  destruct (IH (Qmin v x)) as [H|H]; [|now right; right].
  rewrite <- H. destruct (Qmin_cases v x) as [-> | ->]; [now left|right; now left].
Qed.

Lemma dropna_map_Some {A : Type} (l : list A) : Pandas.dropna (map Some l) = l.
Proof. induction l as [|x r IH]; simpl; [reflexivity|now rewrite IH]. Qed.

Lemma cummax_from_pairs (p : Q) (xs : list Q) (x m : Q) :
  0 < p -> In (x, m) (combine xs (cummax_from p xs)) -> x <= m /\ 0 < m.
Proof.
  revert p. induction xs as [|y r IH]; intros p Hp Hin; simpl in Hin; [destruct Hin|].
  assert (Hm : 0 < Qmax p y) by (eapply Qlt_le_trans; [exact Hp|apply Q.le_max_l]).
  destruct Hin as [Hin|Hin].
  - inversion Hin; subst. split; [apply Q.le_max_r|exact Hm].
  - now apply (IH (Qmax p y)).
Qed.

Lemma cummax_from_flat (p : Q) (xs : list Q) :
  StronglySorted Qle (p :: xs) ->
  forall x m, In (x, m) (combine xs (cummax_from p xs)) -> x == m.
Proof.
  revert p. induction xs as [|y r IH]; intros p Hs x m Hin; simpl in Hin; [destruct Hin|].
  inversion Hs as [|? ? Hs' Hall]; subst. inversion Hall as [|? ? Hpy Hall']; subst.
  assert (Hmax : Qmax p y == y) by (apply Q.max_r, Hpy).
  destruct Hin as [Hin|Hin].
  - inversion Hin; subst. now symmetry.
  - apply (IH (Qmax p y)); [|exact Hin].
    inversion Hs' as [|? ? Hs'' Hally]; subst. constructor; [exact Hs''|].
    rewrite Forall_forall in *. intros z Hz. rewrite Hmax. now apply Hally.
Qed.

Lemma cummax_from_sorted (p : Q) (xs : list Q) :
  (forall x m, In (x, m) (combine xs (cummax_from p xs)) -> m <= x) ->
  StronglySorted Qle (p :: xs).
Proof.
  revert p. induction xs as [|y r IH]; intros p H.
  - repeat constructor.
  - assert (Hy : Qmax p y <= y) by (apply H; now left).
    assert (Hpy : p <= y) by (eapply Qle_trans; [apply Q.le_max_l|exact Hy]).
    assert (Hr : StronglySorted Qle (Qmax p y :: r)).
    { apply IH. intros x m Hin. apply H. now right. }
    inversion Hr as [|? ? Hs Hall]; subst.
    assert (Hall' : Forall (Qle y) r).
    { rewrite Forall_forall in *. intros z Hz.
      eapply Qle_trans; [apply Q.le_max_r|now apply Hall]. }
    constructor.
    + constructor; assumption.
    + constructor; [exact Hpy|]. rewrite Forall_forall in *. intros z Hz.
      eapply Qle_trans; [exact Hpy|now apply Hall'].
Qed.

Lemma drawdown_range (x m : Q) : 0 < x -> x <= m -> 0 < m ->
  - (1) < (x - m) / m /\ (x - m) / m <= 0.
Proof.
  intros Hx Hxm Hm. split.
  - apply Qlt_shift_div_l; [exact Hm|]. lra.
  - apply Qle_shift_div_r; [exact Hm|]. lra.
Qed.

(** X19.  On an equity curve with positive values the maximum drawdown
    exists as soon as the curve has a day, is never positive and stays
    above -100%; it is zero exactly when the curve never falls.  On an
    empty curve it is missing. *)
Theorem max_drawdown_range (equity : list Q) :
  (forall e, In e equity -> 0 < e) ->
  (compute_max_drawdown equity = None <-> equity = [])
  /\ forall m, compute_max_drawdown equity = Some m ->
       - (1) < m /\ m <= 0 /\ (m == 0 <-> StronglySorted Qle equity).
Proof.
  intros Hpos. unfold compute_max_drawdown, Pandas.min. cbv zeta. rewrite dropna_map_Some.
  destruct equity as [|e0 r]; [split; [split; reflexivity|discriminate]|].
  cbn [cummax combine map]. split; [split; discriminate|].
  intros m Hm. injection Hm as Hm'.
  assert (He0 : 0 < e0) by (apply Hpos; now left).
  set (dds := map (fun ep : Q * Q => (fst ep - snd ep) / snd ep)
                  (combine r (cummax_from e0 r))) in *.
  cbn [fst snd] in *.
  assert (Hd0 : (e0 - e0) / e0 == 0) by (field; lra).
  assert (Hrange : forall d, In d dds -> - (1) < d /\ d <= 0).
  { intros d Hd. apply in_map_iff in Hd as ([x mx] & <- & Hin). cbn [fst snd].
    destruct (cummax_from_pairs e0 r x mx He0 Hin) as [Hle Hmx].
    apply drawdown_range; [|exact Hle|exact Hmx].
    apply Hpos. right. now apply in_combine_l in Hin. }
  pose proof (fold_Qmin_In dds ((e0 - e0) / e0)) as Hin. rewrite Hm' in Hin.
  assert (Hm_range : - (1) < m /\ m <= 0).
  { destruct Hin as [<-|Hin]; [rewrite Hd0; split; lra|now apply Hrange]. }
  split; [apply Hm_range|]. split; [apply Hm_range|]. split.
  - intros Hzero. apply cummax_from_sorted. intros x mx Hp.
    assert (Hd : In ((x - mx) / mx) dds).
    { unfold dds. apply in_map_iff. now exists (x, mx). }
    assert (Hge : m <= (x - mx) / mx).
    { rewrite <- Hm'. apply fold_Qmin_le. now right. }
    destruct (cummax_from_pairs e0 r x mx He0 Hp) as [_ Hmx].
    rewrite Hzero in Hge.
    apply (Qmult_le_compat_r _ _ mx) in Hge; [|now apply Qlt_le_weak].
    rewrite Qmult_0_l in Hge.
    assert (Hq : (x - mx) / mx * mx == x - mx) by (field; lra).
    rewrite Hq in Hge. lra.
  - intros Hs. destruct Hin as [<-|Hin]; [exact Hd0|].
    apply in_map_iff in Hin as ([x mx] & <- & Hp). cbn [fst snd].
    pose proof (cummax_from_flat e0 r Hs x mx Hp) as Heq.
    destruct (cummax_from_pairs e0 r x mx He0 Hp) as [_ Hmx].
    rewrite Heq. field. lra.
Qed.

Lemma max_drawdown_range_witness :
  exists m, compute_max_drawdown [1; 11 # 10; 99 # 100; 12 # 10] = Some m /\ m <= 0.
Proof.
  eexists. split; [reflexivity|].
  apply (max_drawdown_range [1; 11 # 10; 99 # 100; 12 # 10]); [|reflexivity].
  intros e [<-|[<-|[<-|[<-|[]]]]]; reflexivity.
Defined.

(** ** The stability score ([_compute_stability_score]) *)

Section StabilityFacts.
Import Stability.

Lemma avg_between_range (series : list (Z * Q)) (start stop : Z) (lo hi : Q) :
  lo <= 0 -> 0 <= hi ->
  (forall d v, In (d, v) series -> (start < d <= stop)%Z -> lo <= v /\ v <= hi) ->
  lo <= avg_between series start stop /\ avg_between series start stop <= hi.
Proof.
  intros Hlo Hhi H. unfold avg_between.
  destruct (filter _ series) as [|p r] eqn:E; [split; assumption|].
  set (l := p :: r) in *.
  assert (Hl : 0 < inject_Z (Z.of_nat (length l))).
  { change 0 with (inject_Z 0). rewrite <- Zlt_Qlt. simpl length. lia. }
  assert (Hv : forall v, In v (map snd l) -> lo <= v /\ v <= hi).
  { intros v Hv. apply in_map_iff in Hv as ([d v'] & <- & Hin).
    rewrite <- E in Hin. apply filter_In in Hin as [Hin Hd].
    apply andb_true_iff in Hd as [H1 H2]. apply Z.ltb_lt in H1. apply Z.leb_le in H2.
    apply (H d v' Hin). simpl in *. lia. }
  rewrite <- (length_map snd l). split.
  - apply Qle_shift_div_l; [now rewrite length_map|].
    rewrite Qmult_comm. apply total_lower_bound. intros v Hin. now apply Hv.
  - apply Qle_shift_div_r; [now rewrite length_map|].
    rewrite Qmult_comm. apply total_upper_bound. intros v Hin. now apply Hv.
Qed.
End StabilityFacts.

(** X20.  The stability score is zero for a table without rows and for a
    sector that is not a column.  It reads only the last 150 days of the
    column: when the values dated later than 150 days before the last date
    lie between a bound that is not positive and a bound that is not
    negative, so does the score, whatever came before. *)
Theorem stability_score_range (daily : list (Z * list (string * Q))) (sector : string)
        (lo hi : Q) :
  lo <= 0 -> 0 <= hi ->
  (forall d v, In (d, v) (Stability.sector_series daily sector) ->
               (Stability.last_date (Stability.sector_series daily sector) - 150 < d)%Z ->
               lo <= v /\ v <= hi) ->
  Stability._compute_stability_score [] sector = 0
  /\ (forall row rest,
         daily = row :: rest -> ~ In sector (map fst (snd row)) ->
         Stability._compute_stability_score daily sector = 0)
  /\ lo <= Stability._compute_stability_score daily sector
  /\ Stability._compute_stability_score daily sector <= hi.
Proof.
  intros Hlo Hhi H. split; [reflexivity|]. split.
  - intros row rest -> Hnot. unfold Stability._compute_stability_score.
    destruct (existsb _ (snd row)) eqn:E; [|reflexivity].
    exfalso. apply existsb_exists in E as (c & Hc & Heq). apply String.eqb_eq in Heq.
    apply Hnot. rewrite <- Heq. now apply in_map.
  - unfold Stability._compute_stability_score.
    destruct daily as [|row rest]; [split; assumption|].
    destruct (negb _); [split; assumption|]. cbv zeta.
    set (series := Stability.sector_series (row :: rest) sector) in *.
    set (last := Stability.last_date series) in *.
    destruct (avg_between_range series (last - 30) last lo hi Hlo Hhi) as [A1 A2].
    { intros d v Hin Hd. apply (H d v Hin). lia. }
    destruct (avg_between_range series (last - 60) (last - 30) lo hi Hlo Hhi) as [B1 B2].
    { intros d v Hin Hd. apply (H d v Hin). lia. }
    destruct (avg_between_range series (last - 150) (last - 60) lo hi Hlo Hhi) as [C1 C2].
    { intros d v Hin Hd. apply (H d v Hin). lia. }
    split; lra.
Qed.

Lemma stability_score_range_witness :
  0 <= Stability._compute_stability_score SampleDaily.daily "TELECOM"
  /\ Stability._compute_stability_score SampleDaily.daily "TELECOM" <= 2 # 100.
Proof.
  apply (stability_score_range SampleDaily.daily "TELECOM" 0 (2 # 100)).
  - unfold Qle. simpl. lia.
  - unfold Qle. simpl. lia.
  - intros d v Hin Hd. vm_compute in Hd. simpl in Hin.
    destruct Hin as [Hin|[Hin|[Hin|[Hin|[Hin|[]]]]]]; inversion Hin; subst;
      try (exfalso; revert Hd; vm_compute; intros Hd; discriminate Hd);
      split; unfold Qle; simpl; lia.
Defined.

(** ** Rule stability ([compute_rule_stability]) *)

Lemma mean_positive_wins (xs : list (option Q)) (a : Q) :
  Pandas.mean xs = Some a -> 0 < a -> 0 < RuleScoring.frac_positive xs.
Proof.
  intros Hm Ha. unfold RuleScoring.frac_positive.
  destruct (filter Pandas.gt_zero xs) as [|p ps] eqn:E.
  - exfalso. unfold Pandas.mean in Hm.
    destruct (Pandas.dropna xs) as [|v r] eqn:Ed; [discriminate|]. injection Hm as Hm.
    assert (Hall : forall x, In x (v :: r) -> x <= 0).
    { intros x Hx. rewrite <- Ed in Hx. apply dropna_In in Hx.
      destruct (Qlt_le_dec 0 x) as [Hpos|Hle]; [|exact Hle]. exfalso.
      assert (Hin : In (Some x) (filter Pandas.gt_zero xs)).
      { apply filter_In. split; [exact Hx|]. simpl. apply negb_true_iff.
        destruct (Qle_bool x 0) eqn:Eq; [|reflexivity].
        apply Qle_bool_iff in Eq. lra. }
      rewrite E in Hin. destruct Hin. }
    pose proof (total_upper_bound (v :: r) 0 Hall) as Ht. rewrite Qmult_0_r in Ht.
    assert (Hl : 0 < inject_Z (Z.of_nat (length (v :: r)))).
    { change 0 with (inject_Z 0). rewrite <- Zlt_Qlt. simpl length. lia. }
    assert (a <= 0); [|lra].
    rewrite <- Hm. apply Qle_shift_div_r; [exact Hl|]. now rewrite Qmult_0_l.
  - assert (Hlen : (0 < length xs)%nat).
    { destruct xs; [discriminate E|simpl; lia]. }
    apply Qlt_shift_div_l.
    + change 0 with (inject_Z 0). rewrite <- Zlt_Qlt. lia.
    + rewrite Qmult_0_l. change 0 with (inject_Z 0). rewrite <- Zlt_Qlt. simpl length. lia.
Qed.

Lemma closed_group_returns (trades : list Trade.t) (k k' : RuleKey.t) :
  (forall tr, In tr trades -> Trade.exit_date tr = None -> Trade.ret tr = None) ->
  RuleKey.eqb k k' = true ->
  Pandas.dropna (map Trade.ret
                   (filter (fun tr => RuleKey.eqb (RuleKey.of_trade tr) k)
                           (filter Trade.closed trades)))
  = Pandas.dropna (map Trade.ret
                     (filter (fun tr => RuleKey.eqb (RuleKey.of_trade tr) k') trades)).
Proof.
  intros Hopen Hk. induction trades as [|t r IH]; [reflexivity|].
  assert (IH' := IH (fun tr Hin => Hopen tr (or_intror Hin))). clear IH.
  assert (Hsame : RuleKey.eqb (RuleKey.of_trade t) k = RuleKey.eqb (RuleKey.of_trade t) k').
  { destruct (RuleKey.eqb (RuleKey.of_trade t) k) eqn:E1.
    - symmetry. now apply RuleKey_eqb_trans with k.
    - destruct (RuleKey.eqb (RuleKey.of_trade t) k') eqn:E2; [|reflexivity].
      rewrite <- E1. apply RuleKey_eqb_trans with k'; [exact E2|].
      now rewrite RuleKey_eqb_sym. }
  cbn [filter]. unfold Trade.closed at 1.
  destruct (Trade.exit_date t) as [e|] eqn:He; cbn [Pandas.notna filter]; rewrite <- Hsame.
  - destruct (RuleKey.eqb (RuleKey.of_trade t) k); [|exact IH'].
    cbn [map]. destruct (Trade.ret t); cbn [Pandas.dropna]; now rewrite IH'.
  - destruct (RuleKey.eqb (RuleKey.of_trade t) k); [|exact IH'].
    cbn [map]. rewrite (Hopen t (or_introl eq_refl) He). exact IH'.
Qed.

Lemma mean_dropna (xs ys : list (option Q)) :
  Pandas.dropna xs = Pandas.dropna ys -> Pandas.mean xs = Pandas.mean ys.
Proof. unfold Pandas.mean. now intros ->. Qed.

(** X21.  Stability rows on the rules scored by [score_rules].  When open
    trades carry no return, every row of [compute_rule_stability] stands
    for a rule with a closed trade and has the identifier and the score of
    that rule attached; and the rule is flagged investable exactly when
    the mean return of its closed trades is positive: the number of
    trades, the win rate and the worst trade scale the score but never
    change the flag. *)
Theorem investable_iff_mean_positive (float_repr : Q -> string) (trades : list Trade.t)
        (row : RuleStability.Row) :
  (forall tr, In tr trades -> Trade.exit_date tr = None -> Trade.ret tr = None) ->
  In row (RuleStability.compute_rule_stability trades
            (RuleScoring.score_rules float_repr trades)) ->
  (exists tr, In tr trades /\ Trade.closed tr = true
              /\ RuleStability.key row = RuleKey.of_trade tr)
  /\ (exists s, In s (RuleScoring.score_rules float_repr trades)
                /\ RuleKey.eqb (RuleStability.key row) (RuleScoring.key s) = true
                /\ RuleStability.rule_id row = Some (RuleScoring.rule_id s)
                /\ RuleStability.rule_quality_score row = RuleScoring.rule_quality_score s
                /\ RuleStability.avg_ret_full row = RuleScoring.avg_ret_full s)
  /\ (RuleStability.is_investable row = true
      <-> exists a, RuleStability.avg_ret_full row = Some a /\ 0 < a).
Proof.
  intros Hopen Hrow. unfold RuleStability.compute_rule_stability in Hrow.
  destruct trades as [|t0 ts] eqn:Et; [destruct Hrow|]. rewrite <- Et in *.
  destruct (RuleScoring.score_rules float_repr trades) as [|s0 ss] eqn:Es; [destruct Hrow|].
  rewrite <- Es in *. cbv zeta in Hrow.
  apply in_flat_map in Hrow as ([k grp] & Hg & Hrow).
  unfold RuleScoring.groupby in Hg. apply in_map_iff in Hg as (k0 & Hk0 & Hkey).
  injection Hk0 as -> <-.
  apply sort_In, unique_incl, in_map_iff in Hkey as (tr0 & Hk & Htr0).
  apply filter_In in Htr0 as [Htr0 Hclosed].
  destruct (scored_match_one float_repr trades tr0 Htr0) as (s & Hs).
  unfold RuleStability.stability_rows in Hrow. cbn [fst snd] in Hrow.
  rewrite <- Hk, Hs in Hrow. cbn [map] in Hrow. destruct Hrow as [Hrow|[]].
  assert (Hsin : In s (filter (fun r => RuleKey.eqb (RuleKey.of_trade tr0) (RuleScoring.key r))
                              (RuleScoring.score_rules float_repr trades)))
    by (rewrite Hs; now left).
  apply filter_In in Hsin as [Hsin Hmatch].
  pose proof Hsin as Hsrow. rewrite score_rules_rows in Hsrow.
  apply in_map_iff in Hsrow as (k' & Hsk & _).
  assert (Hkk : RuleKey.eqb (RuleKey.of_trade tr0) k' = true).
  { rewrite <- Hsk in Hmatch. exact Hmatch. }
  assert (Havg : Pandas.mean (map Trade.ret
                    (filter (fun tr => RuleKey.eqb (RuleKey.of_trade tr) (RuleKey.of_trade tr0))
                            (filter Trade.closed trades)))
                 = RuleScoring.avg_ret_full s).
  { rewrite <- Hsk. cbn [RuleScoring.score_group RuleScoring.avg_ret_full fst snd].
    apply mean_dropna. now apply closed_group_returns. }
  subst row. cbn [RuleStability.key RuleStability.rule_id RuleStability.rule_quality_score
                  RuleStability.avg_ret_full RuleStability.is_investable].
  split; [exists tr0; repeat split; assumption|]. split.
  { exists s. repeat split; assumption. }
  rewrite Havg. rewrite <- Hsk.
  cbn [RuleScoring.score_group RuleScoring.avg_ret_full RuleScoring.rule_quality_score fst snd].
  set (rets := map Trade.ret (filter (fun tr => RuleKey.eqb (RuleKey.of_trade tr) k') trades)).
  unfold RuleScoring._compute_rule_quality.
  destruct (Pandas.mean rets) as [a|] eqn:Ea; cbn [option_map Pandas.gt_zero].
  - destruct (quality_factor (Pandas.min rets) (length rets)) as [Hf _].
    destruct (frac_positive_range rets) as [Hw _].
    set (w := RuleScoring.frac_positive rets) in *.
    set (p := RuleScoring.penalty (length rets)) in *.
    set (d := RuleScoring.dd_term (Pandas.min rets)) in *.
    assert (Hq : a * w * p / d == a * (w * (p / d))) by (unfold Qdiv; ring).
    rewrite negb_true_iff. split.
    + intros Hpos. exists a. split; [reflexivity|].
      assert (Hlt : 0 < a * w * p / d).
      { destruct (Qlt_le_dec 0 (a * w * p / d)) as [H|H]; [exact H|].
        apply Qle_bool_iff in H. congruence. }
      rewrite Hq in Hlt.
      destruct (Qlt_le_dec 0 a) as [H|H]; [exact H|exfalso].
      assert (Hwf : 0 <= w * (p / d)).
      { apply Qmult_le_0_compat; [exact Hw|now apply Qlt_le_weak]. }
      assert (a * (w * (p / d)) <= 0); [|lra].
      rewrite <- (Qmult_0_l (w * (p / d))). now apply Qmult_le_compat_r.
    + intros (a' & Ha' & Hpos). injection Ha' as <-.
      pose proof (mean_positive_wins rets a Ea Hpos) as Hwin. fold w in Hwin.
      assert (Hlt : 0 < a * (w * (p / d))).
      { apply Qmult_lt_0_compat; [exact Hpos|]. now apply Qmult_lt_0_compat. }
      rewrite <- Hq in Hlt.
      destruct (Qle_bool (a * w * p / d) 0) eqn:E; [|reflexivity].
      apply Qle_bool_iff in E. lra.
  - split; [discriminate|]. intros (a & Ha & _). discriminate.
Qed.

Lemma investable_iff_mean_positive_witness :
  exists row,
    In row (RuleStability.compute_rule_stability Samples.one_closed_one_open
              (RuleScoring.score_rules Samples.float_repr Samples.one_closed_one_open))
    /\ RuleStability.is_investable row = true.
Proof.
  destruct (RuleStability.compute_rule_stability Samples.one_closed_one_open
              (RuleScoring.score_rules Samples.float_repr Samples.one_closed_one_open))
    as [|row rest] eqn:E; [vm_compute in E; discriminate E|].
  exists row. split; [now left|].
  assert (Hin : In row (RuleStability.compute_rule_stability Samples.one_closed_one_open
              (RuleScoring.score_rules Samples.float_repr Samples.one_closed_one_open)))
    by (rewrite E; now left).
  apply (investable_iff_mean_positive Samples.float_repr Samples.one_closed_one_open row).
  - intros tr [<-|[<-|[]]]; [discriminate|reflexivity].
  - exact Hin.
  - exists (1 # 10). injection E as <- _. split; [reflexivity|reflexivity].
Defined.

(** ** The trade table of the portfolio ([print_portfolio_trade_table]) *)

Lemma loc_Some (equity : list (Z * Q)) (d : Z) :
  In d (map fst equity) -> exists v, TradeTable.loc equity d = Some v.
Proof.
  induction equity as [|[d' v] r IH]; simpl; [intros []|].
  intros [->|H].
  - rewrite Z.eqb_refl. now exists v.
  - destruct (d' =? d)%Z; [now exists v|now apply IH].
Qed.

Lemma all_present_None {A : Type} (l : list (option A)) :
  TradeTable.all_present l = None <-> In None l.
Proof.
  induction l as [|[x|] r IH]; simpl.
  - split; [discriminate|intros []].
  - destruct (TradeTable.all_present r); simpl.
    + split; [discriminate|]. intros [H|H]; [discriminate|]. apply IH in H. discriminate.
    + split; [intros _; right; now apply IH|reflexivity].
  - split; [now left|reflexivity].
Qed.

(** X22.  The printer of the portfolio trades after a replay whose trades
    never exit before they enter and exit on business days.  Computing the
    column [portfolio_change_pct] fails exactly when the ledger has rows
    but every one of them is still open: the equity curve is then empty
    and has no first value.  Otherwise every closed row finds its exit
    date in the curve. *)
Theorem trade_table_needs_closed_trade (tbl : list Trade.t) (res : Portfolio.PortfolioResult) :
  Portfolio._run_static_portfolio tbl = Some res ->
  (forall t e, In t tbl -> Trade.exit_date t = Some e ->
               (Trade.entry_date t <= e)%Z /\ Pandas.is_business_day e = true) ->
  (TradeTable.portfolio_change_pct (Portfolio.result_used_trades res)
     (Portfolio.equity_curve res) = None
   <-> Portfolio.result_used_trades res <> []
       /\ forall r, In r (Portfolio.result_used_trades res) ->
                    Trade.exit_date (snd r) = None).
Proof.
  intros Hres Hwf.
  destruct (run_static_result tbl res Hres) as [_ Heq].
  pose proof (used_from_table tbl res) as Htbl. specialize (fun r => Htbl r Hres).
  remember (Portfolio.result_used_trades res) as used eqn:Hused.
  remember (Portfolio.equity_curve res) as equity eqn:Hequity.
  clear Hused Hequity Hres.
  assert (Hdays : map fst equity = map fst (Portfolio._daily_returns_from_trades used)).
  { rewrite Heq.
    assert (H : forall (l1 : list Z) (l2 : list Q),
               length l1 = length l2 -> map fst (combine l1 l2) = l1).
    { induction l1 as [|a l1 IH]; intros [|b l2] Hl; simpl in *; try discriminate;
        [reflexivity|]. f_equal. apply IH. now inversion Hl. }
    apply H. now rewrite cumprod_length, !length_map. }
  clear Heq.
  assert (Hclosed : forall r e, In r used -> Trade.exit_date (snd r) = Some e ->
                                In e (map fst equity)).
  { intros r e Hr He. rewrite Hdays.
    assert (Hin : In r (filter (fun r => Trade.closed (snd r)) used)).
    { apply filter_In. split; [exact Hr|]. unfold Trade.closed. now rewrite He. }
    destruct (daily_returns_shape used) as (start & stop & Hshape & _ & Hmin & Hmax).
    { intros E. rewrite E in Hin. destruct Hin. }
    rewrite Hshape, map_map. simpl. rewrite map_id.
    destruct (Hwf (snd r) e (Htbl r Hr) He) as [Hle Hb].
    apply date_range_B_In. split; [|exact Hb].
    specialize (Hmin r Hin). specialize (Hmax r e Hin He). lia. }
  unfold TradeTable.portfolio_change_pct.
  destruct used as [|u us]; [split; [discriminate|intros [H _]; now elim H]|].
  destruct equity as [|[d0 first] rest].
  - split; [|reflexivity]. intros _. split; [discriminate|].
    intros r Hr. destruct (Trade.exit_date (snd r)) as [e|] eqn:He; [|reflexivity].
    exfalso. exact (Hclosed r e Hr He).
  - rewrite all_present_None, in_map_iff. split.
    + intros (r & Hcell & Hr). exfalso. unfold TradeTable.cell in Hcell.
      destruct (Trade.exit_date (snd r)) as [e|] eqn:He; [|discriminate].
      destruct (loc_Some ((d0, first) :: rest) e (Hclosed r e Hr He)) as (v & Hv).
      rewrite Hv in Hcell. discriminate.
    + intros [_ Hopen]. exfalso.
      rewrite daily_returns_empty in Hdays; [discriminate|].
      destruct (filter (fun r => Trade.closed (snd r)) (u :: us)) as [|c cs] eqn:E;
        [reflexivity|].
      assert (Hc : In c (filter (fun r => Trade.closed (snd r)) (u :: us)))
        by (rewrite E; now left).
      apply filter_In in Hc as [Hc Hcl]. unfold Trade.closed in Hcl.
      rewrite (Hopen c Hc) in Hcl. discriminate.
Qed.

Lemma trade_table_needs_closed_trade_witness :
  TradeTable.portfolio_change_pct [(0%nat, Samples.still_open)] [] = None.
Proof.
  apply (trade_table_needs_closed_trade [Samples.still_open]
           {| Portfolio.equity_curve := [];
              Portfolio.result_used_trades := [(0%nat, Samples.still_open)] |}).
  - reflexivity.
  - intros t e [<-|[]]. discriminate.
  - split; [discriminate|]. intros r [<-|[]]. reflexivity.
Defined.

(** ** Sectors too small to signal *)

Lemma filter_length_lt {A : Type} (f : A -> bool) (l : list A) (p : A) :
  In p l -> f p = false -> (length (filter f l) < length l)%nat.
Proof.
  intros Hin Hf. induction l as [|x r IH]; [destruct Hin|].
  simpl. pose proof (filter_length_le f r) as Hle.
  destruct Hin as [->|Hin].
  - rewrite Hf. lia.
  - specialize (IH Hin). destruct (f x); simpl; lia.
Qed.

Lemma not_in_filter {A : Type} (f : A -> bool) (l : list A) (p : A) :
  In p l -> ~ In p (filter f l) -> f p = false.
Proof.
  intros Hin Hnot. destruct (f p) eqn:E; [|reflexivity].
  exfalso. apply Hnot, filter_In. now split.
Qed.

Section Width.
Import LagDetector.

Lemma window_signals_width (g : string) (lb : nat) (gt part lmm : Q) (dir : string)
      (n : nat) (sd ed : Z) (rets : list (string * Q)) (sigs : list Signal.t) (s : Signal.t) :
  window_signals g lb gt part lmm dir n sd ed rets = Some sigs -> In s sigs ->
  (3 <= length rets)%nat.
Proof.
  unfold window_signals. destruct (below_noise_floor (map snd rets));
    [intros E; inversion E; subst; contradiction|].
  set (ups := if wants dir "up" then movers_up gt rets else []).
  set (downs := if wants dir "down" then movers_down gt rets else []).
  destruct (if wants dir "up" then fraction (length ups) n else Some 0) as [fu|];
    [|discriminate].
  destruct (if wants dir "down" then fraction (length downs) n else Some 0) as [fd|];
    [|discriminate].
  destruct (decide_direction fu fd part) as [d|];
    [|intros E; inversion E; subst; contradiction].
  set (movers := if (d =? 1)%Z then ups else downs).
  destruct (Nat.ltb_spec (length (map fst movers)) MIN_LEADERS_PER_SIGNAL) as [Hl|Hl];
    [intros E; inversion E; subst; contradiction|].
  destruct (length (find_laggers lmm (map fst movers) rets) <? MIN_LAGGERS_PER_SIGNAL)%nat;
    [intros E; inversion E; subst; contradiction|].
  intros E Hin. inversion E; subst sigs. clear E.
  apply in_map_iff in Hin as ([t r] & _ & Hlag).
  apply find_laggers_In in Hlag as (Hr & _ & Hn). cbn [fst snd] in Hn.
  rewrite length_map in Hl. unfold MIN_LEADERS_PER_SIGNAL in Hl.
  assert (Hout : ~ In (t, r) movers).
  { intros Hin. apply Hn. now apply (in_map fst) in Hin. }
  assert (Hsub : movers = [] \/ exists f, movers = filter f rets).
  { unfold movers, ups, downs, movers_up, movers_down.
    destruct (d =? 1)%Z; [destruct (wants dir "up")|destruct (wants dir "down")];
      try (now left); right; eexists; reflexivity. }
  destruct Hsub as [Hnil|(f & Hf)]; [rewrite Hnil in Hl; simpl in Hl; lia|].
  rewrite Hf in Hl, Hout.
  pose proof (filter_length_lt f rets (t, r) Hr (not_in_filter f rets (t, r) Hr Hout)).
  lia.
Qed.

Lemma scan_width (g : string) (lb : nat) (gt part lmm : Q) (dir : string)
      (sg : Frame.t) (sigs : list Signal.t) (s : Signal.t) :
  _detect_lag_signals_for_group g lb gt part lmm dir sg = Some sigs -> In s sigs ->
  (3 <= length (Frame.columns sg))%nat.
Proof.
  unfold _detect_lag_signals_for_group. intros H Hin.
  destruct (collect_In _ _ _ H Hin) as (w & Hw & Hs).
  apply in_map_iff in Hw as (end_idx & Hw & _).
  pose proof (window_signals_width _ _ _ _ _ _ _ _ _ _ _ _ Hw Hs) as H3.
  unfold window_returns in H3. rewrite length_combine in H3. lia.
Qed.
End Width.

(** X23.  A signal needs two leaders and a lagger that is none of them:
    a sector table with fewer than three columns never yields a signal,
    whatever the prices and the parameters.  In the scan of all sectors
    every signal therefore belongs to a sector of the universe with at
    least three instruments among the columns of the price table. *)
Theorem narrow_sector_silent
        (group_name : string) (lookback : nat) (group_thresh participation lagger_max_move : Q)
        (direction : string) (series_group : Frame.t) (sigs : list Signal.t) :
  (length (Frame.columns series_group) < 3)%nat ->
  LagDetector._detect_lag_signals_for_group group_name lookback group_thresh participation
    lagger_max_move direction series_group = Some sigs ->
  sigs = []
  /\ forall fingerprint series universe all_sigs s,
       LagScan.detect_lag_signals fingerprint series universe = Some all_sigs ->
       In s all_sigs ->
       exists tickers, In (Signal.group s, tickers) universe
                       /\ (3 <= length (AdaptiveGrid.known_tickers series tickers))%nat.
Proof.
  intros Hnarrow Hscan. split.
  - destruct sigs as [|s rest]; [reflexivity|exfalso].
    pose proof (scan_width _ _ _ _ _ _ _ _ s Hscan (or_introl eq_refl)). lia.
  - intros fingerprint series universe all_sigs s Hall Hs.
    unfold LagScan.detect_lag_signals in Hall. cbv zeta in Hall.
    destruct (collect_In _ _ _ Hall Hs) as (w & Hw & Hsw).
    apply in_flat_map in Hw as ([g tickers] & He & Hw).
    unfold LagScan.sector_scans in Hw. cbn [fst snd] in Hw.
    destruct (AdaptiveGrid.known_tickers series tickers) as [|t ts] eqn:Hk; [destruct Hw|].
    apply in_map_iff in Hw as (p & Hp & _).
    destruct (scan_signal_fields _ _ _ _ _ _ _ _ _ Hp Hsw) as (_ & Hg & _).
    pose proof (scan_width _ _ _ _ _ _ _ _ s Hp Hsw) as H3.
    cbn [AdaptiveGrid.select Frame.columns] in H3.
    exists tickers. rewrite Hg. split; [exact He|rewrite Hk; exact H3].
Qed.

Lemma narrow_sector_silent_witness :
  LagDetector._detect_lag_signals_for_group "SW_SOFTWARE_2" 2 (3 # 100) (5 # 10) (4 # 100)
    "both" SamplePair.prices = Some [].
Proof.
  destruct (LagDetector._detect_lag_signals_for_group "SW_SOFTWARE_2" 2 (3 # 100) (5 # 10)
              (4 # 100) "both" SamplePair.prices) as [sigs|] eqn:E;
    [|vm_compute in E; discriminate E].
  f_equal.
  apply (narrow_sector_silent "SW_SOFTWARE_2" 2 (3 # 100) (5 # 10) (4 # 100) "both"
           SamplePair.prices sigs); [simpl; lia|exact E].
Defined.

(** ** The normalised series ([prepare_normalized_series]) *)

Section NormaliseFacts.
Import Normalise.

Lemma nth_error_map_combine (f : Q * Q -> Q) (row first : list Q) (j : nat) (v v0 : Q) :
  nth_error row j = Some v -> nth_error first j = Some v0 ->
  nth_error (map f (combine row first)) j = Some (f (v, v0)).
Proof.
  revert row first. induction j as [|j IH]; intros [|a row] [|b first] Hr Hf;
    simpl in *; try discriminate.
  - now inversion Hr; inversion Hf.
  - now apply IH.
Qed.

Lemma normalise_cell (rows normalised : list (list Q)) (i j : nat) (v v0 : Q) :
  normalise rows = Some normalised ->
  cell rows i j = Some v -> cell rows 0 j = Some v0 ->
  cell normalised i j = Some (v / v0 * 100).
Proof.
  unfold normalise, cell. destruct rows as [|first rest]; [discriminate|].
  intros E Hv Hv0. injection E as <-. cbn [nth_error] in Hv0.
  destruct i as [|i]; cbn [nth_error] in *.
  - apply (nth_error_map_combine (fun vf => fst vf / snd vf * 100) first first j v v0 Hv Hv0).
  - rewrite nth_error_map.
    destruct (nth_error rest i) as [row|]; [|discriminate]. cbn [option_map].
    apply (nth_error_map_combine (fun vf => fst vf / snd vf * 100) row first j v v0 Hv Hv0).
Qed.
End NormaliseFacts.

(** X24.  [prepare_normalized_series] fails exactly when the mode is none
    of High, Low, Close, HL2 and HLC3 or the table has no row.  Otherwise
    it keeps the dates and the instruments, every instrument with a first
    price other than zero starts at 100, and between any two dates the
    normalised series moves by the same ratio as the series of the mode:
    the window returns of the detector and the returns of the trades do
    not depend on the normalisation. *)
Theorem normalised_series_scale (ohlcv : Normalise.OHLCV) (mode : string) :
  (Normalise.prepare_normalized_series ohlcv mode = None
   <-> ~ In mode ["High"; "Low"; "Close"; "HL2"; "HLC3"]%string
       \/ Normalise.raw_series ohlcv mode = Some [])
  /\ forall series rows,
       Normalise.prepare_normalized_series ohlcv mode = Some series ->
       Normalise.raw_series ohlcv mode = Some rows ->
       Frame.columns series = Normalise.tickers ohlcv
       /\ Frame.index series = Normalise.index ohlcv
       /\ length (Frame.rows series) = length rows
       /\ forall j v0, Normalise.cell rows 0 j = Some v0 -> ~ v0 == 0 ->
            (exists x, Normalise.cell (Frame.rows series) 0 j = Some x /\ x == 100)
            /\ forall i k vi vk,
                 Normalise.cell rows i j = Some vi -> Normalise.cell rows k j = Some vk ->
                 ~ vi == 0 ->
                 exists xi xk, Normalise.cell (Frame.rows series) i j = Some xi
                               /\ Normalise.cell (Frame.rows series) k j = Some xk
                               /\ xk / xi == vk / vi.
Proof.
  split.
  - unfold Normalise.prepare_normalized_series, Normalise.raw_series.
    destruct (String.eqb_spec mode "High") as [->|H1];
      [|destruct (String.eqb_spec mode "Low") as [->|H2];
        [|destruct (String.eqb_spec mode "Close") as [->|H3];
          [|destruct (String.eqb_spec mode "HL2") as [->|H4];
            [|destruct (String.eqb_spec mode "HLC3") as [->|H5]]]]];
      try (match goal with
           | |- context [Normalise.normalise ?r] =>
               destruct r as [|row0 rest] eqn:E; cbn [Normalise.normalise option_map];
               (split; [intros H; try discriminate H; now right
                       |intros [Hn|Hs]; [exfalso; apply Hn; simpl; tauto
                                        |try reflexivity; discriminate Hs]])
           end).
    split; [intros _; left|reflexivity].
    simpl. intros [H|[H|[H|[H|[H|[]]]]]]; congruence.
  - intros series rows Hs Hraw. unfold Normalise.prepare_normalized_series in Hs.
    rewrite Hraw in Hs. destruct (Normalise.normalise rows) as [normalised|] eqn:En;
      [|discriminate]. injection Hs as <-. cbn [Frame.columns Frame.index Frame.rows].
    split; [reflexivity|]. split; [reflexivity|]. split.
    { unfold Normalise.normalise in En. destruct rows; [discriminate|].
      injection En as <-. simpl. now rewrite length_map. }
    intros j v0 Hv0 Hnz. split.
    + exists (v0 / v0 * 100). split; [now apply (normalise_cell rows)|]. now field.
    + intros i k vi vk Hvi Hvk Hvinz.
      exists (vi / v0 * 100), (vk / v0 * 100).
      split; [now apply (normalise_cell rows)|]. split; [now apply (normalise_cell rows)|].
      field. split; assumption.
Qed.

(** ** The best rules of a sector ([select_best_rules_per_sector]) *)

Section OrderLike.

Lemma order_like_lex {A : Type} (c1 c2 : A -> A -> comparison) :
  order_like c1 -> order_like c2 ->
  order_like (fun a b => RuleKey.cmp_then (c1 a b) (c2 a b)).
Proof.
  intros (A1 & L1 & E1 & LE1 & EL1) (A2 & L2 & E2 & LE2 & EL2).
  unfold order_like, RuleKey.cmp_then. repeat split.
  - intros a b. rewrite (A1 a b), (A2 a b). destruct (c1 a b); reflexivity.
  - intros a b d. destruct (c1 a b) eqn:Hab, (c1 b d) eqn:Hbd; try discriminate; intros H1 H2.
    + rewrite (E1 a b d Hab Hbd). now apply (L2 a b d).
    + now rewrite (EL1 a b d Hab Hbd).
    + now rewrite (LE1 a b d Hab Hbd).
    + now rewrite (L1 a b d Hab Hbd).
  - intros a b d. destruct (c1 a b) eqn:Hab, (c1 b d) eqn:Hbd; try discriminate; intros H1 H2.
    rewrite (E1 a b d Hab Hbd). now apply (E2 a b d).
  - intros a b d. destruct (c1 a b) eqn:Hab, (c1 b d) eqn:Hbd; try discriminate; intros H1 H2.
    + rewrite (E1 a b d Hab Hbd). now apply (LE2 a b d).
    + now rewrite (LE1 a b d Hab Hbd).
  - intros a b d. destruct (c1 a b) eqn:Hab, (c1 b d) eqn:Hbd; try discriminate; intros H1 H2.
    + rewrite (E1 a b d Hab Hbd). now apply (EL2 a b d).
    + now rewrite (EL1 a b d Hab Hbd).
Qed.

Lemma order_like_on {A B : Type} (f : A -> B) (c : B -> B -> comparison) :
  order_like c -> order_like (fun a b => c (f a) (f b)).
Proof.
  intros (A1 & L1 & E1 & LE1 & EL1). unfold order_like. repeat split; intros; eauto.
Qed.

Lemma order_like_leb {A : Type} (c : A -> A -> comparison) :
  order_like c ->
  let leb := fun a b => match c a b with Gt => false | _ => true end in
  (forall a b, leb a b = true \/ leb b a = true)
  /\ (forall a b d, leb a b = true -> leb b d = true -> leb a d = true).
Proof.
  intros (A1 & L1 & E1 & LE1 & EL1) leb. unfold leb. split.
  - intros a b. rewrite (A1 a b). destruct (c a b); simpl; auto.
  - intros a b d. destruct (c a b) eqn:Hab, (c b d) eqn:Hbd; try discriminate; intros _ _.
    + now rewrite (E1 a b d Hab Hbd).
    + now rewrite (EL1 a b d Hab Hbd).
    + now rewrite (LE1 a b d Hab Hbd).
    + now rewrite (L1 a b d Hab Hbd).
Qed.

Lemma string_compare_refl (s : string) : String.compare s s = Eq.
Proof.
  pose proof (String.compare_antisym s s) as H.
  destruct (String.compare s s); simpl in H; congruence.
Qed.

Lemma string_compare_order : order_like String.compare.
Proof.
  unfold order_like. repeat split.
  - intros a b. apply String.compare_antisym.
  - intros a b d. apply compare_lt_trans.
  - intros a b d H1 H2. apply String.compare_eq_iff in H1, H2. subst.
    apply string_compare_refl.
  - intros a b d H1 H2. apply String.compare_eq_iff in H2. now subst.
  - intros a b d H1 H2. apply String.compare_eq_iff in H1. now subst.
Qed.

Lemma desc_cmp_order : order_like BestRules.desc_cmp.
Proof.
  unfold order_like, BestRules.desc_cmp. repeat split.
  - intros [x|] [y|]; try reflexivity. now rewrite <- Qcompare_antisym.
  - intros [x|] [y|] [z|]; try discriminate; try reflexivity.
    rewrite <- !Qlt_alt. intros H1 H2. now apply Qlt_trans with y.
  - intros [x|] [y|] [z|]; try discriminate; try reflexivity.
    rewrite <- !Qeq_alt. intros H1 H2. now rewrite H2.
  - intros [x|] [y|] [z|]; try discriminate; try reflexivity.
    rewrite <- !Qlt_alt, <- Qeq_alt. intros H1 H2. now rewrite H2.
  - intros [x|] [y|] [z|]; try discriminate; try reflexivity.
    rewrite <- !Qlt_alt, <- Qeq_alt. intros H1 H2. now rewrite <- H1.
Qed.

Lemma best_rules_compare_order : order_like BestRules.compare.
Proof.
  unfold BestRules.compare.
  apply (order_like_lex (fun a b => String.compare (BestRules.group a) (BestRules.group b))
           (fun a b => RuleKey.cmp_then
              (BestRules.desc_cmp (RuleStability.rule_quality_score a)
                                  (RuleStability.rule_quality_score b))
              (BestRules.desc_cmp (RuleStability.avg_ret_prev_90d a)
                                  (RuleStability.avg_ret_prev_90d b)))).
  - apply (order_like_on BestRules.group), string_compare_order.
  - apply (order_like_lex
             (fun a b => BestRules.desc_cmp (RuleStability.rule_quality_score a)
                                           (RuleStability.rule_quality_score b))
             (fun a b => BestRules.desc_cmp (RuleStability.avg_ret_prev_90d a)
                                           (RuleStability.avg_ret_prev_90d b))).
    + apply (order_like_on RuleStability.rule_quality_score), desc_cmp_order.
    + apply (order_like_on RuleStability.avg_ret_prev_90d), desc_cmp_order.
Qed.
End OrderLike.

Section Heads.
Import BestRules.

Lemma take_heads_In (n : nat) (seen : list string) (l : list RuleStability.Row)
      (r : RuleStability.Row) :
  In r (take_heads n seen l) -> In r l.
Proof.
  revert seen. induction l as [|x rest IH]; intros seen H; simpl in *; [exact H|].
  destruct (_ <? n)%nat.
  - destruct H as [H|H]; [now left|right; now apply (IH _ H)].
  - right. now apply (IH _ H).
Qed.

Lemma take_heads_full (n : nat) (seen : list string) (l : list RuleStability.Row)
      (r : RuleStability.Row) :
  (n <= count_occ string_dec seen (group r))%nat -> ~ In r (take_heads n seen l).
Proof.
  revert seen. induction l as [|x rest IH]; intros seen Hfull H; simpl in *; [exact H|].
  assert (Hnext : (n <= count_occ string_dec (group x :: seen) (group r))%nat).
  { simpl. destruct (string_dec (group x) (group r)); lia. }
  destruct (Nat.ltb_spec (count_occ string_dec seen (group x)) n) as [Hlt|Hge].
  - destruct H as [H|H]; [subst x; lia|]. exact (IH _ Hnext H).
  - exact (IH _ Hnext H).
Qed.

Lemma take_heads_count (n : nat) (seen : list string) (l : list RuleStability.Row)
      (g : string) :
  (length (filter (fun r => String.eqb (group r) g) (take_heads n seen l))
   <= n - count_occ string_dec seen g)%nat.
Proof.
  revert seen. induction l as [|x rest IH]; intros seen; simpl; [lia|].
  specialize (IH (group x :: seen)). simpl in IH.
  destruct (Nat.ltb_spec (count_occ string_dec seen (group x)) n) as [Hlt|Hge].
  - simpl. destruct (String.eqb_spec (group x) g) as [Heq|Hne].
    + destruct (string_dec (group x) g) as [_|Hn]; [|contradiction]. subst g. simpl. lia.
    + destruct (string_dec (group x) g) as [He|_]; [contradiction|]. exact IH.
  - destruct (string_dec (group x) g); lia.
Qed.

Lemma take_heads_app (n : nat) (seen : list string) (l1 l2 : list RuleStability.Row) :
  take_heads n seen (l1 ++ l2)
  = take_heads n seen l1 ++ take_heads n (rev (map group l1) ++ seen) l2.
Proof.
  revert seen. induction l1 as [|x rest IH]; intros seen; simpl; [reflexivity|].
  rewrite IH, <- app_assoc. simpl. destruct (_ <? n)%nat; reflexivity.
Qed.

(** Whoever is kept while a row of its own sector is dropped stands
    before that row. *)
Lemma kept_before_dropped (n : nat) (l1 l2 : list RuleStability.Row)
      (a b : RuleStability.Row) :
  In a (take_heads n [] (l1 ++ b :: l2)) -> ~ In b (take_heads n [] (l1 ++ b :: l2)) ->
  group a = group b -> In a l1.
Proof.
  rewrite take_heads_app. intros Ha Hb Hg.
  apply in_app_or in Ha as [Ha|Ha]; [now apply take_heads_In in Ha|exfalso].
  simpl in Ha, Hb.
  destruct (Nat.ltb_spec (count_occ string_dec (rev (map group l1) ++ []) (group b)) n)
    as [Hlt|Hge].
  - apply Hb, in_or_app. right. now left.
  - revert Ha. apply take_heads_full. simpl. rewrite Hg.
    destruct (string_dec (group b) (group b)); lia.
Qed.
End Heads.

Lemma sorted_app_before {A : Type} (R : A -> A -> Prop) (l1 l2 : list A) (a b : A) :
  StronglySorted R (l1 ++ b :: l2) -> In a l1 -> R a b.
Proof.
  induction l1 as [|x r IH]; intros Hs Ha; [destruct Ha|].
  simpl in Hs. inversion Hs as [|? ? Hs' Hall]; subst.
  destruct Ha as [->|Ha]; [|now apply IH].
  rewrite Forall_forall in Hall. apply Hall, in_or_app. right. now left.
Qed.

(** X25.  [select_best_rules_per_sector] returns rules of the table that
    have a quality score and whose sector is listed in the sector table,
    at most [top_rules_per_sector] of them for any one sector, and the
    best ones: a rule of the same sector that qualifies but is left out
    never has a higher score than a rule that is returned. *)
Theorem best_rules_are_top (rules : list RuleStability.Row)
        (sectors : list SectorFilters.SectorMetrics) (top : nat) :
  let best := BestRules.select_best_rules_per_sector rules sectors top in
  (forall r, In r best ->
             In r rules
             /\ In (BestRules.group r) (map SectorFilters.group sectors)
             /\ RuleStability.rule_quality_score r <> None)
  /\ (forall g, (length (filter (fun r => String.eqb (BestRules.group r) g) best) <= top)%nat)
  /\ (forall a b x y,
         In a best -> In b rules -> ~ In b best ->
         BestRules.group b = BestRules.group a ->
         RuleStability.rule_quality_score a = Some x ->
         RuleStability.rule_quality_score b = Some y ->
         y <= x).
Proof.
  intros best. subst best. unfold BestRules.select_best_rules_per_sector.
  destruct rules as [|r0 rs] eqn:Er;
    [repeat split; intros; try contradiction; simpl; lia|].
  destruct sectors as [|s0 ss] eqn:Es;
    [repeat split; intros; try contradiction; simpl; lia|].
  rewrite <- Er, <- Es. clear Er Es. cbv zeta.
  set (names := map SectorFilters.group sectors) in *.
  set (df := filter (fun r => Pandas.notna (RuleStability.rule_quality_score r))
               (filter (fun r => existsb (String.eqb (BestRules.group r)) names) rules)) in *.
  assert (Hdf : forall r, In r df <->
                          In r rules /\ In (BestRules.group r) names
                          /\ RuleStability.rule_quality_score r <> None).
  { intros r. unfold df. rewrite !filter_In. split.
    - intros [[Hr Hex] Hn]. split; [exact Hr|]. split.
      + apply existsb_exists in Hex as (g & Hg & Heq). apply String.eqb_eq in Heq.
        now rewrite Heq.
      + destruct (RuleStability.rule_quality_score r); [discriminate|discriminate Hn].
    - intros (Hr & Hg & Hn). split; [split; [exact Hr|]|].
      + apply existsb_exists. exists (BestRules.group r). split; [exact Hg|].
        apply String.eqb_refl.
      + destruct (RuleStability.rule_quality_score r); [reflexivity|now elim Hn]. }
  split; [|split].
  - intros r Hr. apply take_heads_In, sort_In in Hr. exact (proj1 (Hdf r) Hr).
  - intros g. etransitivity; [apply take_heads_count|]. lia.
  - intros a b x y Ha Hb Hout Hg Hx Hy.
    assert (Hbdf : In b (Pandas.sort BestRules.leb df)).
    { apply sort_In. apply (proj2 (Hdf b)). split; [exact Hb|].
      split; [|rewrite Hy; discriminate].
      rewrite Hg. apply take_heads_In, sort_In in Ha. apply (proj1 (Hdf a)) in Ha. tauto. }
    apply in_split in Hbdf as (l1 & l2 & Hsplit).
    rewrite Hsplit in Ha, Hout.
    pose proof (kept_before_dropped top l1 l2 a b Ha Hout (eq_sym Hg)) as Hbefore.
    destruct (order_like_leb BestRules.compare best_rules_compare_order) as [Htot Htrans].
    pose proof (sort_sorted _ BestRules.leb Htot Htrans df) as Hsorted.
    rewrite Hsplit in Hsorted.
    pose proof (sorted_app_before _ l1 l2 a b Hsorted Hbefore) as Hle.
    unfold BestRules.leb, BestRules.compare in Hle. rewrite <- Hg in Hle.
    assert (He : String.compare (BestRules.group b) (BestRules.group b) = Eq)
      by apply string_compare_refl.
    rewrite He, Hx, Hy in Hle. cbn [RuleKey.cmp_then BestRules.desc_cmp] in Hle.
    destruct (y ?= x) eqn:Hc.
    + apply Qeq_alt in Hc. rewrite Hc. apply Qle_refl.
    + apply Qlt_alt in Hc. now apply Qlt_le_weak.
    + discriminate Hle.
Qed.

Lemma best_rules_are_top_witness : 2 # 10 <= 5 # 10.
Proof.
  apply (proj2 (proj2 (best_rules_are_top SampleRules.rules [Samples.telecom] 2))
           (SampleRules.rule "TELECOM" 5 (Some (5 # 10)))
           (SampleRules.rule "TELECOM" 3 (Some (2 # 10)))).
  - vm_compute. tauto.
  - vm_compute. tauto.
  - vm_compute. intros [H|[H|[]]]; discriminate H.
  - reflexivity.
  - reflexivity.
  - reflexivity.
Defined.

(** ** The entry point of the portfolio ([run_portfolio_for_trade_suggestions]) *)



(** ** From the stability table to the portfolio ([run_engine]) *)






(** ** A table that fits the capacity *)

Section Persist.
Import Portfolio.
Variable trades : list Row.

Lemma day_step_persist (st : SimState) (d : Z) (x : Row) :
  In x (open_trades st) \/ In x (used_trades st) ->
  In x (open_trades (day_step trades st d)) \/ In x (used_trades (day_step trades st d)).
Proof.
  unfold day_step, release. cbn [open_trades used_trades]. intros [H|H].
  - destruct (Pandas.date_lt (Trade.exit_date (snd x)) d) eqn:E.
    + right. apply in_or_app. right. apply filter_In. now split.
    + left. apply take_all_keeps, filter_In. split; [exact H|]. now rewrite E.
  - right. apply in_or_app. now left.
Qed.

Lemma run_persist (days : list Z) (st : SimState) (x : Row) :
  In x (open_trades st) \/ In x (used_trades st) ->
  In x (open_trades (fold_left (day_step trades) days st))
  \/ In x (used_trades (fold_left (day_step trades) days st)).
Proof.
  revert st. induction days as [|d r IH]; intros st H; simpl; [exact H|].
  apply IH, day_step_persist, H.
Qed.

Lemma entry_in_sim_days (r : Row) :
  In r trades -> Pandas.is_business_day (Trade.entry_date (snd r)) = true ->
  In (Trade.entry_date (snd r)) (sim_days trades).
Proof.
  intros Hr Hb. unfold sim_days, date_bounds.
  assert (He : In (Trade.entry_date (snd r))
                  (map (fun r => Trade.entry_date (snd r)) trades
                   ++ Pandas.dropna (map (fun r => Trade.exit_date (snd r)) trades))).
  { apply in_or_app. left. now apply (in_map (fun r => Trade.entry_date (snd r))). }
  match type of He with In _ ?L => set (l0 := L) in * end.
  destruct l0 as [|a l]; [destruct He|].
  apply date_range_B_In. split; [|exact Hb].
  destruct (zmin_spec a l) as [_ Hmin]. pose proof (zmax_spec a l) as Hmax.
  specialize (Hmin _ He). specialize (Hmax _ He). lia.
Qed.

Hypothesis trades_NoDup : NoDup trades.
Hypothesis trades_fit : (length trades <= MAX_CONCURRENT_TRADES)%nat.

(** With no more rows than slots, every row is let in on its entry day. *)
Lemma fitting_row_enters (r : Row) (n : nat) :
  In r trades -> nth_error (sim_days trades) n = Some (Trade.entry_date (snd r)) ->
  In r (open_trades (state_after trades (S n))).
Proof.
  intros Hr Hn. set (d := Trade.entry_date (snd r)) in *.
  pose proof (nth_error_split _ _ _ Hn) as Hsplit.
  pose proof (sorted_NoDup _ (sim_days_sorted trades)) as Hnd.
  rewrite Hsplit in Hnd. pose proof (NoDup_remove_2 _ _ _ Hnd) as Hnot.
  assert (Hbefore : ~ In d (firstn n (sim_days trades)))
    by (intros H; apply Hnot, in_or_app; now left).
  replace (S n) with (n + 1)%nat by lia.
  rewrite state_after_plus, (firstn_one_skipn _ _ _ Hn). cbn [fold_left].
  unfold day_step. cbn [open_trades]. rewrite take_all_shape.
  set (todays := filter (fun tr => (Trade.entry_date (snd tr) =? d)%Z) trades).
  set (kept := open_trades (release d (state_after trades n))).
  assert (Hkept : incl kept (open_trades (state_after trades n))).
  { intros x Hx. unfold kept, release in Hx. cbn [open_trades] in Hx.
    now apply filter_In in Hx as [Hx _]. }
  assert (Hopen_nd : NoDup (open_trades (state_after trades n))).
  { assert (H : NoDup (open_trades (state_after trades n)
                       ++ used_trades (state_after trades n))).
    { apply (run_NoDup trades trades_NoDup [] (firstn n (sim_days trades))).
      - simpl. rewrite Hsplit in Hnd. apply NoDup_app_remove_r in Hnd.
        rewrite <- Hsplit in Hnd. exact Hnd.
      - intros x [[]|[]].
      - constructor. }
    now apply NoDup_app_remove_r in H. }
  assert (Hlen : (length kept + length todays <= length trades)%nat).
  { rewrite <- length_app. apply NoDup_incl_length.
    - apply NoDup_app.
      + unfold kept, release. cbn [open_trades]. now apply filter_NoDup.
      + unfold todays. now apply filter_NoDup.
      + intros x Hx Ht. apply Hkept in Hx.
        apply filter_In in Ht as [_ Ht]. apply Z.eqb_eq in Ht.
        apply Hbefore. rewrite <- Ht. apply (state_after_entered trades n x). now left.
    - intros x Hx. apply in_app_or in Hx as [Hx|Hx].
      + apply Hkept in Hx. apply (state_after_entered trades n x). now left.
      + now apply filter_In in Hx as [Hx _]. }
  apply in_or_app. right. rewrite firstn_all2.
  - apply prioritise_In, filter_In. split; [exact Hr|apply Z.eqb_refl].
  - rewrite (Permutation_length (prioritise_perm todays)). unfold Row in *. lia.
Qed.
End Persist.

(** X28.  A trade table with at most three rows, all entering on business
    days, never meets the capacity limit: [_run_static_portfolio] returns
    every row of the table exactly once. *)
Theorem small_table_all_used (tbl : list Trade.t) (res : Portfolio.PortfolioResult) :
  (length tbl <= 3)%nat ->
  (forall t, In t tbl -> Pandas.is_business_day (Trade.entry_date t) = true) ->
  Portfolio._run_static_portfolio tbl = Some res ->
  Permutation (Portfolio.result_used_trades res) (Portfolio.sorted_rows tbl)
  /\ Permutation (map snd (Portfolio.result_used_trades res)) tbl.
Proof.
  intros Hfit Hbus Hres. apply run_static_result in Hres as [Hused _].
  set (trades := Portfolio.sorted_rows tbl) in *.
  assert (Hperm : Permutation (Portfolio.result_used_trades res) trades).
  { apply NoDup_Permutation.
    - rewrite Hused. apply ledger_NoDup, sorted_rows_NoDup.
    - apply sorted_rows_NoDup.
    - intros r. split.
      + intros Hin. rewrite Hused in Hin.
        apply (state_after_entered trades (length (Portfolio.sim_days trades)) r).
        unfold Portfolio.flush in Hin. apply in_app_or in Hin. tauto.
      + intros Hr. rewrite Hused.
        assert (Hd : In (Trade.entry_date (snd r)) (Portfolio.sim_days trades)).
        { apply entry_in_sim_days; [exact Hr|]. apply Hbus. now apply sorted_rows_In. }
        apply In_nth_error in Hd as [n Hn].
        assert (Hlen : (S n <= length (Portfolio.sim_days trades))%nat).
        { apply Nat.le_succ_l, nth_error_Some. now rewrite Hn. }
        assert (Hin : In r (Portfolio.open_trades (Portfolio.state_after trades (S n)))).
        { apply fitting_row_enters; [apply sorted_rows_NoDup| |exact Hr|exact Hn].
          unfold trades. rewrite sorted_rows_length. exact Hfit. }
        replace (length (Portfolio.sim_days trades))
          with (S n + (length (Portfolio.sim_days trades) - S n))%nat by lia.
        rewrite state_after_plus. unfold Portfolio.flush. apply in_or_app.
        destruct (run_persist trades
                    (firstn (length (Portfolio.sim_days trades) - S n)
                            (skipn (S n) (Portfolio.sim_days trades)))
                    (Portfolio.state_after trades (S n)) r (or_introl Hin)) as [H|H];
          [now right|now left]. }
  split; [exact Hperm|].
  apply Permutation_trans with (map snd trades); [now apply Permutation_map|].
  unfold trades, Portfolio.sorted_rows. cbv zeta.
  assert (H : forall (l1 : list nat) (l2 : list Trade.t),
             length l1 = length l2 -> map snd (combine l1 l2) = l2).
  { induction l1 as [|a l1 IH]; intros [|b l2] Hl; simpl in *; try discriminate;
      [reflexivity|]. f_equal. apply IH. now inversion Hl. }
  rewrite H by apply length_seq. apply sort_perm.
Qed.

Lemma small_table_all_used_witness :
  exists res, Portfolio._run_static_portfolio Samples.one_closed_one_open = Some res
              /\ Permutation (map snd (Portfolio.result_used_trades res))
                             Samples.one_closed_one_open.
Proof.
  eexists. split; [reflexivity|].
  apply (small_table_all_used Samples.one_closed_one_open).
  - simpl. lia.
  - intros t [<-|[<-|[]]]; reflexivity.
  - reflexivity.
Defined.

(** ** A positive equity curve *)

Lemma filter_length_implied {A : Type} (f g : A -> bool) (l : list A) :
  (forall x, In x l -> f x = true -> g x = true) ->
  (length (filter f l) <= length (filter g l))%nat.
Proof.
  induction l as [|x r IH]; intros H; simpl; [lia|].
  assert (IH' : (length (filter f r) <= length (filter g r))%nat).
  { apply IH. intros y Hy. apply H. now right. }
  destruct (f x) eqn:Hf.
  - rewrite (H x (or_introl eq_refl) Hf). simpl. lia.
  - destruct (g x); simpl; lia.
Qed.

Lemma dropna_length {A : Type} (xs : list (option A)) :
  (length (Pandas.dropna xs) <= length xs)%nat.
Proof. induction xs as [|[x|] r IH]; simpl; lia. Qed.

Lemma total_scaled_gt (ys : list Q) (w : Q) :
  0 < w -> (forall y, In y ys -> - (1) < y) -> ys <> [] ->
  - inject_Z (Z.of_nat (length ys)) * w < Pandas.total (map (fun v => v * w) ys).
Proof.
  intros Hw. induction ys as [|y r IH]; intros Hy Hne; [now elim Hne|].
  assert (Hyw : - w < y * w).
  { assert (H : - (1) < y) by (apply Hy; now left).
    setoid_replace (- w) with (- (1) * w) by ring. now apply Qmult_lt_compat_r. }
  change (Pandas.total (map (fun v => v * w) (y :: r)))
    with (y * w + Pandas.total (map (fun v => v * w) r)).
  cbn [length]. rewrite Nat2Z.inj_succ. unfold Z.succ. rewrite inject_Z_plus.
  destruct r as [|y' r'].
  - cbn [length map Pandas.total fold_right]. change (Z.of_nat 0) with 0%Z.
    change (inject_Z 0) with 0. change (inject_Z 1) with 1.
    unfold Pandas.total. cbn [fold_right]. set (p := y * w) in *. lra.
  - assert (IH' := IH (fun z Hz => Hy z (or_intror Hz)) ltac:(discriminate)).
    set (k := inject_Z (Z.of_nat (length (y' :: r')))) in *.
    set (t := Pandas.total (map (fun v => v * w) (y' :: r'))) in *.
    change (inject_Z 1) with 1.
    setoid_replace (- (k + 1) * w) with (- w + - k * w) by ring.
    apply Qplus_lt_le_compat; [exact Hyw|now apply Qlt_le_weak].
Qed.

Lemma total_scaled_bound (ys : list Q) (n : nat) :
  (forall y, In y ys -> - (1) < y) -> (length ys <= n)%nat -> (1 <= n)%nat ->
  - (1) < Pandas.total (map (fun x => x * (1 / inject_Z (Z.of_nat n))) ys).
Proof.
  intros Hy Hlen Hn.
  assert (Hq : 0 < inject_Z (Z.of_nat n)).
  { change 0 with (inject_Z 0). rewrite <- Zlt_Qlt. lia. }
  assert (Hw : 0 < 1 / inject_Z (Z.of_nat n)).
  { apply Qlt_shift_div_l; [exact Hq|]. rewrite Qmult_0_l. reflexivity. }
  destruct ys as [|y r]; [reflexivity|].
  eapply Qle_lt_trans; [|apply (total_scaled_gt (y :: r) _ Hw Hy); discriminate].
  assert (Hk : inject_Z (Z.of_nat (length (y :: r))) <= inject_Z (Z.of_nat n))
    by (rewrite <- Zle_Qle; lia).
  set (k := inject_Z (Z.of_nat (length (y :: r)))) in *.
  set (q := inject_Z (Z.of_nat n)) in *.
  assert (Hkq : k * (1 / q) <= 1).
  { setoid_replace (k * (1 / q)) with (k / q) by (field; lra).
    apply Qle_shift_div_r; [exact Hq|]. lra. }
  lra.
Qed.

Lemma product_pos (l : list Q) : (forall x, In x l -> 0 < x) -> 0 < Pandas.product l.
Proof.
  induction l as [|x r IH]; intros H; simpl; [reflexivity|].
  change (fold_right Qmult 1 r) with (Pandas.product r).
  apply Qmult_lt_0_compat; [apply H; now left|]. apply IH. intros y Hy. apply H. now right.
Qed.

Lemma max_drawdown_bounds (equity : list Q) (m : Q) :
  (forall e, In e equity -> 0 < e) -> compute_max_drawdown equity = Some m ->
  - (1) < m /\ m <= 0.
Proof.
  intros Hpos. unfold compute_max_drawdown, Pandas.min. cbv zeta. rewrite dropna_map_Some.
  destruct equity as [|e0 r]; [discriminate|]. cbn [cummax combine map fst snd].
  intros Hm. injection Hm as Hm.
  assert (He0 : 0 < e0) by (apply Hpos; now left).
  pose proof (fold_Qmin_In (map (fun ep : Q * Q => (fst ep - snd ep) / snd ep)
                                (combine r (cummax_from e0 r))) ((e0 - e0) / e0)) as Hin.
  rewrite Hm in Hin. destruct Hin as [<-|Hin].
  - assert (Hd0 : (e0 - e0) / e0 == 0) by (field; lra). rewrite Hd0. split; lra.
  - apply in_map_iff in Hin as ([x mx] & <- & Hin). cbn [fst snd].
    destruct (cummax_from_pairs e0 r x mx He0 Hin) as [Hle Hmx].
    apply drawdown_range; [|exact Hle|exact Hmx].
    apply Hpos. right. now apply in_combine_l in Hin.
Qed.

(** X29.  When no trade exits before it enters and every return is above
    -100%, every daily return of the portfolio is above -100%, so the
    equity curve of [_run_static_portfolio] is positive on every day, and
    its maximum drawdown, when the curve has a day, lies above -100% and
    is never positive. *)
Theorem equity_curve_positive (tbl : list Trade.t) (res : Portfolio.PortfolioResult) :
  Portfolio._run_static_portfolio tbl = Some res ->
  (forall t e, In t tbl -> Trade.exit_date t = Some e -> (Trade.entry_date t <= e)%Z) ->
  (forall t v, In t tbl -> Trade.ret t = Some v -> - (1) < v) ->
  (forall day v,
      In (day, v) (Portfolio._daily_returns_from_trades (Portfolio.result_used_trades res)) ->
      - (1) < v)
  /\ (forall day v, In (day, v) (Portfolio.equity_curve res) -> 0 < v)
  /\ (forall m, compute_max_drawdown (map snd (Portfolio.equity_curve res)) = Some m ->
                - (1) < m /\ m <= 0).
Proof.
  intros Hres Hwf Hret.
  pose proof (used_from_table tbl res) as Htbl. specialize (fun r => Htbl r Hres).
  destruct (run_static_result tbl res Hres) as [_ Heq].
  set (used := Portfolio.result_used_trades res) in *.
  set (daily := Portfolio._daily_returns_from_trades used) in *.
  assert (Hdaily : forall day v, In (day, v) daily -> - (1) < v).
  { intros day v Hin. apply daily_returns_value in Hin. subst v.
    destruct (daily_value_ledger used day) as (Hval & Hzero & Hn).
    set (ledger := map snd used) in *.
    set (exiting := filter (Trade.exits_on day) ledger) in *.
    set (n := length (filter (Trade.open_on day) ledger)) in *.
    assert (Hled : forall t, In t ledger -> In t tbl).
    { intros t Ht. apply in_map_iff in Ht as (r & <- & Hr). now apply Htbl. }
    destruct exiting as [|x xs] eqn:Ex.
    - rewrite Hzero by now left. reflexivity.
    - rewrite <- Ex in *.
      assert (Hne : exiting <> []) by (rewrite Ex; discriminate).
      assert (H1 : (1 <= n)%nat).
      { apply Hn; [|exact Hne]. intros t e Ht He. apply (Hwf t e); [now apply Hled|exact He]. }
      rewrite (Hval Hne H1). apply total_scaled_bound; [| |exact H1].
      + intros y Hy. apply dropna_In, in_map_iff in Hy as (t & Hty & Ht).
        apply filter_In in Ht as [Ht _]. apply (Hret t y); [now apply Hled|exact Hty].
      + etransitivity; [apply dropna_length|]. rewrite length_map.
        apply filter_length_implied. intros t Ht Hex.
        apply exits_on_open_on; [|exact Hex]. intros e He.
        apply (Hwf t e); [now apply Hled|exact He]. }
  assert (Hequity : forall day v, In (day, v) (Portfolio.equity_curve res) -> 0 < v).
  { intros day v Hin. rewrite Heq in Hin. apply in_combine_r in Hin.
    apply In_nth_error in Hin as [i Hi]. apply cumprod_nth in Hi. rewrite Hi.
    apply product_pos. intros x Hx. apply firstn_incl in Hx.
    apply in_map_iff in Hx as ([d v'] & <- & Hd). simpl.
    specialize (Hdaily d v' Hd). lra. }
  split; [exact Hdaily|]. split; [exact Hequity|].
  intros m Hm. apply (max_drawdown_bounds (map snd (Portfolio.equity_curve res)) m); [|exact Hm].
  intros e He. apply in_map_iff in He as ([d v] & <- & Hin). now apply (Hequity d v).
Qed.

Lemma equity_curve_positive_witness :
  exists res, Portfolio._run_static_portfolio Samples.overlapping = Some res
              /\ forall day v, In (day, v) (Portfolio.equity_curve res) -> 0 < v.
Proof.
  eexists. split; [reflexivity|].
  apply (equity_curve_positive Samples.overlapping).
  - reflexivity.
  - intros t e [<-|[<-|[]]] He; injection He as <-; simpl; lia.
  - intros t v [<-|[<-|[]]] Hv; injection Hv as <-; reflexivity.
Defined.

(** ** From the scan to the trade table *)







